(** * Verification of convert-places-db.js

    A shallow embedding of the SQLite-places to LevelDB converter
    (src/convert-places-db.js) and the properties of its specification.

    Conventions of the embedding:
    - JavaScript numbers that hold SQLite integers are [Z] (exact
      integers; the two agree below 2^53, where the constants and the
      timestamps of the source lie);
    - [undefined] and [null] are kept apart where the source can tell them
      apart (type [jsval]); a column that may hold SQL NULL is an [option];
    - objects used as dictionaries keyed by row ids are [gmap]s; objects
      that are enumerated with for-in are association lists in insertion
      order;
    - the objects of the bookmark table are shared between several
      containers and mutated in place, so they live in an arena (a list)
      and are referred to by their index there;
    - a thrown exception is the [Throw] case of [result];
    - [batch.put] appends to the pending batch, [batch.write] appends the
      batch to the list of submitted batches. *)

From Stdlib Require Import ZArith Ascii String.
From stdpp Require Import base gmap strings list.

Local Open Scope string_scope.
Local Open Scope Z_scope.
Local Open Scope list_scope.

#[local] Set Warnings "-register-all".

(** ** Strings and numbers as JavaScript prints them *)

Module Js.

(** The decimal digit of [d] for [0 <= d < 10]. *)
Definition digitChar (d : Z) : ascii :=
  ascii_of_nat (48 + Z.to_nat d).

(** The decimal digits of a non-negative integer in front of [acc], the
    least significant one computed first; [fuel] bounds their number. *)
Fixpoint digitsOf (fuel : nat) (n : Z) (acc : string) : string :=
  match fuel with
  | O => acc
  | S f =>
      let acc' := String (digitChar (n mod 10)) acc in
      if n / 10 =? 0 then acc' else digitsOf f (n / 10) acc'
  end.

(** [Number.prototype.toString] on an integer. *)
Definition numToString (n : Z) : string :=
  if n <? 0
  then String "-" (digitsOf (S (Z.to_nat (Z.log2 (- n)))) (- n) "")
  else digitsOf (S (Z.to_nat (Z.log2 n))) n "".

(** [s.substring(0, e)]: a negative end counts as 0, an end past the
    string as its length. *)
Definition substring0 (s : string) (e : Z) : string :=
  String.substring 0 (Z.to_nat e) s.

(** [s.slice(0, -1)]: the string without its last character. *)
Definition dropLast (s : string) : string :=
  String.substring 0 (String.length s - 1) s.

(** Days from 1970-01-01 to the given civil date (proleptic Gregorian),
    and [Date.UTC(year, month, day)] in milliseconds, [month] counted
    from 0 as JavaScript does. *)
Definition daysFromCivil (y m d : Z) : Z :=
  let y' := if m <=? 2 then y - 1 else y in
  let era := y' / 400 in
  let yoe := y' - era * 400 in
  let mp := (m + 9) mod 12 in
  let doy := (153 * mp + 2) / 5 + d - 1 in
  let doe := yoe * 365 + yoe / 4 - yoe / 100 + doy in
  era * 146097 + doe - 719468.

Definition Date_UTC (year month day : Z) : Z :=
  daysFromCivil year (month + 1) day * 86400000.

(** Values as they are handed to the output store (JSON encoded there). *)
Inductive jsval : Type :=
| JUndefined
| JNull
| JBool (b : bool)
| JNum (n : Z)
| JStr (s : string)
| JArr (xs : list jsval)
| JObj (fields : list (string * jsval)).

(** What the source can throw; [OutOfFuel] is not an exception of
    JavaScript: it marks a run of the model that needed more fuel than it
    was given. *)
Inductive exn : Type :=
| TypeError
| OutOfFuel.

Inductive result (A : Type) : Type :=
| Ok (a : A)
| Throw (e : exn).
Arguments Ok {A} a.
Arguments Throw {A} e.

Definition bind {A B : Type} (r : result A) (k : A -> result B) : result B :=
  match r with
  | Ok a => k a
  | Throw e => Throw e
  end.

(** Left fold of a step that may throw: [forEach] with a throwing callback,
    and a row scan whose row callback throws. *)
Fixpoint foldM {A S : Type} (step : S -> A -> result S) (st : S) (l : list A)
  : result S :=
  match l with
  | [] => Ok st
  | x :: r => bind (step st x) (fun st' => foldM step st' r)
  end.

(** SQL NULL columns read as [null]. *)
Definition ofStr (o : option string) : jsval :=
  match o with Some s => JStr s | None => JNull end.
Definition ofNum (o : option Z) : jsval :=
  match o with Some n => JNum n | None => JNull end.

(** String coercion of a nullable number and of a nullable string
    ([null] prints as "null"), and of a property that may be missing
    ([undefined] prints as "undefined"). *)
Definition strOfNum (o : option Z) : string :=
  match o with Some n => numToString n | None => "null" end.
Definition strOfNull (o : option string) : string :=
  match o with Some s => s | None => "null" end.
Definition strOfUndef (o : option string) : string :=
  match o with Some s => s | None => "undefined" end.

(** An object enumerated with for-in: properties in insertion order.
    (Property names that look like array indices would be enumerated
    first by the engine; the names used here are root names and typed
    strings, and no statement below depends on the order.)

    These are the own properties of a plain object whose names are not
    [__proto__]: an assignment to that name sets the prototype (or does
    nothing) and makes no property, so the statements about dictionaries
    assume that it is not among the names.  [hasOwnProperty] is the method
    of Object.prototype; a dictionary with an own property of this name
    hides it, so the statements about typed inputs assume that no string
    of this name was typed. *)
Fixpoint objGet {V : Type} (o : list (string * V)) (k : string) : option V :=
  match o with
  | [] => None
  | (k', v) :: r => if String.eqb k' k then Some v else objGet r k
  end.

Fixpoint objSet {V : Type} (o : list (string * V)) (k : string) (v : V)
  : list (string * V) :=
  match o with
  | [] => [(k, v)]
  | (k', v') :: r =>
      if String.eqb k' k then (k, v) :: r else (k', v') :: objSet r k v
  end.

Definition hasOwnProperty {V : Type} (o : list (string * V)) (k : string) : bool :=
  match objGet o k with Some _ => true | None => false end.

(** [s.split(c)] for a one-character separator [c]. *)
Fixpoint splitOn (c : ascii) (s : string) : list string :=
  match s with
  | EmptyString => [""]
  | String a r =>
      if Ascii.eqb a c then "" :: splitOn c r
      else match splitOn c r with
           | [] => [String a ""]
           | w :: ws => String a w :: ws
           end
  end.

(** [a.slice(0, -1)] on an array. *)
Definition sliceButLast {A : Type} (l : list A) : list A := removelast l.

(** The character class \w of regular expressions. *)
Definition isWordChar (a : ascii) : bool :=
  let n := nat_of_ascii a in
  ((48 <=? n) && (n <=? 57) || (65 <=? n) && (n <=? 90)
   || (97 <=? n) && (n <=? 122) || (n =? 95))%nat.

(** [s.split(/\W+/g)]: the pieces between the maximal runs of non-word
    characters; a run at either end leaves an empty piece there.
    [inRun] tells that the previous character belonged to a run. *)
Fixpoint splitNonWord (inRun : bool) (s : string) : list string :=
  match s with
  | EmptyString => [""]
  | String a r =>
      if isWordChar a then
        match splitNonWord false r with
        | [] => [String a ""]
        | w :: ws => String a w :: ws
        end
      else if inRun then splitNonWord true r
      else "" :: splitNonWord true r
  end.

(** [s.toLowerCase()] (on ASCII letters; strings are sequences of 8-bit
    characters here, so [length] and case agree with JavaScript's on ASCII
    text). *)
Definition lowerChar (a : ascii) : ascii :=
  let n := nat_of_ascii a in
  if ((65 <=? n) && (n <=? 90))%nat then ascii_of_nat (n + 32) else a.

Fixpoint toLowerCase (s : string) : string :=
  match s with
  | EmptyString => EmptyString
  | String a r => String (lowerChar a) (toLowerCase r)
  end.

(** [a.indexOf(x) !== -1] on an array of strings. *)
Definition includes (l : list string) (x : string) : bool :=
  existsb (String.eqb x) l.

(** The parts of a parsed url that the converter reads; [url.parse] is
    Node's and is taken as a parameter where it is called. *)
Record parsedUrl : Type := {
  hostname : option string;
  pathname : option string
}.

(** The separator of the components of a key, written \0 in the source. *)
Definition NUL : string := String Ascii.zero EmptyString.

(** [n >= m] where [m] may be [undefined]: the comparison is then false. *)
Definition geUndef (n : Z) (m : option Z) : bool :=
  match m with
  | Some k => k <=? n
  | None => false
  end.

(** [a === b] for a nullable number [a] (never [undefined]) and a number
    [b] that may be [undefined] (never [null]). *)
Definition strictEqId (a b : option Z) : bool :=
  match a, b with
  | Some x, Some y => x =? y
  | _, _ => false
  end.

(** Truthiness of a nullable string: [null] and the empty string are
    falsy. *)
Definition truthyStr (o : option string) : bool :=
  match o with
  | Some s => negb (String.eqb s "")
  | None => false
  end.

End Js.

(** ** The lexicographic codec *)

Definition ZEROES : string := "0000000000000000000000000000000".
Definition NINES : string := "9999999999999999999999999999999".

(** The numbers of the source are doubles.  The model follows them on the
    integers that doubles hold exactly, where the subtraction is exact and
    [toString] writes the decimal digits; the contract of the codec is
    stated within Number.MAX_SAFE_INTEGER. *)
Definition invertAndPadNumber (val max digits : Z) : string :=
  let unpadded := Js.numToString (max - val) in
  Js.substring0 ZEROES (digits - Z.of_nat (String.length unpadded)) +:+ unpadded.

Definition OLDEST_LEGAL_DATE : Z := Js.Date_UTC 2000 0 1.
Definition MOST_FUTURE_LEGAL_DATE : Z := Js.Date_UTC 2031 0 1.
Definition DATE_DIGITS : Z :=
  Z.of_nat (String.length (Js.numToString (MOST_FUTURE_LEGAL_DATE - OLDEST_LEGAL_DATE))).

Definition lexiformTimestamp (val : Z) : string :=
  invertAndPadNumber (val - OLDEST_LEGAL_DATE) MOST_FUTURE_LEGAL_DATE DATE_DIGITS.

Definition MAX_FRECENCY : Z := 1000000.
Definition FRECENCY_DIGITS : Z := 6.

(** *** Notions used to state the contract of the codec *)

(** The [w] low decimal digits of [n], most significant first, in front
    of [acc]: the writing of [n] on exactly [w] characters. *)
Fixpoint fixedDigits (w : nat) (n : Z) (acc : string) : string :=
  match w with
  | O => acc
  | S w' => fixedDigits w' (n / 10) (String (Js.digitChar (n mod 10)) acc)
  end.

(** [j] characters 0. *)
Fixpoint zeros (j : nat) : string :=
  match j with
  | O => EmptyString
  | S j' => String "0" (zeros j')
  end.

(** The number a string of decimal digits is the writing of. *)
Fixpoint parseDecimal (s : string) (acc : Z) : Z :=
  match s with
  | EmptyString => acc
  | String c r => parseDecimal r (10 * acc + (Z.of_nat (nat_of_ascii c) - 48))
  end.

(** Modelled from the spec: the decoder of the codec.  The source only
    encodes; the specification speaks of decode(encode(v)) = v, and the
    decoder that goes with invertAndPadNumber reads the digits back and
    subtracts from the maximum. *)
Definition decodeDescending (s : string) (max : Z) : Z :=
  max - parseDecimal s 0.

(** ** Rows of the places database *)

(** The seven payload columns of an annotation row, copied as they are
    into the annotation object. *)
Record annoValue : Type := {
  mimeType : Js.jsval;
  content : Js.jsval;
  flags : Js.jsval;
  expiration : Js.jsval;
  type : Js.jsval;
  dateAdded : Js.jsval;
  lastModified : Js.jsval
}.

(** moz_anno_attributes *)
Record annoAttribRow : Type := {
  attr_id : Z;
  attr_name : string
}.

(** moz_annos (the owner is [place_id]) and moz_items_annos (the owner is
    [item_id]). *)
Record annoRow : Type := {
  owner_id : Z;
  anno_attribute_id : Z;
  anno_value : annoValue
}.

(** moz_inputhistory *)
Record inputHistoryRow : Type := {
  ih_place_id : Z;
  input : string;
  use_count : Js.jsval
}.

(** moz_keywords *)
Record keywordRow : Type := {
  kw_id : Z;
  kw_name : string
}.

(** moz_favicons, and the object kept for it. *)
Record favicon : Type := {
  fav_url : Js.jsval;
  fav_data : Js.jsval;
  fav_mimeType : Js.jsval;
  fav_expiration : Js.jsval
}.

Record faviconRow : Type := {
  fav_id : Z;
  fav_value : favicon
}.

(** moz_historyvisits *)
Record visitRow : Type := {
  visit_id : Z;
  from_visit : option Z;
  visit_place_id : Z;
  visit_date : Z;
  visit_type : Js.jsval;
  session : Js.jsval
}.

(** moz_bookmarks_roots *)
Record rootRow : Type := {
  root_name : string;
  folder_id : Z
}.

(** moz_bookmarks *)
Record bookmarkRow : Type := {
  bm_id : Z;
  fk : option Z;
  parent : option Z;
  bm_position : Js.jsval;
  bm_title : option string;
  bm_keyword : option Z;
  bm_dateAdded : Js.jsval;
  bm_lastModified : Js.jsval;
  bm_guid : Js.jsval
}.

(** moz_places *)
Record placeRow : Type := {
  place_id : Z;
  place_url : string;
  rev_host : option string;
  place_title : option string;
  visit_count : Js.jsval;
  typed : Js.jsval;
  frecency : Z;
  last_visit_date : Js.jsval;
  place_guid : Js.jsval;
  favicon_id : option Z
}.

(** ** Objects built by the converter *)

(** The object made for each visit row. *)
Record visitInfo : Type := {
  key : string;
  prevKey : option string;
  vi_type : Js.jsval;
  vi_session : Js.jsval
}.

(** The object made for each bookmark row.  [kids] holds references
    (arena indices) to other such objects; [url] is absent until a place
    row fills it in; no property [type] is ever set. *)
Record hierInfo : Type := {
  id : Z;
  placeId : option Z;
  parentId : option Z;
  position : Js.jsval;
  title : option string;
  keyword : Js.jsval;
  hi_dateAdded : Js.jsval;
  hi_lastModified : Js.jsval;
  guid : Js.jsval;
  annotations : option (list (string * annoValue));
  tags : option (list (option string));
  kids : option (list nat);
  url : option string
}.

Definition set_title (h : hierInfo) (t : option string) : hierInfo :=
  {| id := h.(id); placeId := h.(placeId); parentId := h.(parentId);
     position := h.(position); title := t; keyword := h.(keyword);
     hi_dateAdded := h.(hi_dateAdded); hi_lastModified := h.(hi_lastModified);
     guid := h.(guid); annotations := h.(annotations); tags := h.(tags);
     kids := h.(kids); url := h.(url) |}.

Definition set_kids (h : hierInfo) (k : option (list nat)) : hierInfo :=
  {| id := h.(id); placeId := h.(placeId); parentId := h.(parentId);
     position := h.(position); title := h.(title); keyword := h.(keyword);
     hi_dateAdded := h.(hi_dateAdded); hi_lastModified := h.(hi_lastModified);
     guid := h.(guid); annotations := h.(annotations); tags := h.(tags);
     kids := k; url := h.(url) |}.

Definition set_url_tags (h : hierInfo) (u : string)
  (t : option (list (option string))) : hierInfo :=
  {| id := h.(id); placeId := h.(placeId); parentId := h.(parentId);
     position := h.(position); title := h.(title); keyword := h.(keyword);
     hi_dateAdded := h.(hi_dateAdded); hi_lastModified := h.(hi_lastModified);
     guid := h.(guid); annotations := h.(annotations); tags := t;
     kids := h.(kids); url := Some u |}.

(** The conversion context.  [heap] is the arena of the [hierInfo]
    objects, in the order of [flatBookmarks]. *)
Record context : Type := {
  annoAttribsById : gmap Z string;
  annotationsByPlaceId : gmap Z (list (string * annoValue));
  annotationsByBookmarkId : gmap Z (list (string * annoValue));
  inputHistoryByPlaceId : gmap Z (list (string * Js.jsval));
  keywordsById : gmap Z string;
  faviconsById : gmap Z favicon;
  visitsByPlaceId : gmap Z (list visitInfo);
  bookmarkRoots : list (string * Z);
  bookmarkHierarchy : list (string * nat);
  bookmarksByPlaceId : gmap (option Z) (list nat);
  tagsByPlaceId : gmap (option Z) (list (option string));
  heap : list hierInfo
}.

(** The context of kickoffConversions before any table is read (every
    field is replaced by its slurp before it is first read). *)
Definition emptyContext : context :=
  {| annoAttribsById := ∅; annotationsByPlaceId := ∅;
     annotationsByBookmarkId := ∅; inputHistoryByPlaceId := ∅;
     keywordsById := ∅; faviconsById := ∅; visitsByPlaceId := ∅;
     bookmarkRoots := []; bookmarkHierarchy := [];
     bookmarksByPlaceId := ∅; tagsByPlaceId := ∅; heap := [] |}.

(** Assignments to the fields of the context. *)
Definition set_annoAttribsById (ctx : context) v : context :=
  {| annoAttribsById := v; annotationsByPlaceId :=
     ctx.(annotationsByPlaceId); annotationsByBookmarkId :=
     ctx.(annotationsByBookmarkId); inputHistoryByPlaceId :=
     ctx.(inputHistoryByPlaceId); keywordsById := ctx.(keywordsById);
     faviconsById := ctx.(faviconsById); visitsByPlaceId :=
     ctx.(visitsByPlaceId); bookmarkRoots := ctx.(bookmarkRoots);
     bookmarkHierarchy := ctx.(bookmarkHierarchy); bookmarksByPlaceId :=
     ctx.(bookmarksByPlaceId); tagsByPlaceId := ctx.(tagsByPlaceId); heap :=
     ctx.(heap) |}.

Definition set_annotationsByPlaceId (ctx : context) v : context :=
  {| annoAttribsById := ctx.(annoAttribsById); annotationsByPlaceId := v;
     annotationsByBookmarkId := ctx.(annotationsByBookmarkId);
     inputHistoryByPlaceId := ctx.(inputHistoryByPlaceId); keywordsById :=
     ctx.(keywordsById); faviconsById := ctx.(faviconsById); visitsByPlaceId
     := ctx.(visitsByPlaceId); bookmarkRoots := ctx.(bookmarkRoots);
     bookmarkHierarchy := ctx.(bookmarkHierarchy); bookmarksByPlaceId :=
     ctx.(bookmarksByPlaceId); tagsByPlaceId := ctx.(tagsByPlaceId); heap :=
     ctx.(heap) |}.

Definition set_annotationsByBookmarkId (ctx : context) v : context :=
  {| annoAttribsById := ctx.(annoAttribsById); annotationsByPlaceId :=
     ctx.(annotationsByPlaceId); annotationsByBookmarkId := v;
     inputHistoryByPlaceId := ctx.(inputHistoryByPlaceId); keywordsById :=
     ctx.(keywordsById); faviconsById := ctx.(faviconsById); visitsByPlaceId
     := ctx.(visitsByPlaceId); bookmarkRoots := ctx.(bookmarkRoots);
     bookmarkHierarchy := ctx.(bookmarkHierarchy); bookmarksByPlaceId :=
     ctx.(bookmarksByPlaceId); tagsByPlaceId := ctx.(tagsByPlaceId); heap :=
     ctx.(heap) |}.

Definition set_inputHistoryByPlaceId (ctx : context) v : context :=
  {| annoAttribsById := ctx.(annoAttribsById); annotationsByPlaceId :=
     ctx.(annotationsByPlaceId); annotationsByBookmarkId :=
     ctx.(annotationsByBookmarkId); inputHistoryByPlaceId := v; keywordsById
     := ctx.(keywordsById); faviconsById := ctx.(faviconsById);
     visitsByPlaceId := ctx.(visitsByPlaceId); bookmarkRoots :=
     ctx.(bookmarkRoots); bookmarkHierarchy := ctx.(bookmarkHierarchy);
     bookmarksByPlaceId := ctx.(bookmarksByPlaceId); tagsByPlaceId :=
     ctx.(tagsByPlaceId); heap := ctx.(heap) |}.

Definition set_keywordsById (ctx : context) v : context :=
  {| annoAttribsById := ctx.(annoAttribsById); annotationsByPlaceId :=
     ctx.(annotationsByPlaceId); annotationsByBookmarkId :=
     ctx.(annotationsByBookmarkId); inputHistoryByPlaceId :=
     ctx.(inputHistoryByPlaceId); keywordsById := v; faviconsById :=
     ctx.(faviconsById); visitsByPlaceId := ctx.(visitsByPlaceId);
     bookmarkRoots := ctx.(bookmarkRoots); bookmarkHierarchy :=
     ctx.(bookmarkHierarchy); bookmarksByPlaceId := ctx.(bookmarksByPlaceId);
     tagsByPlaceId := ctx.(tagsByPlaceId); heap := ctx.(heap) |}.

Definition set_faviconsById (ctx : context) v : context :=
  {| annoAttribsById := ctx.(annoAttribsById); annotationsByPlaceId :=
     ctx.(annotationsByPlaceId); annotationsByBookmarkId :=
     ctx.(annotationsByBookmarkId); inputHistoryByPlaceId :=
     ctx.(inputHistoryByPlaceId); keywordsById := ctx.(keywordsById);
     faviconsById := v; visitsByPlaceId := ctx.(visitsByPlaceId);
     bookmarkRoots := ctx.(bookmarkRoots); bookmarkHierarchy :=
     ctx.(bookmarkHierarchy); bookmarksByPlaceId := ctx.(bookmarksByPlaceId);
     tagsByPlaceId := ctx.(tagsByPlaceId); heap := ctx.(heap) |}.

Definition set_visitsByPlaceId (ctx : context) v : context :=
  {| annoAttribsById := ctx.(annoAttribsById); annotationsByPlaceId :=
     ctx.(annotationsByPlaceId); annotationsByBookmarkId :=
     ctx.(annotationsByBookmarkId); inputHistoryByPlaceId :=
     ctx.(inputHistoryByPlaceId); keywordsById := ctx.(keywordsById);
     faviconsById := ctx.(faviconsById); visitsByPlaceId := v; bookmarkRoots
     := ctx.(bookmarkRoots); bookmarkHierarchy := ctx.(bookmarkHierarchy);
     bookmarksByPlaceId := ctx.(bookmarksByPlaceId); tagsByPlaceId :=
     ctx.(tagsByPlaceId); heap := ctx.(heap) |}.

Definition set_bookmarkRoots (ctx : context) v : context :=
  {| annoAttribsById := ctx.(annoAttribsById); annotationsByPlaceId :=
     ctx.(annotationsByPlaceId); annotationsByBookmarkId :=
     ctx.(annotationsByBookmarkId); inputHistoryByPlaceId :=
     ctx.(inputHistoryByPlaceId); keywordsById := ctx.(keywordsById);
     faviconsById := ctx.(faviconsById); visitsByPlaceId :=
     ctx.(visitsByPlaceId); bookmarkRoots := v; bookmarkHierarchy :=
     ctx.(bookmarkHierarchy); bookmarksByPlaceId := ctx.(bookmarksByPlaceId);
     tagsByPlaceId := ctx.(tagsByPlaceId); heap := ctx.(heap) |}.

Definition set_heap (ctx : context) v : context :=
  {| annoAttribsById := ctx.(annoAttribsById); annotationsByPlaceId :=
     ctx.(annotationsByPlaceId); annotationsByBookmarkId :=
     ctx.(annotationsByBookmarkId); inputHistoryByPlaceId :=
     ctx.(inputHistoryByPlaceId); keywordsById := ctx.(keywordsById);
     faviconsById := ctx.(faviconsById); visitsByPlaceId :=
     ctx.(visitsByPlaceId); bookmarkRoots := ctx.(bookmarkRoots);
     bookmarkHierarchy := ctx.(bookmarkHierarchy); bookmarksByPlaceId :=
     ctx.(bookmarksByPlaceId); tagsByPlaceId := ctx.(tagsByPlaceId); heap :=
     v |}.


(** ** Reading the auxiliary tables *)

Definition slurpAnnotationAttribs (ctx : context) (rows : list annoAttribRow)
  : context :=
  set_annoAttribsById ctx
    (fold_left (fun m row => <[row.(attr_id) := row.(attr_name)]> m) rows ∅).

(** [annoAttribsById[row.anno_attribute_id]] used as a property name. *)
Definition annoName (ctx : context) (row : annoRow) : string :=
  Js.strOfUndef (ctx.(annoAttribsById) !! row.(anno_attribute_id)).

(** Row callback of slurpAnnotations, on the place-annotation map. *)
Definition slurpAnnotations_row (ctx : context)
  (byPlace : gmap Z (list (string * annoValue))) (row : annoRow)
  : gmap Z (list (string * annoValue)) :=
  let '(annos, byPlace1) :=
    match byPlace !! row.(owner_id) with
    | Some annos => (annos, byPlace)
    | None => ([], <[row.(owner_id) := []]> byPlace)
    end in
  <[row.(owner_id) := Js.objSet annos (annoName ctx row) row.(anno_value)]> byPlace1.

Definition slurpAnnotations (ctx : context) (rows : list annoRow) : context :=
  set_annotationsByPlaceId ctx (fold_left (slurpAnnotations_row ctx) rows ∅).

(** Row callback of slurpBookmarkAnnotations, on the pair of the
    place-annotation map and the bookmark-annotation map.  The object to
    extend is looked up in the place map under [row.item_id]; only when
    there is none is a fresh object stored in the bookmark map. *)
Definition slurpBookmarkAnnotations_row (ctx : context)
  (maps : gmap Z (list (string * annoValue)) * gmap Z (list (string * annoValue)))
  (row : annoRow)
  : gmap Z (list (string * annoValue)) * gmap Z (list (string * annoValue)) :=
  let '(byPlace, byBookmark) := maps in
  match byPlace !! row.(owner_id) with
  | Some annos =>
      (<[row.(owner_id) := Js.objSet annos (annoName ctx row) row.(anno_value)]> byPlace,
       byBookmark)
  | None =>
      (byPlace,
       <[row.(owner_id) := Js.objSet [] (annoName ctx row) row.(anno_value)]> byBookmark)
  end.

Definition slurpBookmarkAnnotations (ctx : context) (rows : list annoRow)
  : context :=
  let '(byPlace, byBookmark) :=
    fold_left (slurpBookmarkAnnotations_row ctx) rows
      (ctx.(annotationsByPlaceId), ∅) in
  set_annotationsByBookmarkId (set_annotationsByPlaceId ctx byPlace) byBookmark.

Definition slurpInputHistory_row
  (m : gmap Z (list (string * Js.jsval))) (row : inputHistoryRow)
  : gmap Z (list (string * Js.jsval)) :=
  let '(inputs, m1) :=
    match m !! row.(ih_place_id) with
    | Some inputs => (inputs, m)
    | None => ([], <[row.(ih_place_id) := []]> m)
    end in
  <[row.(ih_place_id) :=
      Js.objSet inputs row.(input) (Js.JObj [("useCount", row.(use_count))])]> m1.

Definition slurpInputHistory (ctx : context) (rows : list inputHistoryRow)
  : context :=
  set_inputHistoryByPlaceId ctx (fold_left slurpInputHistory_row rows ∅).

Definition slurpKeywords (ctx : context) (rows : list keywordRow) : context :=
  set_keywordsById ctx
    (fold_left (fun m row => <[row.(kw_id) := row.(kw_name)]> m) rows ∅).

Definition slurpFavicons (ctx : context) (rows : list faviconRow) : context :=
  set_faviconsById ctx
    (fold_left (fun m row => <[row.(fav_id) := row.(fav_value)]> m) rows ∅).

(** ** The visit chain *)

(** The locals of slurpHistoryVisits that survive from row to row, and the
    [visitInfo] objects made so far ([made] is not a variable of the
    source: each object is dropped when its row callback returns). *)
Record visitScan : Type := {
  keyByVisitId : gmap Z string;
  lastTS : Z;
  nextUnique : Z;
  made : list visitInfo
}.

Definition slurpHistoryVisits_row (st : visitScan) (row : visitRow) : visitScan :=
  let key0 := lexiformTimestamp row.(visit_date) in
  let '(key1, lastTS1, nextUnique1) :=
    if st.(lastTS) =? row.(visit_date)
    then (key0 +:+ "-" +:+ Js.numToString st.(nextUnique),
          st.(lastTS), st.(nextUnique) + 1)
    else (key0, row.(visit_date), 0) in
  let keyByVisitId1 := <[row.(visit_id) := key1]> st.(keyByVisitId) in
  let found := row.(from_visit) ≫= (fun v => keyByVisitId1 !! v) in
  let visitInfo :=
    {| key := key1;
       prevKey := if Js.truthyStr found then found else None;
       vi_type := row.(visit_type);
       vi_session := row.(session) |} in
  {| keyByVisitId := keyByVisitId1; lastTS := lastTS1;
     nextUnique := nextUnique1; made := st.(made) ++ [visitInfo] |}.

Definition slurpHistoryVisits_scan (rows : list visitRow) : visitScan :=
  fold_left slurpHistoryVisits_row rows
    {| keyByVisitId := ∅; lastTS := 0; nextUnique := 0; made := [] |}.

(** [ctx.visitsByPlaceId] is set to a fresh object when the scan is set
    up and no row callback stores anything in it. *)
Definition slurpHistoryVisits (ctx : context) (rows : list visitRow) : context :=
  let _ := slurpHistoryVisits_scan rows in
  set_visitsByPlaceId ctx ∅.

(** ** The bookmark hierarchy *)

Definition slurpBookmarkRoots (ctx : context) (rows : list rootRow) : context :=
  set_bookmarkRoots ctx
    (fold_left (fun o row => Js.objSet o row.(root_name) row.(folder_id)) rows []).

(** The locals of slurpBookmarks filled by its row callback. *)
Record bookmarkScan : Type := {
  flatBookmarks : list hierInfo;
  bookmarksById : gmap Z nat;
  scan_bookmarksByPlaceId : gmap (option Z) (list nat)
}.

Definition makeHierInfo (ctx : context) (row : bookmarkRow) : hierInfo :=
  {| id := row.(bm_id);
     placeId := row.(fk);
     parentId := row.(parent);
     position := row.(bm_position);
     title := row.(bm_title);
     keyword :=
       match row.(bm_keyword) with
       | Some k =>
           if k =? 0 then Js.JNull
           else match ctx.(keywordsById) !! k with
                | Some name => Js.JStr name
                | None => Js.JUndefined
                end
       | None => Js.JNull
       end;
     hi_dateAdded := row.(bm_dateAdded);
     hi_lastModified := row.(bm_lastModified);
     guid := row.(bm_guid);
     annotations := ctx.(annotationsByBookmarkId) !! row.(bm_id);
     tags := None;
     kids := None;
     url := None |}.

(** Row callback of slurpBookmarks.  The new object gets the next arena
    index.  The array of the bookmarks linked to the place is looked up in
    [bookmarksByPlaceId]; when there is none, the fresh array that receives
    the object is a local and is stored nowhere. *)
Definition slurpBookmarks_row (ctx : context) (st : bookmarkScan)
  (row : bookmarkRow) : bookmarkScan :=
  let hierInfo := makeHierInfo ctx row in
  let ref := length st.(flatBookmarks) in
  {| flatBookmarks := st.(flatBookmarks) ++ [hierInfo];
     bookmarksById := <[hierInfo.(id) := ref]> st.(bookmarksById);
     scan_bookmarksByPlaceId :=
       match st.(scan_bookmarksByPlaceId) !! hierInfo.(placeId) with
       | Some linkedBookmarks =>
           <[hierInfo.(placeId) := linkedBookmarks ++ [ref]]>
             st.(scan_bookmarksByPlaceId)
       | None => st.(scan_bookmarksByPlaceId)
       end |}.

(** "link roots": one step of the for-in loop over the roots. *)
Definition linkRoot (byId : gmap Z nat)
  (st : list (string * nat) * list hierInfo) (root : string * Z)
  : Js.result (list (string * nat) * list hierInfo) :=
  let '(hierarchy, objects) := st in
  let '(rootName, rootId) := root in
  match byId !! rootId with
  | Some rootBookmark =>
      Js.Ok (Js.objSet hierarchy rootName rootBookmark,
             alter (fun h => set_title h (Some rootName)) rootBookmark objects)
  | None => Js.Throw Js.TypeError
  end.

(** "link children to their parents": the callback of
    [flatBookmarks.forEach], on the object of arena index [ref]. *)
Definition linkChild (TAG_ROOT_ID : option Z) (byId : gmap Z nat)
  (st : gmap (option Z) (list (option string)) * list hierInfo) (ref : nat)
  : Js.result (gmap (option Z) (list (option string)) * list hierInfo) :=
  let '(tagsBy, objects) := st in
  match objects !! ref with
  | None => Js.Throw Js.TypeError
  | Some hierInfo =>
      let parentHierInfo := hierInfo.(parentId) ≫= (fun p => byId !! p) in
      if Js.strictEqId hierInfo.(parentId) TAG_ROOT_ID then
        let tags := default [] (tagsBy !! hierInfo.(placeId)) in
        match parentHierInfo ≫= (fun p => objects !! p) with
        | Some parentObj =>
            Js.Ok (<[hierInfo.(placeId) := tags ++ [parentObj.(title)]]> tagsBy,
                   objects)
        | None => Js.Throw Js.TypeError
        end
      else
        match parentHierInfo with
        | Some p =>
            Js.Ok (tagsBy,
                   alter (fun h => set_kids h (Some (default [] h.(kids) ++ [ref])))
                     p objects)
        | None => Js.Ok (tagsBy, objects)
        end
  end.

(** The completion callback of slurpBookmarks. *)
Definition slurpBookmarks_complete (ctx : context) (scan : bookmarkScan)
  : Js.result context :=
  let TAG_ROOT_ID := Js.objGet ctx.(bookmarkRoots) "tags" in
  Js.bind
    (Js.foldM (linkRoot scan.(bookmarksById)) ([], scan.(flatBookmarks))
       ctx.(bookmarkRoots))
    (fun '(hierarchy, objects) =>
       Js.bind
         (Js.foldM (linkChild TAG_ROOT_ID scan.(bookmarksById)) (∅, objects)
            (seq 0 (length objects)))
         (fun '(tagsBy, objects') =>
            Js.Ok
              {| annoAttribsById := ctx.(annoAttribsById);
                 annotationsByPlaceId := ctx.(annotationsByPlaceId);
                 annotationsByBookmarkId := ctx.(annotationsByBookmarkId);
                 inputHistoryByPlaceId := ctx.(inputHistoryByPlaceId);
                 keywordsById := ctx.(keywordsById);
                 faviconsById := ctx.(faviconsById);
                 visitsByPlaceId := ctx.(visitsByPlaceId);
                 bookmarkRoots := ctx.(bookmarkRoots);
                 bookmarkHierarchy := hierarchy;
                 bookmarksByPlaceId := scan.(scan_bookmarksByPlaceId);
                 tagsByPlaceId := tagsBy;
                 heap := objects' |})).

Definition slurpBookmarks_scan (ctx : context) (rows : list bookmarkRow)
  : bookmarkScan :=
  fold_left (slurpBookmarks_row ctx) rows
    {| flatBookmarks := []; bookmarksById := ∅; scan_bookmarksByPlaceId := ∅ |}.

Definition slurpBookmarks (ctx : context) (rows : list bookmarkRow)
  : Js.result context :=
  slurpBookmarks_complete ctx (slurpBookmarks_scan ctx rows).

(** ** Writing records *)

(** One [batch.put(key, value)]. *)
Definition put : Type := string * Js.jsval.

Definition tagsValue (t : option (list (option string))) : Js.jsval :=
  match t with
  | Some l => Js.JArr (map Js.ofStr l)
  | None => Js.JNull
  end.

Definition urlValue (u : option string) : Js.jsval :=
  match u with
  | Some s => Js.JStr s
  | None => Js.JUndefined
  end.

(** The puts of one call of traverseBookmark for the bookmark itself,
    before it recurses into the kids. *)
Definition bookmarkPuts (depth : Z) (bookmark : hierInfo) : list put :=
  [ ("B" +:+ Js.NUL +:+ Js.numToString depth +:+ Js.NUL
       +:+ Js.strOfNum bookmark.(parentId) +:+ Js.NUL
       +:+ Js.numToString bookmark.(id),
     Js.JObj
       [ ("url", urlValue bookmark.(url));
         ("title", Js.ofStr bookmark.(title));
         ("tags", tagsValue bookmark.(tags));
         ("keyword", bookmark.(keyword));
         ("type", Js.JUndefined);
         ("position", bookmark.(position));
         ("dateAdded", bookmark.(hi_dateAdded));
         ("lastModified", bookmark.(hi_lastModified));
         ("guid", bookmark.(guid)) ]);
    ("b" +:+ Js.NUL +:+ Js.strOfUndef bookmark.(url) +:+ Js.NUL
       +:+ Js.numToString bookmark.(id),
     Js.JObj [ ("parentId", Js.ofNum bookmark.(parentId)) ]) ]
  ++ match bookmark.(tags) with
     | Some l =>
         map (fun tag =>
                ("T" +:+ Js.NUL +:+ Js.strOfNull tag +:+ Js.NUL
                   +:+ Js.strOfUndef bookmark.(url),
                 Js.JNull)) l
     | None => []
     end
  ++ match bookmark.(keyword) with
     | Js.JStr k =>
         if String.eqb k "" then []
         else [ ("K" +:+ Js.NUL +:+ k, urlValue bookmark.(url)) ]
     | _ => []
     end.

(** traverseBookmark: the puts of the bookmark, then of its kids in
    order, one level deeper.  The source recurses without a bound (a cycle
    among the kids never returns); the model stops at [fuel] nested
    calls. *)
Fixpoint traverseBookmark (fuel : nat) (objects : list hierInfo) (depth : Z)
  (ref : nat) : Js.result (list put) :=
  match fuel with
  | O => Js.Throw Js.OutOfFuel
  | S fuel' =>
      match objects !! ref with
      | None => Js.Throw Js.TypeError
      | Some bookmark =>
          Js.foldM
            (fun acc kid =>
               Js.bind (traverseBookmark fuel' objects (depth + 1) kid)
                 (fun l => Js.Ok (acc ++ l)))
            (bookmarkPuts depth bookmark)
            (default [] bookmark.(kids))
      end
  end.

(** The batch that writeBookmarks fills: every root of the hierarchy but
    the one named "tags" is traversed from depth 0. *)
Definition writeBookmarks_batch (fuel : nat) (ctx : context)
  : Js.result (list put) :=
  Js.foldM
    (fun batch '(rootName, rootBookmark) =>
       if String.eqb rootName "tags" then Js.Ok batch
       else Js.bind (traverseBookmark fuel ctx.(heap) 0 rootBookmark)
              (fun l => Js.Ok (batch ++ l)))
    [] ctx.(bookmarkHierarchy).

(** writeBookmarks: the batches it submits, and how it returns.  After
    [batch.write] it evaluates [deferred.promise()], and the promise of a
    deferred is not a function. *)
Definition writeBookmarks (fuel : nat) (ctx : context)
  : list (list put) * Js.result unit :=
  match writeBookmarks_batch fuel ctx with
  | Js.Ok batch => ([batch], Js.Throw Js.TypeError)
  | Js.Throw e => ([], Js.Throw e)
  end.

Definition BATCH_LIMIT : Z := 1000.

(** ** Search terms *)

Definition isStopWord (term : string) : bool :=
  String.eqb term "the" || String.eqb term "www" || String.eqb term "com"
  || String.eqb term "org" || String.eqb term "net".

(** maybeAddTerm, on the array [terms] of its enclosing function. *)
Definition maybeAddTerm (terms : list string) (term : string) : list string :=
  let term := Js.toLowerCase term in
  if (String.length term <? 3)%nat then terms
  else if isStopWord term then terms
  else if Js.includes terms term then terms ++ [term]
  else terms.

(** extractTermsForPlace.  The callback over the bookmarks reads
    [bookmarks.title] (of the array, not of its argument), which is
    undefined, and calls [split] on it; a tag that is [null] has no
    [toLowerCase]. *)
Definition extractTermsForPlace (url : Js.parsedUrl) (title : option string)
  (bookmarks : list hierInfo) (tags : list (option string))
  : Js.result (list string) :=
  let terms : list string := [] in
  let terms :=
    if Js.truthyStr url.(Js.hostname)
    then fold_left maybeAddTerm
           (Js.sliceButLast (Js.splitOn "." (default "" url.(Js.hostname))))
           terms
    else terms in
  let terms :=
    if Js.truthyStr title
    then fold_left maybeAddTerm (Js.splitNonWord false (default "" title)) terms
    else terms in
  Js.bind
    (Js.foldM (fun (terms : list string) (bookmark : hierInfo) =>
                 Js.Throw Js.TypeError) terms bookmarks)
    (fun terms =>
       Js.foldM (fun terms tag =>
                   match tag with
                   | Some t => Js.Ok (maybeAddTerm terms t)
                   | None => Js.Throw Js.TypeError
                   end) terms tags).

Definition lowestPrefixToEmitGivenFrecency (frecency : Z) (length : option Z)
  : option Z :=
  if 10000 <? frecency then Some 1 else length.

(** ** The place transform *)

Definition annoValueJs (a : annoValue) : Js.jsval :=
  Js.JObj
    [ ("mimeType", a.(mimeType)); ("content", a.(content));
      ("flags", a.(flags)); ("expiration", a.(expiration));
      ("type", a.(type)); ("dateAdded", a.(dateAdded));
      ("lastModified", a.(lastModified)) ].

Definition annotationsJs (o : option (list (string * annoValue))) : Js.jsval :=
  match o with
  | Some annos => Js.JObj (map (fun '(name, a) => (name, annoValueJs a)) annos)
  | None => Js.JNull
  end.

Definition faviconJs (o : option favicon) : Js.jsval :=
  match o with
  | Some f =>
      Js.JObj
        [ ("url", f.(fav_url)); ("data", f.(fav_data));
          ("mimeType", f.(fav_mimeType)); ("expiration", f.(fav_expiration)) ]
  | None => Js.JUndefined
  end.

(** The locals of transformPlaceRecords that change from row to row:
    the pending batch, its row counter, the reversed hosts whose favicon
    was written, and (not locals) the batches submitted with [batch.write]
    and the bookmark objects, which the place rows fill in. *)
Record transformState : Type := {
  batch : list put;
  batchCount : Z;
  faviconPersistedForReverseHost : gset string;
  submitted : list (list put);
  objects : list hierInfo
}.

Section Transform.

(** [url.parse] of Node's url module. *)
Variable url_parse : string -> Js.parsedUrl.

(** emitAwesome of the row callback. *)
Definition emitAwesome (row : placeRow) (magic term : string) : put :=
  ("A" +:+ Js.NUL +:+ magic +:+ Js.NUL
     +:+ invertAndPadNumber row.(frecency) MAX_FRECENCY FRECENCY_DIGITS
     +:+ Js.NUL +:+ term +:+ Js.NUL +:+ Js.strOfNull row.(rev_host) +:+ Js.NUL
     +:+ Js.strOfNull (url_parse row.(place_url)).(Js.pathname),
   Js.JStr row.(place_url)).

(** The while loop of the callback over the terms: emit [magic], drop
    its last character, as long as it is not shorter than
    [lowestPrefix]. *)
Fixpoint prefixLoop (fuel : nat) (row : placeRow) (lowestPrefix : option Z)
  (magic term : string) : Js.result (list put) :=
  match fuel with
  | O => Js.Throw Js.OutOfFuel
  | S fuel' =>
      if Js.geUndef (Z.of_nat (String.length magic)) lowestPrefix
      then Js.bind (prefixLoop fuel' row lowestPrefix (Js.dropLast magic) term)
             (fun l => Js.Ok (emitAwesome row magic term :: l))
      else Js.Ok []
  end.

(** The callback over the terms.  lowestPrefixToEmitGivenFrecency is
    called with the frecency alone, so its [length] is undefined. *)
Definition emitTerm (row : placeRow) (term : string) : Js.result (list put) :=
  let magic := term in
  let lowestPrefix := lowestPrefixToEmitGivenFrecency row.(frecency) None in
  prefixLoop (S (String.length term)) row lowestPrefix magic term.

(** The puts of one visit of the place. *)
Definition visitPuts (row : placeRow) (visit : visitInfo) : list put :=
  [ ("H" +:+ Js.NUL +:+ visit.(key),
     Js.JObj
       [ ("url", Js.JStr row.(place_url));
         ("prevKey", Js.ofStr visit.(prevKey));
         ("type", visit.(vi_type));
         ("session", visit.(vi_session)) ]);
    ("h" +:+ Js.NUL +:+ Js.strOfNull row.(rev_host) +:+ Js.NUL +:+ row.(place_url),
     Js.JNull) ].

(** The body of the for-in loop over the input history of the place. *)
Definition inputPuts (row : placeRow) (inputs : list (string * Js.jsval))
  (entry : string * Js.jsval) : list put :=
  let '(typedStr, countObj) := entry in
  [ ("a" +:+ Js.NUL +:+ typedStr +:+ Js.NUL +:+ row.(place_url), countObj);
    emitAwesome row typedStr typedStr ]
  ++ if (2 <=? String.length typedStr)%nat
     then let typedPrefix := Js.dropLast typedStr in
          if Js.hasOwnProperty inputs typedPrefix then []
          else [ emitAwesome row typedPrefix typedStr ]
     else [].

(** The site-metadata value of a place; [first] tells that no favicon was
    written yet for its reversed host. *)
Definition infoValue (ctx : context) (row : placeRow) (first : bool) : Js.jsval :=
  Js.JObj
    [ ("title", Js.ofStr row.(place_title));
      ("visitCount", row.(visit_count));
      ("typed", row.(typed));
      ("frecency", Js.JNum row.(frecency));
      ("lastVisitDate", row.(last_visit_date));
      ("guid", row.(place_guid));
      ("favicon",
        if first
        then faviconJs (row.(favicon_id) ≫= (fun f => ctx.(faviconsById) !! f))
        else Js.JNull);
      ("annotations", annotationsJs (ctx.(annotationsByPlaceId) !! row.(place_id))) ].

(** Everything the row callback puts into the pending batch, in order, and
    the bookmark objects after the fix-up of the linked bookmarks.
    (Reversed hosts are used as property names of a plain object; names of
    members of Object.prototype are not in the model.) *)
Definition rowPuts (ctx : context) (persisted : gset string)
  (objs : list hierInfo) (row : placeRow)
  : Js.result (list put * list hierInfo) :=
  let url := row.(place_url) in
  let reversedHost := Js.strOfNull row.(rev_host) in
  let placeId := row.(place_id) in
  let first := bool_decide (reversedHost ∉ persisted) in
  let info := [ ("I" +:+ Js.NUL +:+ reversedHost +:+ Js.NUL +:+ url,
                 infoValue ctx row first) ] in
  let linkedBookmarks := default [] (ctx.(bookmarksByPlaceId) !! Some placeId) in
  let objs' :=
    fold_left
      (fun o ref =>
         alter (fun h => set_url_tags h url (ctx.(tagsByPlaceId) !! Some placeId))
           ref o)
      linkedBookmarks objs in
  let visits := default [] (ctx.(visitsByPlaceId) !! placeId) in
  let history := flat_map (visitPuts row) visits in
  let tags := default [] (ctx.(tagsByPlaceId) !! Some placeId) in
  let parsedUrl := url_parse url in
  Js.bind
    (extractTermsForPlace parsedUrl row.(place_title)
       (omap (fun ref => objs' !! ref) linkedBookmarks) tags)
    (fun terms =>
       Js.bind
         (Js.foldM (fun acc term =>
                      Js.bind (emitTerm row term) (fun l => Js.Ok (acc ++ l)))
            [] terms)
         (fun awesome =>
            let inputs := default [] (ctx.(inputHistoryByPlaceId) !! placeId) in
            Js.Ok (info ++ history ++ awesome
                     ++ flat_map (inputPuts row inputs) inputs,
                   objs'))).

(** The end of the row callback: [if (batchCount++ >= BATCH_LIMIT)] tests
    the counter as it was before the increment; on success the batch is
    submitted, the counter reset and a new batch begun. *)
Definition countRow (st : transformState) (batch' : list put)
  (persisted' : gset string) (objs' : list hierInfo) : transformState :=
  if BATCH_LIMIT <=? st.(batchCount)
  then {| batch := []; batchCount := 0;
          faviconPersistedForReverseHost := persisted';
          submitted := st.(submitted) ++ [batch'];
          objects := objs' |}
  else {| batch := batch'; batchCount := st.(batchCount) + 1;
          faviconPersistedForReverseHost := persisted';
          submitted := st.(submitted);
          objects := objs' |}.

(** The row callback of transformPlaceRecords. *)
Definition transformPlaceRecords_row (ctx : context) (st : transformState)
  (row : placeRow) : Js.result transformState :=
  Js.bind (rowPuts ctx st.(faviconPersistedForReverseHost) st.(objects) row)
    (fun '(puts, objs') =>
       Js.Ok (countRow st (st.(batch) ++ puts)
                ({[ Js.strOfNull row.(rev_host) ]}
                   ∪ st.(faviconPersistedForReverseHost))
                objs')).

Definition transformStart (ctx : context) : transformState :=
  {| batch := []; batchCount := 0; faviconPersistedForReverseHost := ∅;
     submitted := []; objects := ctx.(heap) |}.

(** The completion callback submits the pending batch. *)
Definition transformComplete (st : transformState) : transformState :=
  {| batch := st.(batch); batchCount := st.(batchCount);
     faviconPersistedForReverseHost := st.(faviconPersistedForReverseHost);
     submitted := st.(submitted) ++ [st.(batch)];
     objects := st.(objects) |}.

(** transformPlaceRecords over the place rows in the order of the query
    (by url): the batches submitted, in order of submission, and the
    context with the bookmark objects as the scan left them. *)
Definition transformPlaceRecords (ctx : context) (rows : list placeRow)
  : Js.result (list (list put) * context) :=
  Js.bind (Js.foldM (transformPlaceRecords_row ctx) (transformStart ctx) rows)
    (fun st =>
       let st' := transformComplete st in
       Js.Ok (st'.(submitted), set_heap ctx st'.(objects))).

(** ** The pipeline *)

(** The tables of places.sqlite, each as the list of rows its query
    delivers (the visits by ascending date, the places by url). *)
Record snapshot : Type := {
  moz_anno_attributes : list annoAttribRow;
  moz_annos : list annoRow;
  moz_items_annos : list annoRow;
  moz_inputhistory : list inputHistoryRow;
  moz_keywords : list keywordRow;
  moz_favicons : list faviconRow;
  moz_historyvisits : list visitRow;
  moz_bookmarks_roots : list rootRow;
  moz_bookmarks : list bookmarkRow;
  moz_places : list placeRow
}.

(** The context after the slurps of the promise chain, up to and with
    slurpBookmarks. *)
Definition slurpAll (db : snapshot) : Js.result context :=
  let ctx := slurpAnnotationAttribs emptyContext db.(moz_anno_attributes) in
  let ctx := slurpAnnotations ctx db.(moz_annos) in
  let ctx := slurpBookmarkAnnotations ctx db.(moz_items_annos) in
  let ctx := slurpInputHistory ctx db.(moz_inputhistory) in
  let ctx := slurpKeywords ctx db.(moz_keywords) in
  let ctx := slurpFavicons ctx db.(moz_favicons) in
  let ctx := slurpHistoryVisits ctx db.(moz_historyvisits) in
  let ctx := slurpBookmarkRoots ctx db.(moz_bookmarks_roots) in
  slurpBookmarks ctx db.(moz_bookmarks).

(** kickoffConversions: the promise chain, which ends with
    transformPlaceRecords and allDone.  The result is the list of the
    batches submitted to the output store. *)
Definition kickoffConversions (db : snapshot) : Js.result (list (list put)) :=
  Js.bind (slurpAll db)
    (fun ctx =>
       Js.bind (transformPlaceRecords ctx db.(moz_places))
         (fun '(batches, _) => Js.Ok batches)).

End Transform.

(** ** Example data *)

Module Example.

(** The place of the specification's scenario. *)
Definition place (f : Z) : placeRow :=
  {| place_id := 7;
     place_url := "https://example.org/a";
     rev_host := Some "gro.elpmaxe.";
     place_title := Some "Example Site";
     visit_count := Js.JNum 3;
     typed := Js.JNum 0;
     frecency := f;
     last_visit_date := Js.JNull;
     place_guid := Js.JNull;
     favicon_id := None |}.

(** What [url.parse] answers for the url of that place. *)
Definition parse (u : string) : Js.parsedUrl :=
  if String.eqb u "https://example.org/a"
  then {| Js.hostname := Some "example.org"; Js.pathname := Some "/a" |}
  else {| Js.hostname := None; Js.pathname := None |}.

Definition bookmark (i : Z) (f p : option Z) (t : string) : bookmarkRow :=
  {| bm_id := i; fk := f; parent := p; bm_position := Js.JNum 0;
     bm_title := Some t; bm_keyword := None; bm_dateAdded := Js.JNull;
     bm_lastModified := Js.JNull; bm_guid := Js.JNull |}.

Definition visit (i : Z) (from : option Z) (t : Z) : visitRow :=
  {| visit_id := i; from_visit := from; visit_place_id := 7;
     visit_date := t; visit_type := Js.JNum 1; session := Js.JNum 0 |}.

Definition anno (s : string) : annoValue :=
  {| mimeType := Js.JNull; content := Js.JStr s; flags := Js.JNum 0;
     expiration := Js.JNum 4; type := Js.JNum 3; dateAdded := Js.JNull;
     lastModified := Js.JNull |}.

Definition emptyDb : snapshot :=
  {| moz_anno_attributes := []; moz_annos := []; moz_items_annos := [];
     moz_inputhistory := []; moz_keywords := []; moz_favicons := [];
     moz_historyvisits := []; moz_bookmarks_roots := [];
     moz_bookmarks := []; moz_places := [] |}.

(** The tables of the annotations: two attribute names, one annotation of
    place 5, and one annotation of bookmark 5; and the context after the
    place annotations were read. *)
Definition annoAttribs : list annoAttribRow :=
  [ {| attr_id := 1; attr_name := "places/description" |};
    {| attr_id := 2; attr_name := "bookmarkProperties/description" |} ].

Definition placeAnnoRow : annoRow :=
  {| owner_id := 5; anno_attribute_id := 1; anno_value := anno "of place 5" |}.

Definition annotatedContext : context :=
  slurpAnnotations (slurpAnnotationAttribs emptyContext annoAttribs)
    [ placeAnnoRow ].

Definition itemAnnoRow : annoRow :=
  {| owner_id := 5; anno_attribute_id := 2; anno_value := anno "of bookmark 5" |}.

(** Two visits of the place, the second one coming from the first. *)
Definition firstVisit : visitInfo :=
  {| key := lexiformTimestamp 1373000000000; prevKey := None;
     vi_type := Js.JNum 1; vi_session := Js.JNum 0 |}.

Definition secondVisit : visitInfo :=
  {| key := lexiformTimestamp 1373000005000;
     prevKey := Some (lexiformTimestamp 1373000000000);
     vi_type := Js.JNum 1; vi_session := Js.JNum 0 |}.

(** The scenario of the specification: the place, no bookmark, and two
    visits at t1 < t2, the second one reached from the first. *)
Definition visitsDb : snapshot :=
  {| moz_anno_attributes := []; moz_annos := []; moz_items_annos := [];
     moz_inputhistory := []; moz_keywords := []; moz_favicons := [];
     moz_historyvisits :=
       [ visit 1 (Some 0) 1373000000000; visit 2 (Some 1) 1373000005000 ];
     moz_bookmarks_roots := [];
     moz_bookmarks := [];
     moz_places := [ place 50000 ] |}.

(** A bookmark menu (folder 2) with one bookmark (10) of the place, and
    the Tags root (folder 4) with one child (5), titled "work" and linked
    to the place. *)
Definition bookmarksDb : snapshot :=
  {| moz_anno_attributes := []; moz_annos := []; moz_items_annos := [];
     moz_inputhistory := []; moz_keywords := []; moz_favicons := [];
     moz_historyvisits := [];
     moz_bookmarks_roots :=
       [ {| root_name := "menu"; folder_id := 2 |};
         {| root_name := "tags"; folder_id := 4 |} ];
     moz_bookmarks :=
       [ bookmark 2 None (Some 1) "Bookmarks Menu";
         bookmark 4 None (Some 1) "Tags";
         bookmark 5 (Some 7) (Some 4) "work";
         bookmark 10 (Some 7) (Some 2) "Example" ];
     moz_places := [ place 50000 ] |}.

(** Places 1, 2, ... [n], each with a url of its own, in the order of
    their urls' numbers. *)
Definition numberedPlace (i : Z) : placeRow :=
  {| place_id := i;
     place_url := "https://example.org/" +:+ Js.numToString i;
     rev_host := Some "gro.elpmaxe.";
     place_title := Some "Example Site";
     visit_count := Js.JNum 3;
     typed := Js.JNum 0;
     frecency := 50000;
     last_visit_date := Js.JNull;
     place_guid := Js.JNull;
     favicon_id := None |}.

Definition places (n : nat) : list placeRow :=
  map numberedPlace (seqZ 1 (Z.of_nat n)).

(** The site-metadata record of the place, the only record these two
    snapshots are converted to. *)
Definition infoRecord : put :=
  ("I" +:+ Js.NUL +:+ "gro.elpmaxe." +:+ Js.NUL +:+ "https://example.org/a",
   Js.JObj
     [ ("title", Js.JStr "Example Site"); ("visitCount", Js.JNum 3);
       ("typed", Js.JNum 0); ("frecency", Js.JNum 50000);
       ("lastVisitDate", Js.JNull); ("guid", Js.JNull);
       ("favicon", Js.JUndefined); ("annotations", Js.JNull) ]).

(** The context in which slurpBookmarks reads the bookmarks of
    [bookmarksDb], the context it leaves, and the object made for the child
    of the Tags root. *)
Definition rootsContext : context :=
  slurpBookmarkRoots emptyContext bookmarksDb.(moz_bookmarks_roots).

Definition treeContext : context :=
  match slurpBookmarks rootsContext bookmarksDb.(moz_bookmarks) with
  | Js.Ok ctx => ctx
  | Js.Throw _ => emptyContext
  end.

Definition workFolder : hierInfo :=
  makeHierInfo rootsContext (bookmark 5 (Some 7) (Some 4) "work").

End Example.

(** ** Notions used to state the properties *)

(** The prefixes of a term from the term itself down to its first
    character. *)
Fixpoint prefixesFrom (n : nat) (magic : string) : list string :=
  match n with
  | O => []
  | S n' => magic :: prefixesFrom n' (Js.dropLast magic)
  end.

Definition prefixesDown (term : string) : list string :=
  prefixesFrom (String.length term) term.

(** The keys of the puts in the name space [tag]. *)
Definition keysIn (tag : string) (puts : list put) : list string :=
  List.filter (fun k => String.prefix (tag +:+ Js.NUL) k) (map fst puts).

(** The history-by-site key as the header of the source and the
    specification describe it: reversed host, key of the visit, url. *)
Definition historyBySiteKey_spec (row : placeRow) (visit : visitInfo) : string :=
  "h" +:+ Js.NUL +:+ Js.strOfNull row.(rev_host) +:+ Js.NUL +:+ visit.(key)
    +:+ Js.NUL +:+ row.(place_url).



(** The number of puts in each submitted batch, in order of submission. *)
Definition batchSizes (r : Js.result (list (list put) * context))
  : option (list nat) :=
  match r with
  | Js.Ok (batches, _) => Some (map (fun b : list put => length b) batches)
  | Js.Throw _ => None
  end.

Definition rmap {A B : Type} (f : A -> B) (r : Js.result A) : Js.result B :=
  match r with
  | Js.Ok a => Js.Ok (f a)
  | Js.Throw e => Js.Throw e
  end.

(** The calls of traverseBookmark in the order they are made, each as the
    depth and the object it is called with; same recursion as
    [traverseBookmark]. *)
Fixpoint traverseCalls (fuel : nat) (objs : list hierInfo) (depth : Z)
  (ref : nat) : Js.result (list (Z * nat)) :=
  match fuel with
  | O => Js.Throw Js.OutOfFuel
  | S fuel' =>
      match objs !! ref with
      | None => Js.Throw Js.TypeError
      | Some bookmark =>
          Js.foldM
            (fun acc kid =>
               Js.bind (traverseCalls fuel' objs (depth + 1) kid)
                 (fun l => Js.Ok (acc ++ l)))
            [(depth, ref)]
            (default [] bookmark.(kids))
      end
  end.

Definition writeBookmarks_calls (fuel : nat) (ctx : context)
  : Js.result (list (Z * nat)) :=
  Js.foldM
    (fun calls '(rootName, rootBookmark) =>
       if String.eqb rootName "tags" then Js.Ok calls
       else Js.bind (traverseCalls fuel ctx.(heap) 0 rootBookmark)
              (fun l => Js.Ok (calls ++ l)))
    [] ctx.(bookmarkHierarchy).

(** The puts made by a sequence of calls of traverseBookmark. *)
Definition putsOfCalls (objs : list hierInfo) (calls : list (Z * nat)) : list put :=
  flat_map (fun '(depth, ref) =>
              match objs !! ref with
              | Some bookmark => bookmarkPuts depth bookmark
              | None => []
              end) calls.

(** The object [ref] is bound in the hierarchy under a root name that
    writeBookmarks traverses (any name but "tags"). *)
Definition isTraversalRoot (hierarchy : list (string * nat)) (ref : nat) : bool :=
  existsb (fun '(rootName, rootBookmark) =>
             negb (String.eqb rootName "tags") && Nat.eqb rootBookmark ref)
    hierarchy.

(** The parent id of the object at an arena index. *)
Definition parentOf (objs : list hierInfo) (ref : nat) : option (option Z) :=
  parentId <$> objs !! ref.

(** Every object listed among the kids of some object has a parent id
    that is not the id of the Tags root. *)
Definition kidsOutsideTags (TAG_ROOT_ID : option Z) (objs : list hierInfo) : Prop :=
  forall (j : nat) (h : hierInfo) (r : nat),
    objs !! j = Some h ->
    r ∈ default [] h.(kids) ->
    exists q, parentOf objs r = Some q /\ Js.strictEqId q TAG_ROOT_ID = false.

(** The object [r] is the one a traversal starts from, or one of the kids
    of some object. *)
Definition reachedFrom (objs : list hierInfo) (start : nat -> Prop) (r : nat) : Prop :=
  start r \/ exists (j : nat) (h : hierInfo),
               objs !! j = Some h /\ r ∈ default [] h.(kids).

(** The key of a put lies in one of the name spaces [tags]. *)
Definition inNamespaces (tags : list string) (p : put) : bool :=
  existsb (fun tag => String.prefix (tag +:+ Js.NUL) p.1) tags.

(** ** More example data *)

Module Example2.

(** Two annotations of bookmark 8, which shares its id with no annotated
    place of [Example.annotatedContext]. *)
Definition itemAnnoRows : list annoRow :=
  [ {| owner_id := 8; anno_attribute_id := 1;
       anno_value := Example.anno "first of bookmark 8" |};
    {| owner_id := 8; anno_attribute_id := 2;
       anno_value := Example.anno "second of bookmark 8" |} ].

(** The object of the menu folder of [Example.bookmarksDb] as
    slurpBookmarks leaves it: titled by its root name, with bookmark 10
    (object 3) as its only kid. *)
Definition menuRow : bookmarkRow :=
  Example.bookmark 2 None (Some 1) "Bookmarks Menu".

Definition menuFolder : hierInfo :=
  set_kids (set_title (makeHierInfo Example.rootsContext menuRow) (Some "menu"))
    (Some [3%nat]).

(** A bookmark table in which the menu folder is its own parent, and the
    context that slurpBookmarks leaves for it. *)
Definition loopRows : list bookmarkRow :=
  [ Example.bookmark 2 None (Some 2) "Bookmarks Menu";
    Example.bookmark 4 None (Some 1) "Tags" ].

Definition loopContext : context :=
  match slurpBookmarks Example.rootsContext loopRows with
  | Js.Ok ctx => ctx
  | Js.Throw _ => emptyContext
  end.

(** What transformPlaceRecords submits for the places [rows] in the empty
    context. *)
Definition transformed (rows : list placeRow) : list (list put) * context :=
  match transformPlaceRecords Example.parse emptyContext rows with
  | Js.Ok r => r
  | Js.Throw _ => ([], emptyContext)
  end.

(** The scenario of the specification, its two visits included, with three
    rows of typed inputs for the place: "exa" twice, with use counts 2 and
    then 5, and "example" once. *)
Definition typedRow (s : string) (n : Z) : inputHistoryRow :=
  {| ih_place_id := 7; input := s; use_count := Js.JNum n |}.

Definition typedDb : snapshot :=
  {| moz_anno_attributes := []; moz_annos := []; moz_items_annos := [];
     moz_inputhistory := [ typedRow "exa" 2; typedRow "exa" 5; typedRow "example" 1 ];
     moz_keywords := []; moz_favicons := [];
     moz_historyvisits := Example.visitsDb.(moz_historyvisits);
     moz_bookmarks_roots := [];
     moz_bookmarks := [];
     moz_places := [ Example.place 50000 ] |}.

(** The batches the pipeline submits for the snapshot [db]. *)
Definition converted (db : snapshot) : list (list put) :=
  match kickoffConversions Example.parse db with
  | Js.Ok batches => batches
  | Js.Throw _ => []
  end.

(** The height of the folders of [Example.bookmarksDb] above the leaves:
    the parent 1 of the two root folders, the root folders 2 and 4, and
    their children. *)
Definition height (k : Z) : nat :=
  if k =? 1 then 2%nat else if (k =? 2) || (k =? 4) then 1%nat else 0%nat.

(** A roots table that names, as the folder of the root "menu", a bookmark
    that lies under the Tags root: folder 4 is the Tags root, and bookmark
    5, of place 7, has parent 4 and is the folder of "menu". *)
Definition rootUnderTagsRoots : list rootRow :=
  [ {| root_name := "tags"; folder_id := 4 |};
    {| root_name := "menu"; folder_id := 5 |} ].

Definition rootUnderTagsRows : list bookmarkRow :=
  [ Example.bookmark 4 None (Some 1) "Tags";
    Example.bookmark 5 (Some 7) (Some 4) "work" ].

Definition rootUnderTagsContext : context :=
  slurpBookmarkRoots emptyContext rootUnderTagsRoots.

Definition rootUnderTagsTree : context :=
  match slurpBookmarks rootUnderTagsContext rootUnderTagsRows with
  | Js.Ok ctx => ctx
  | Js.Throw _ => emptyContext
  end.

End Example2.

(** ** Notions used to state the further properties *)

(** The id and the parent id of each object of the arena, in order. *)
Definition skeleton (objs : list hierInfo) : list (Z * option Z) :=
  map (fun h => (h.(id), h.(parentId))) objs.

(** The names of the members of Object.prototype: looked up in a plain
    object, each of them yields a value although no property was set. *)
Definition objectPrototypeNames : list string :=
  [ "constructor"; "hasOwnProperty"; "isPrototypeOf"; "propertyIsEnumerable";
    "toLocaleString"; "toString"; "valueOf"; "__proto__";
    "__defineGetter__"; "__defineSetter__"; "__lookupGetter__";
    "__lookupSetter__" ].

(** Number.MAX_SAFE_INTEGER: up to it, in absolute value, every integer is
    a double. *)
Definition MAX_SAFE_INTEGER : Z := 2 ^ 53 - 1.

(** Every character of the string is an ASCII character, so that the
    string has as many UTF-16 code units as characters here. *)
Definition isAscii (s : string) : bool :=
  forallb (fun c => (nat_of_ascii c <? 128)%nat) (list_ascii_of_string s).

(** Some row of the bookmark table has the id [k]. *)
Definition hasRow (rows : list bookmarkRow) (k : Z) : bool :=
  existsb (fun row => row.(bm_id) =? k) rows.

(** The row [row] is linked under the folder of id [pid]: its parent is
    [pid], and [pid] is not the Tags root. *)
Definition isChildOf (TAG_ROOT_ID : option Z) (pid : Z) (row : bookmarkRow) : bool :=
  match row.(parent) with
  | Some q => (q =? pid) && negb (Js.strictEqId (Some q) TAG_ROOT_ID)
  | None => false
  end.

(** The indices, counted from [i], of the rows linked under [pid], in the
    order of the table. *)
Fixpoint childrenFrom (i : nat) (TAG_ROOT_ID : option Z) (pid : Z)
  (rows : list bookmarkRow) : list nat :=
  match rows with
  | [] => []
  | row :: r =>
      if isChildOf TAG_ROOT_ID pid row
      then i :: childrenFrom (S i) TAG_ROOT_ID pid r
      else childrenFrom (S i) TAG_ROOT_ID pid r
  end.

Definition childrenOf (TAG_ROOT_ID : option Z) (pid : Z) (rows : list bookmarkRow)
  : list nat :=
  childrenFrom 0 TAG_ROOT_ID pid rows.

(** The object that the child-linking callback appends the object [i] to,
    if any. *)
Definition targetOf (TAG_ROOT_ID : option Z) (byId : gmap Z nat)
  (objs : list hierInfo) (i : nat) : option nat :=
  objs !! i ≫= (fun h =>
    if Js.strictEqId h.(parentId) TAG_ROOT_ID then None
    else h.(parentId) ≫= (fun q => byId !! q)).

(** The kids of the object [p], as a list. *)
Definition kidsList (objs : list hierInfo) (p : nat) : list nat :=
  default [] (objs !! p ≫= kids).

(** From the object [start], taken at depth [d0], the object [r] is
    reached at depth [d] by going down through kids. *)
Inductive reachesAt (objs : list hierInfo) (start : nat) (d0 : Z)
  : Z -> nat -> Prop :=
| reach_start : reachesAt objs start d0 d0 start
| reach_kid (d : Z) (j : nat) (b : hierInfo) (r : nat) :
    reachesAt objs start d0 d j ->
    objs !! j = Some b ->
    r ∈ default [] b.(kids) ->
    reachesAt objs start d0 (d + 1) r.

(** The reversed host of a place as it is used in keys and as a property
    name, and the key of the site-metadata record of a place. *)
Definition hostOf (row : placeRow) : string := Js.strOfNull row.(rev_host).

Definition infoKey (row : placeRow) : string :=
  "I" +:+ Js.NUL +:+ hostOf row +:+ Js.NUL +:+ row.(place_url).

Section Unbatched.

Variable url_parse : string -> Js.parsedUrl.

(** The place scan without its batches: the puts of the rows one after
    the other, with the same bookkeeping of the reversed hosts whose
    favicon was written and of the bookmark objects.  This is what the
    batches of transformPlaceRecords are compared with. *)
Definition unbatched_row (ctx : context)
  (st : list put * gset string * list hierInfo) (row : placeRow)
  : Js.result (list put * gset string * list hierInfo) :=
  let '(puts, persisted, objs) := st in
  Js.bind (rowPuts url_parse ctx persisted objs row)
    (fun '(new, objs') => Js.Ok (puts ++ new, {[ hostOf row ]} ∪ persisted, objs')).

Definition unbatched (ctx : context) (rows : list placeRow)
  : Js.result (list put) :=
  rmap (fun st : list put * gset string * list hierInfo => st.1.1)
    (Js.foldM (unbatched_row ctx) ([], ∅, ctx.(heap)) rows).

End Unbatched.

(** The pending batch and the submitted ones hold, in order, the puts made
    so far. *)
Definition batchesHold (st : transformState)
  (u : list put * gset string * list hierInfo) : Prop :=
  concat st.(submitted) ++ st.(batch) = u.1.1
  /\ st.(faviconPersistedForReverseHost) = u.1.2
  /\ st.(objects) = u.2.
(** * Properties *)

(** ** Auxiliary facts *)

(** An invariant of the steps of a fold holds of its result. *)
Lemma foldM_invariant {A S : Type} (step : S -> A -> Js.result S)
  (Inv : S -> Prop) (l : list A) :
  (forall st x st', x ∈ l -> step st x = Js.Ok st' -> Inv st -> Inv st') ->
  forall st st', Js.foldM step st l = Js.Ok st' -> Inv st -> Inv st'.
Proof.
  induction l as [|x l IH]; intros Hstep st st' Hrun Hinv; simpl in Hrun.
  - injection Hrun as <-. exact Hinv.
  - destruct (step st x) as [st1|e] eqn:Hx; simpl in Hrun; [|discriminate].
    apply (IH (fun st x' st' Hin => Hstep st x' st' (list_elem_of_further _ _ _ Hin))
             st1 st' Hrun).
    apply (Hstep st x st1); [apply list_elem_of_here|exact Hx|exact Hinv].
Qed.

Lemma prefix_empty (s : string) : String.prefix "" s = true.
Proof. destruct s; reflexivity. Qed.

(** ** Term extraction (C5) *)

Lemma maybeAddTerm_nil (term : string) : maybeAddTerm [] term = [].
Proof.
  unfold maybeAddTerm.
  destruct (String.length (Js.toLowerCase term) <? 3)%nat; [reflexivity|].
  destruct (isStopWord (Js.toLowerCase term)); reflexivity.
Qed.

Lemma fold_maybeAddTerm_nil (l : list string) : fold_left maybeAddTerm l [] = [].
Proof.
  induction l as [|t l IH]; simpl; [reflexivity|].
  rewrite maybeAddTerm_nil. exact IH.
Qed.

Lemma foldM_tags_nil (tags : list (option string)) :
  Js.foldM (fun terms tag =>
              match tag with
              | Some t => Js.Ok (maybeAddTerm terms t)
              | None => Js.Throw Js.TypeError
              end) [] tags
  = if forallb (fun tag : option string => bool_decide (is_Some tag)) tags
    then Js.Ok [] else Js.Throw Js.TypeError.
Proof.
  induction tags as [|[t|] tags IH]; simpl; [reflexivity| |reflexivity].
  rewrite maybeAddTerm_nil. exact IH.
Qed.

(** The array of terms is empty when maybeAddTerm is first called and a
    term is pushed only when it is already there: whatever the url, the
    title and the tags are, extractTermsForPlace returns the empty array,
    unless it throws. *)
Lemma extractTermsForPlace_result (url : Js.parsedUrl) (title : option string)
  (bookmarks : list hierInfo) (tags : list (option string)) :
  extractTermsForPlace url title bookmarks tags
  = match bookmarks with
    | [] =>
        if forallb (fun tag : option string => bool_decide (is_Some tag)) tags
        then Js.Ok [] else Js.Throw Js.TypeError
    | _ :: _ => Js.Throw Js.TypeError
    end.
Proof.
  unfold extractTermsForPlace.
  assert (Hterms :
    (let terms : list string := [] in
     let terms :=
       if Js.truthyStr url.(Js.hostname)
       then fold_left maybeAddTerm
              (Js.sliceButLast (Js.splitOn "." (default "" url.(Js.hostname))))
              terms
       else terms in
     if Js.truthyStr title
     then fold_left maybeAddTerm (Js.splitNonWord false (default "" title)) terms
     else terms) = []).
  { cbv zeta.
    destruct (Js.truthyStr url.(Js.hostname)); destruct (Js.truthyStr title);
      rewrite ?fold_maybeAddTerm_nil; reflexivity. }
  cbv zeta in Hterms |- *. rewrite Hterms.
  destruct bookmarks as [|b bookmarks]; simpl; [apply foldM_tags_nil|reflexivity].
Qed.

(** C5 (as amended): no input makes extractTermsForPlace return a term
    twice.  The inverted membership test never lets a first occurrence in:
    for every url, title and tag list, and with no linked bookmark,
    extractTermsForPlace returns the empty array when every tag is a
    string; with a linked bookmark, or a tag that is null, it throws.  So
    whatever it returns is empty, and holds no term twice. *)
Theorem C5_extractTermsForPlace_returns_no_term :
  forall (url : Js.parsedUrl) (title : option string)
         (bookmarks : list hierInfo) (tags : list (option string)),
    extractTermsForPlace url title bookmarks tags
    = match bookmarks with
      | [] =>
          if forallb (fun tag : option string => bool_decide (is_Some tag)) tags
          then Js.Ok [] else Js.Throw Js.TypeError
      | _ :: _ => Js.Throw Js.TypeError
      end
    /\ forall terms : list string,
         extractTermsForPlace url title bookmarks tags = Js.Ok terms ->
         terms = []
         /\ forall term : string, count_occ string_dec terms term = 0%nat.
Proof.
  intros url title bookmarks tags.
  pose proof (extractTermsForPlace_result url title bookmarks tags) as Hres.
  split; [exact Hres|].
  intros terms Hret. rewrite Hres in Hret.
  destruct bookmarks; [|discriminate].
  destruct (forallb _ tags); [|discriminate].
  injection Hret as <-. split; [reflexivity|]. intros term. reflexivity.
Qed.

(** C5 on an input in which the term "example" comes four times (host
    name, title twice, tag): nothing is returned. *)
Lemma C5_repeated_term_witness :
  extractTermsForPlace
    {| Js.hostname := Some "www.example.org"; Js.pathname := Some "/a" |}
    (Some "Example Site example") [] [ Some "example" ]
  = Js.Ok []
  /\ forall term : string, count_occ string_dec (@nil string) term = 0%nat.
Proof.
  pose proof (C5_extractTermsForPlace_returns_no_term
                {| Js.hostname := Some "www.example.org"; Js.pathname := Some "/a" |}
                (Some "Example Site example") [] [ Some "example" ])
    as [Hres Hall].
  split; [exact Hres|].
  exact (proj2 (Hall [] Hres)).
Defined.

(** C5, as stated, fails: no input makes extractTermsForPlace return an
    array in which some term occurs twice (or at all). *)
Lemma C5_no_input_accumulates_duplicates :
  ~ (exists (url : Js.parsedUrl) (title : option string)
            (bookmarks : list hierInfo) (tags : list (option string))
            (terms : list string) (term : string),
        extractTermsForPlace url title bookmarks tags = Js.Ok terms
        /\ (2 <= count_occ string_dec terms term)%nat).
Proof.
  intros (url & title & bookmarks & tags & terms & term & Hret & Hcount).
  rewrite extractTermsForPlace_result in Hret.
  destruct bookmarks; [|discriminate].
  destruct (forallb _ tags); [|discriminate].
  injection Hret as <-. simpl in Hcount. lia.
Qed.

(** ** The prefixes of a term (C4) *)

Lemma length_substring0 (s : string) (n : nat) :
  String.length (String.substring 0 n s) = Nat.min n (String.length s).
Proof.
  revert n. induction s as [|a s IH]; intros [|n]; simpl; auto.
Qed.

Lemma length_dropLast (s : string) :
  String.length (Js.dropLast s) = (String.length s - 1)%nat.
Proof. unfold Js.dropLast. rewrite length_substring0. lia. Qed.

Lemma prefixLoop_step url_parse (fuel : nat) (row : placeRow)
  (lowestPrefix : option Z) (magic term : string) :
  prefixLoop url_parse (S fuel) row lowestPrefix magic term
  = if Js.geUndef (Z.of_nat (String.length magic)) lowestPrefix
    then Js.bind (prefixLoop url_parse fuel row lowestPrefix (Js.dropLast magic) term)
           (fun l => Js.Ok (emitAwesome url_parse row magic term :: l))
    else Js.Ok [].
Proof. reflexivity. Qed.

Lemma prefixLoop_all_prefixes url_parse (row : placeRow) (term : string) :
  forall (n : nat) (magic : string),
    String.length magic = n ->
    prefixLoop url_parse (S n) row (Some 1) magic term
    = Js.Ok (map (fun m => emitAwesome url_parse row m term) (prefixesFrom n magic)).
Proof.
  induction n as [|n IH]; intros magic Hlen.
  - rewrite prefixLoop_step, Hlen. reflexivity.
  - rewrite prefixLoop_step, Hlen.
    replace (Js.geUndef (Z.of_nat (S n)) (Some 1)) with true
      by (unfold Js.geUndef; symmetry; apply Z.leb_le; lia).
    rewrite IH by (rewrite length_dropLast; lia).
    reflexivity.
Qed.

(** Above the threshold every prefix of the term is emitted, from the
    term itself down to its first character. *)
Lemma emitTerm_high_frecency url_parse (row : placeRow) (term : string) :
  10000 < row.(frecency) ->
  emitTerm url_parse row term
  = Js.Ok (map (fun m => emitAwesome url_parse row m term) (prefixesDown term)).
Proof.
  intros Hf. unfold emitTerm, lowestPrefixToEmitGivenFrecency.
  replace (10000 <? row.(frecency)) with true by (symmetry; apply Z.ltb_lt; lia).
  apply prefixLoop_all_prefixes. reflexivity.
Qed.

(** C4: at or below the threshold the loop over the prefixes of a term
    emits no entry at all, not even the one for the full term: the lowest
    prefix length is computed without the length of the term and is
    undefined, and no length is at least undefined. *)
Theorem C4_low_frecency_emits_no_entry :
  forall (url_parse : string -> Js.parsedUrl) (row : placeRow) (term : string),
    row.(frecency) <= 10000 ->
    emitTerm url_parse row term = Js.Ok [].
Proof.
  intros url_parse row term Hf.
  unfold emitTerm, lowestPrefixToEmitGivenFrecency.
  replace (10000 <? row.(frecency)) with false by (symmetry; apply Z.ltb_ge; lia).
  reflexivity.
Qed.

(** C4 on the term "example" of a place of frecency 5000. *)
Lemma C4_low_frecency_witness :
  (Example.place 5000).(frecency) <= 10000
  /\ emitTerm Example.parse (Example.place 5000) "example" = Js.Ok [].
Proof.
  split.
  - vm_compute. discriminate.
  - apply (C4_low_frecency_emits_no_entry Example.parse (Example.place 5000) "example").
    vm_compute. discriminate.
Defined.

(** ** The history-by-site key (C7) *)

(** C7: the history-by-site key of a visit is made of the reversed host
    and the url alone; the key of the visit is not part of it, so that all
    the visits of a place are put under one and the same key, which is not
    the key the header of the source describes. *)
Theorem C7_history_by_site_key_ignores_the_visit :
  (forall (row : placeRow) (visit : visitInfo),
      keysIn "h" (visitPuts row visit)
      = [ "h" +:+ Js.NUL +:+ Js.strOfNull row.(rev_host) +:+ Js.NUL
            +:+ row.(place_url) ])
  /\ keysIn "h" (visitPuts (Example.place 50000) Example.firstVisit)
     = keysIn "h" (visitPuts (Example.place 50000) Example.secondVisit)
  /\ keysIn "h" (visitPuts (Example.place 50000) Example.secondVisit)
     <> [ historyBySiteKey_spec (Example.place 50000) Example.secondVisit ].
Proof.
  split; [|split].
  - intros row visit. unfold keysIn, visitPuts. simpl.
    rewrite prefix_empty. reflexivity.
  - reflexivity.
  - vm_compute. discriminate.
Qed.

(** ** The codec at its two uses (C3) *)

Lemma nat_of_digitChar (d : Z) :
  0 <= d < 10 -> nat_of_ascii (Js.digitChar d) = (48 + Z.to_nat d)%nat.
Proof.
  intros Hd. unfold Js.digitChar. apply nat_ascii_embedding. lia.
Qed.

Lemma compare_digitChar (a b : Z) :
  0 <= a < 10 -> 0 <= b < 10 ->
  Ascii.compare (Js.digitChar a) (Js.digitChar b) = (a ?= b).
Proof.
  intros Ha Hb.
  assert (Ea : a = 0 \/ a = 1 \/ a = 2 \/ a = 3 \/ a = 4 \/ a = 5 \/ a = 6
               \/ a = 7 \/ a = 8 \/ a = 9) by lia.
  assert (Eb : b = 0 \/ b = 1 \/ b = 2 \/ b = 3 \/ b = 4 \/ b = 5 \/ b = 6
               \/ b = 7 \/ b = 8 \/ b = 9) by lia.
  destruct Ea as [->|[->|[->|[->|[->|[->|[->|[->|[->| ->]]]]]]]]];
    destruct Eb as [->|[->|[->|[->|[->|[->|[->|[->|[->| ->]]]]]]]]];
    reflexivity.
Qed.

Lemma length_fixedDigits (w : nat) :
  forall (n : Z) (acc : string),
    String.length (fixedDigits w n acc) = (w + String.length acc)%nat.
Proof.
  induction w as [|w IH]; intros n acc; simpl; [reflexivity|].
  rewrite IH. simpl. lia.
Qed.

(** Writings of the same width compare as the numbers do. *)
Lemma compare_fixedDigits (w : nat) :
  forall (a b : Z) (x y : string),
    0 <= a < 10 ^ Z.of_nat w -> 0 <= b < 10 ^ Z.of_nat w ->
    String.compare (fixedDigits w a x) (fixedDigits w b y)
    = match a ?= b with
      | Eq => String.compare x y
      | c => c
      end.
Proof.
  induction w as [|w IH]; intros a b x y Ha Hb.
  - simpl in *. assert (a = 0) as -> by lia. assert (b = 0) as -> by lia.
    reflexivity.
  - rewrite Nat2Z.inj_succ, Z.pow_succ_r in Ha, Hb by lia.
    cbn [fixedDigits].
    rewrite IH by (split; [apply Z.div_pos; lia|apply Z.div_lt_upper_bound; lia]).
    pose proof (Z.mod_pos_bound a 10 ltac:(lia)) as Hda.
    pose proof (Z.mod_pos_bound b 10 ltac:(lia)) as Hdb.
    pose proof (Z.div_mod a 10 ltac:(lia)) as Ea.
    pose proof (Z.div_mod b 10 ltac:(lia)) as Eb.
    cbn [String.compare]. rewrite compare_digitChar by assumption.
    assert (Hab : (a ?= b)
                  = match a / 10 ?= b / 10 with
                    | Eq => a mod 10 ?= b mod 10
                    | c => c
                    end).
    { destruct (a / 10 ?= b / 10) eqn:Hq.
      - apply Z.compare_eq in Hq.
        destruct (a mod 10 ?= b mod 10) eqn:Hd.
        + apply Z.compare_eq in Hd. apply Z.compare_eq_iff. lia.
        + rewrite Z.compare_lt_iff in Hd. apply Z.compare_lt_iff. lia.
        + rewrite Z.compare_gt_iff in Hd. apply Z.compare_gt_iff. lia.
      - rewrite Z.compare_lt_iff in Hq. apply Z.compare_lt_iff. lia.
      - rewrite Z.compare_gt_iff in Hq. apply Z.compare_gt_iff. lia. }
    rewrite Hab.
    destruct (a / 10 ?= b / 10); [|reflexivity|reflexivity].
    destruct (a mod 10 ?= b mod 10); reflexivity.
Qed.

Lemma append_cons (c : ascii) (s t : string) :
  String c s +:+ t = String c (s +:+ t).
Proof. reflexivity. Qed.

Lemma zeros_shift (j : nat) (acc : string) :
  zeros j +:+ String "0" acc = String "0" (zeros j +:+ acc).
Proof.
  induction j as [|j IH]; [reflexivity|].
  cbn [zeros]. rewrite !append_cons, IH. reflexivity.
Qed.

Lemma fixedDigits_zero (j : nat) :
  forall acc : string, fixedDigits j 0 acc = zeros j +:+ acc.
Proof.
  induction j as [|j IH]; intros acc; [reflexivity|].
  cbn [fixedDigits]. change (0 / 10) with 0. change (0 mod 10) with 0.
  rewrite IH. change (Js.digitChar 0) with "0"%char.
  apply zeros_shift.
Qed.

Lemma fixedDigits_split (k : nat) :
  forall (j : nat) (n : Z) (acc : string),
    0 <= n ->
    fixedDigits (k + j) n acc
    = fixedDigits j (n / 10 ^ Z.of_nat k) (fixedDigits k n acc).
Proof.
  induction k as [|k IH]; intros j n acc Hn.
  - simpl. rewrite Z.div_1_r. reflexivity.
  - cbn [Nat.add fixedDigits]. rewrite IH by (apply Z.div_pos; lia).
    rewrite Nat2Z.inj_succ, Z.pow_succ_r by lia.
    rewrite Z.div_div by lia. reflexivity.
Qed.

(** A number that fits in [k] digits is written on [k + j] characters with
    [j] zeros in front. *)
Lemma fixedDigits_pad (k j : nat) (n : Z) (acc : string) :
  0 <= n < 10 ^ Z.of_nat k ->
  fixedDigits (k + j) n acc = zeros j +:+ fixedDigits k n acc.
Proof.
  intros Hn. rewrite fixedDigits_split by lia.
  rewrite Z.div_small by lia. apply fixedDigits_zero.
Qed.

(** With enough fuel, digitsOf writes [n] on as many characters as [n] has
    digits. *)
Lemma digitsOf_fixedDigits (fuel : nat) :
  forall (n : Z) (acc : string),
    0 <= n < 2 ^ Z.of_nat fuel -> (1 <= fuel)%nat ->
    exists k : nat,
      (1 <= k)%nat
      /\ Js.digitsOf fuel n acc = fixedDigits k n acc
      /\ n < 10 ^ Z.of_nat k
      /\ (k = 1%nat \/ 10 ^ (Z.of_nat k - 1) <= n).
Proof.
  induction fuel as [|fuel IH]; intros n acc Hn Hfuel; [lia|].
  cbn [Js.digitsOf].
  destruct (n / 10 =? 0) eqn:Hq.
  - apply Z.eqb_eq in Hq. exists 1%nat.
    assert (n < 10).
    { pose proof (Z.div_mod n 10 ltac:(lia)).
      pose proof (Z.mod_pos_bound n 10 ltac:(lia)). lia. }
    repeat split; auto.
  - apply Z.eqb_neq in Hq.
    rewrite Nat2Z.inj_succ, Z.pow_succ_r in Hn by lia.
    assert (Hq1 : 1 <= n / 10).
    { pose proof (Z.div_pos n 10 ltac:(lia) ltac:(lia)). lia. }
    assert (Hq2 : n / 10 < 2 ^ Z.of_nat fuel).
    { apply Z.div_lt_upper_bound; lia. }
    assert (Hf : (1 <= fuel)%nat).
    { destruct fuel; [simpl in Hq2; lia|lia]. }
    destruct (IH (n / 10) (String (Js.digitChar (n mod 10)) acc)
                ltac:(lia) Hf) as (k & Hk & Heq & Hlt & Hge).
    exists (S k). split; [lia|]. split; [exact Heq|].
    pose proof (Z.div_mod n 10 ltac:(lia)) as En.
    pose proof (Z.mod_pos_bound n 10 ltac:(lia)) as Hd.
    rewrite Nat2Z.inj_succ, Z.pow_succ_r by lia.
    split; [lia|]. right.
    replace (Z.succ (Z.of_nat k) - 1) with (Z.of_nat k) by lia.
    destruct Hge as [->|Hge]; [simpl; lia|].
    replace (Z.of_nat k) with (Z.succ (Z.of_nat k - 1)) by lia.
    rewrite Z.pow_succ_r by lia. lia.
Qed.

Lemma numToString_fixedDigits (n : Z) :
  0 <= n ->
  exists k : nat,
    (1 <= k)%nat
    /\ Js.numToString n = fixedDigits k n ""
    /\ n < 10 ^ Z.of_nat k
    /\ (k = 1%nat \/ 10 ^ (Z.of_nat k - 1) <= n).
Proof.
  intros Hn. unfold Js.numToString.
  replace (n <? 0) with false by (symmetry; apply Z.ltb_ge; lia).
  apply digitsOf_fixedDigits; [|lia].
  rewrite Nat2Z.inj_succ, Z2Nat.id by apply Z.log2_nonneg.
  split; [lia|].
  destruct (Z.eq_dec n 0) as [->|Hne]; [reflexivity|].
  apply Z.log2_spec. lia.
Qed.

Lemma substring0_ZEROES (j : nat) :
  (j <= 31)%nat -> String.substring 0 j ZEROES = zeros j.
Proof.
  intros Hj. do 32 (destruct j as [|j]; [reflexivity|]). lia.
Qed.

(** Whenever [max - val] fits in [digits] characters (and the padding is
    within reach of ZEROES), the encoding is the writing of [max - val] on
    exactly [digits] characters. *)
Lemma invertAndPadNumber_fixedDigits (val max digits : Z) :
  1 <= digits <= 31 ->
  0 <= max - val < 10 ^ digits ->
  invertAndPadNumber val max digits = fixedDigits (Z.to_nat digits) (max - val) "".
Proof.
  intros Hdigits Hm. unfold invertAndPadNumber.
  destruct (numToString_fixedDigits (max - val) ltac:(lia))
    as (k & Hk & Heq & Hlt & Hge).
  rewrite Heq, length_fixedDigits. simpl String.length.
  assert (Hkd : Z.of_nat k <= digits).
  { destruct Hge as [->|Hge]; [lia|].
    assert (10 ^ (Z.of_nat k - 1) < 10 ^ digits) as Hpow by lia.
    apply Z.pow_lt_mono_r_iff in Hpow; lia. }
  unfold Js.substring0.
  rewrite substring0_ZEROES by lia.
  set (j := Z.to_nat (digits - Z.of_nat (k + 0))).
  replace (fixedDigits (Z.to_nat digits) (max - val) "")
    with (fixedDigits (k + j) (max - val) "") by (f_equal; subst j; lia).
  rewrite fixedDigits_pad by lia. reflexivity.
Qed.

(** The contract of the codec, for the values that fit the width. *)
Lemma invertAndPadNumber_width (val max digits : Z) :
  1 <= digits <= 31 ->
  0 <= max - val < 10 ^ digits ->
  Z.of_nat (String.length (invertAndPadNumber val max digits)) = digits.
Proof.
  intros Hdigits Hm.
  rewrite invertAndPadNumber_fixedDigits, length_fixedDigits by assumption.
  simpl. lia.
Qed.

Lemma invertAndPadNumber_descending (v1 v2 max digits : Z) :
  1 <= digits <= 31 ->
  0 <= max - v1 -> max - v2 < 10 ^ digits ->
  v2 < v1 ->
  String.ltb (invertAndPadNumber v1 max digits) (invertAndPadNumber v2 max digits)
  = true.
Proof.
  intros Hdigits H1 H2 Hlt.
  rewrite !invertAndPadNumber_fixedDigits by lia.
  unfold String.ltb.
  rewrite compare_fixedDigits by (rewrite Z2Nat.id; lia).
  replace (max - v1 ?= max - v2) with Lt; [reflexivity|].
  symmetry. apply Z.compare_lt_iff. lia.
Qed.

Lemma parseDecimal_fixedDigits (w : nat) :
  forall (n a : Z) (x : string),
    0 <= n < 10 ^ Z.of_nat w ->
    parseDecimal (fixedDigits w n x) a = parseDecimal x (a * 10 ^ Z.of_nat w + n).
Proof.
  induction w as [|w IH]; intros n a x Hn.
  - simpl in *. f_equal. lia.
  - rewrite Nat2Z.inj_succ, Z.pow_succ_r in * by lia.
    cbn [fixedDigits].
    rewrite IH by (split; [apply Z.div_pos; lia|apply Z.div_lt_upper_bound; lia]).
    cbn [parseDecimal].
    pose proof (Z.mod_pos_bound n 10 ltac:(lia)) as Hd.
    rewrite nat_of_digitChar by exact Hd.
    pose proof (Z.div_mod n 10 ltac:(lia)) as En.
    f_equal. lia.
Qed.

Lemma decode_invertAndPadNumber (val max digits : Z) :
  1 <= digits <= 31 ->
  0 <= max - val < 10 ^ digits ->
  decodeDescending (invertAndPadNumber val max digits) max = val.
Proof.
  intros Hdigits Hm. unfold decodeDescending.
  rewrite invertAndPadNumber_fixedDigits by assumption.
  rewrite parseDecimal_fixedDigits by (rewrite Z2Nat.id; lia).
  simpl. lia.
Qed.

(** At its use for frecencies the contract holds from 1 on: only the
    encoding of 0 needs a seventh character. *)
Lemma frecency_codec_contract_above_zero (v1 v2 : Z) :
  1 <= v2 -> v2 < v1 -> v1 <= MAX_FRECENCY ->
  String.ltb (invertAndPadNumber v1 MAX_FRECENCY FRECENCY_DIGITS)
    (invertAndPadNumber v2 MAX_FRECENCY FRECENCY_DIGITS) = true
  /\ Z.of_nat (String.length (invertAndPadNumber v1 MAX_FRECENCY FRECENCY_DIGITS))
     = FRECENCY_DIGITS
  /\ Z.of_nat (String.length (invertAndPadNumber v2 MAX_FRECENCY FRECENCY_DIGITS))
     = FRECENCY_DIGITS
  /\ decodeDescending (invertAndPadNumber v1 MAX_FRECENCY FRECENCY_DIGITS)
       MAX_FRECENCY = v1.
Proof.
  unfold MAX_FRECENCY, FRECENCY_DIGITS. intros H1 H2 H3.
  assert (Hpow : 10 ^ 6 = 1000000) by reflexivity.
  split; [apply invertAndPadNumber_descending; lia|].
  split; [apply invertAndPadNumber_width; lia|].
  split; [apply invertAndPadNumber_width; lia|].
  apply decode_invertAndPadNumber; lia.
Qed.

(** C3: with the constants of the source the contract fails at both uses.
    Frecency 0 is encoded on seven characters and sorts before the
    encoding of frecency 1, which has six.  A timestamp 924992000000 ms
    after the oldest legal date is encoded on thirteen characters and sorts
    before the encoding of the next millisecond, which has twelve. *)
Theorem C3_codec_contract_fails_at_both_uses :
  (0 <= 0 < 1 /\ 1 <= MAX_FRECENCY)
  /\ invertAndPadNumber 1 MAX_FRECENCY FRECENCY_DIGITS = "999999"
  /\ invertAndPadNumber 0 MAX_FRECENCY FRECENCY_DIGITS = "1000000"
  /\ String.ltb (invertAndPadNumber 1 MAX_FRECENCY FRECENCY_DIGITS)
       (invertAndPadNumber 0 MAX_FRECENCY FRECENCY_DIGITS) = false
  /\ (OLDEST_LEGAL_DATE <= 1871676800000 < 1871676800001
      /\ 1871676800001 <= MOST_FUTURE_LEGAL_DATE)
  /\ lexiformTimestamp 1871676800001 = "999999999999"
  /\ lexiformTimestamp 1871676800000 = "1000000000000"
  /\ String.ltb (lexiformTimestamp 1871676800001)
       (lexiformTimestamp 1871676800000) = false.
Proof.
  vm_compute. repeat split; try reflexivity; discriminate.
Qed.

(** ** Bookmark annotations and the place map (C10) *)

(** When a place has annotations under the id of the annotated bookmark,
    the row callback extends the object of the place. *)
Lemma slurpBookmarkAnnotations_row_hit (ctx : context)
  (byPlace byBookmark : gmap Z (list (string * annoValue)))
  (row : annoRow) (annos : list (string * annoValue)) :
  byPlace !! row.(owner_id) = Some annos ->
  slurpBookmarkAnnotations_row ctx (byPlace, byBookmark) row
  = (<[row.(owner_id) := Js.objSet annos (annoName ctx row) row.(anno_value)]> byPlace,
     byBookmark).
Proof. intros H. unfold slurpBookmarkAnnotations_row. rewrite H. reflexivity. Qed.

(** The place map is left alone by the rows whose item id is the id of no
    annotated place. *)
Lemma slurpBookmarkAnnotations_frame (ctx : context) (rows : list annoRow) :
  Forall (fun row => ctx.(annotationsByPlaceId) !! row.(owner_id) = None) rows ->
  (slurpBookmarkAnnotations ctx rows).(annotationsByPlaceId)
  = ctx.(annotationsByPlaceId).
Proof.
  intros Hrows. unfold slurpBookmarkAnnotations.
  assert (Hfold : forall byBookmark,
    (fold_left (slurpBookmarkAnnotations_row ctx) rows
       (ctx.(annotationsByPlaceId), byBookmark)).1 = ctx.(annotationsByPlaceId)).
  { induction Hrows as [|row rows Hrow _ IH]; intros byBookmark; [reflexivity|].
    simpl. rewrite Hrow. apply IH. }
  specialize (Hfold ∅).
  destruct (fold_left _ rows _) as [byPlace byBookmark]. exact Hfold.
Qed.

(** C10: place 5 has an annotation and bookmark 5 gets one.  After the
    bookmark-annotation pass the annotation of the bookmark sits in the
    object of place 5, the place map differs from what it was, and the
    bookmark map has nothing under 5. *)
Theorem C10_bookmark_annotation_lands_in_place_map :
  let ctx' := slurpBookmarkAnnotations Example.annotatedContext [Example.itemAnnoRow] in
  ctx'.(annotationsByPlaceId) !! 5
  = Some [ ("places/description", Example.anno "of place 5");
           ("bookmarkProperties/description", Example.anno "of bookmark 5") ]
  /\ ctx'.(annotationsByPlaceId) <> Example.annotatedContext.(annotationsByPlaceId)
  /\ ctx'.(annotationsByBookmarkId) !! 5 = None.
Proof.
  cbv zeta. split; [|split].
  - vm_compute. reflexivity.
  - intros Heq. apply (f_equal (fun m => m !! 5)) in Heq.
    vm_compute in Heq. discriminate.
  - vm_compute. reflexivity.
Qed.

(** ** What the pipeline does not depend on *)

(** Without input history for the place, the puts of a row do not depend
    on how the url parses: no term is ever extracted. *)
Lemma rowPuts_parse_irrelevant (p1 p2 : string -> Js.parsedUrl) (ctx : context)
  (persisted : gset string) (objs : list hierInfo) (row : placeRow) :
  ctx.(inputHistoryByPlaceId) !! row.(place_id) = None ->
  rowPuts p1 ctx persisted objs row = rowPuts p2 ctx persisted objs row.
Proof.
  intros Hin. unfold rowPuts. rewrite !extractTermsForPlace_result, Hin.
  destruct (omap _ _); [|reflexivity].
  destruct (forallb _ _); reflexivity.
Qed.

Lemma transformPlaceRecords_parse_irrelevant (p1 p2 : string -> Js.parsedUrl)
  (ctx : context) (rows : list placeRow) :
  ctx.(inputHistoryByPlaceId) = ∅ ->
  transformPlaceRecords p1 ctx rows = transformPlaceRecords p2 ctx rows.
Proof.
  intros Hin. unfold transformPlaceRecords. f_equal.
  generalize (transformStart ctx).
  induction rows as [|row rows IH]; intros st; simpl; [reflexivity|].
  unfold transformPlaceRecords_row at 1 3.
  rewrite (rowPuts_parse_irrelevant p1 p2) by (rewrite Hin; apply lookup_empty).
  destruct (rowPuts p2 ctx _ _ row) as [[puts objs']|e]; simpl; [apply IH|reflexivity].
Qed.

(** The two loops of the completion callback of slurpBookmarks either
    throw or leave the context that [H] speaks of. *)
Ltac open_slurpBookmarks H :=
  unfold slurpBookmarks, slurpBookmarks_complete in H;
  destruct (Js.foldM (linkRoot _) _ _) as [[?hierarchy ?objs]|?e] eqn:?Hroots;
  simpl in H; [|discriminate];
  destruct (Js.foldM (linkChild _ _) _ _) as [[?tagsBy ?objs']|?e] eqn:?Hkids;
  simpl in H; [|discriminate];
  injection H as <-.

Lemma slurpBookmarks_inputHistory (ctx ctx' : context) (rows : list bookmarkRow) :
  slurpBookmarks ctx rows = Js.Ok ctx' ->
  ctx'.(inputHistoryByPlaceId) = ctx.(inputHistoryByPlaceId).
Proof. intros H. open_slurpBookmarks H. reflexivity. Qed.

Lemma kickoffConversions_parse_irrelevant (p1 p2 : string -> Js.parsedUrl)
  (db : snapshot) :
  db.(moz_inputhistory) = [] ->
  kickoffConversions p1 db = kickoffConversions p2 db.
Proof.
  intros Hin. unfold kickoffConversions.
  destruct (slurpAll db) as [ctx|e] eqn:Hctx; simpl; [|reflexivity].
  rewrite (transformPlaceRecords_parse_irrelevant p1 p2); [reflexivity|].
  unfold slurpAll in Hctx. apply slurpBookmarks_inputHistory in Hctx.
  rewrite Hctx, Hin. reflexivity.
Qed.

(** ** The name spaces the pipeline writes to *)

Lemma slurpBookmarks_visits (ctx ctx' : context) (rows : list bookmarkRow) :
  slurpBookmarks ctx rows = Js.Ok ctx' ->
  ctx'.(visitsByPlaceId) = ctx.(visitsByPlaceId).
Proof. intros H. open_slurpBookmarks H. reflexivity. Qed.

(** Whatever the tables hold, the context that reaches the place pass has
    no visit for any place. *)
Lemma slurpAll_keeps_no_visit (db : snapshot) (ctx : context) :
  slurpAll db = Js.Ok ctx -> ctx.(visitsByPlaceId) = ∅.
Proof.
  unfold slurpAll. intros H. apply slurpBookmarks_visits in H.
  rewrite H. reflexivity.
Qed.

Lemma inputPuts_namespaces url_parse (row : placeRow)
  (inputs : list (string * Js.jsval)) (entry : string * Js.jsval) :
  Forall (fun p => inNamespaces ["I"; "A"; "a"] p = true)
    (inputPuts url_parse row inputs entry).
Proof.
  destruct entry as [typedStr countObj]. unfold inputPuts.
  apply Forall_app. split.
  - repeat constructor; unfold inNamespaces; simpl; rewrite prefix_empty;
      reflexivity.
  - destruct (2 <=? String.length typedStr)%nat; [|constructor].
    destruct (Js.hasOwnProperty inputs _); [constructor|].
    repeat constructor. unfold inNamespaces. simpl. rewrite prefix_empty.
    reflexivity.
Qed.

(** Without visits, a place row puts records in the name spaces I, A and a
    only. *)
Lemma rowPuts_namespaces url_parse (ctx : context) (persisted : gset string)
  (objs objs' : list hierInfo) (row : placeRow) (puts : list put) :
  ctx.(visitsByPlaceId) = ∅ ->
  rowPuts url_parse ctx persisted objs row = Js.Ok (puts, objs') ->
  Forall (fun p => inNamespaces ["I"; "A"; "a"] p = true) puts.
Proof.
  intros Hvis. unfold rowPuts.
  rewrite extractTermsForPlace_result, Hvis, lookup_empty.
  destruct (omap _ _); [|discriminate].
  destruct (forallb _ _); [|discriminate].
  simpl. intros H. injection H as <- _.
  constructor.
  - unfold inNamespaces. simpl. rewrite prefix_empty. reflexivity.
  - apply Forall_flat_map. apply Forall_forall. intros entry _.
    apply inputPuts_namespaces.
Qed.

Lemma transformPlaceRecords_namespaces url_parse (ctx ctx' : context)
  (rows : list placeRow) (batches : list (list put)) :
  ctx.(visitsByPlaceId) = ∅ ->
  transformPlaceRecords url_parse ctx rows = Js.Ok (batches, ctx') ->
  Forall (Forall (fun p => inNamespaces ["I"; "A"; "a"] p = true)) batches.
Proof.
  intros Hvis. unfold transformPlaceRecords. intros H.
  destruct (Js.foldM _ _ rows) as [st|e] eqn:Hscan; simpl in H; [|discriminate].
  injection H as <- _.
  set (Good := Forall (fun p : put => inNamespaces ["I"; "A"; "a"] p = true)).
  assert (Hinv : Good st.(batch) /\ Forall Good st.(submitted)).
  { refine (foldM_invariant _
              (fun s => Good s.(batch) /\ Forall Good s.(submitted))
              _ _ _ _ Hscan _); [|split; constructor].
    intros s row s' _ Hstep [Hb Hs].
    unfold transformPlaceRecords_row in Hstep.
    destruct (rowPuts url_parse ctx _ _ row) as [[puts objs']|e] eqn:Hrow;
      simpl in Hstep; [|discriminate].
    injection Hstep as <-.
    assert (Hb' : Good (s.(batch) ++ puts)).
    { apply Forall_app. split; [exact Hb|].
      exact (rowPuts_namespaces _ _ _ _ _ _ _ Hvis Hrow). }
    unfold countRow. destruct (BATCH_LIMIT <=? s.(batchCount)); simpl.
    - split; [constructor|]. apply Forall_app. split; [exact Hs|].
      constructor; [exact Hb'|constructor].
    - split; [exact Hb'|exact Hs]. }
  destruct Hinv as [Hb Hs]. simpl.
  apply Forall_app. split; [exact Hs|]. constructor; [exact Hb|constructor].
Qed.

Lemma prefix_first (a c : ascii) (s k : string) :
  String.prefix (String a s) (String c k) = true -> a = c.
Proof. simpl. destruct (ascii_dec a c); [auto|discriminate]. Qed.

Lemma prefix_first_ne (a c : ascii) (s k : string) :
  a <> c -> String.prefix (String a s) (String c k) = false.
Proof. intros Hne. simpl. destruct (ascii_dec a c); [contradiction|reflexivity]. Qed.

Lemma other_namespace (tag : string) (p : put) :
  tag ∈ ["B"; "b"; "T"; "K"; "H"; "h"] ->
  inNamespaces ["I"; "A"; "a"] p = true ->
  String.prefix (tag +:+ Js.NUL) p.1 = false.
Proof.
  intros Htag Hp. destruct p as [[|c k] v]; [discriminate Hp|].
  unfold inNamespaces in Hp. cbn [existsb fst] in Hp.
  rewrite !orb_true_iff in Hp.
  rewrite !elem_of_cons, elem_of_nil in Htag.
  cbn [fst].
  destruct Hp as [Hp|[Hp|[Hp|Hp]]]; [| | |discriminate Hp];
    apply prefix_first in Hp; subst c;
    destruct Htag as [->|[->|[->|[->|[->|[->|[]]]]]]];
    apply prefix_first_ne; discriminate.
Qed.

Lemma keysIn_none (tag : string) (puts : list put) :
  Forall (fun p => String.prefix (tag +:+ Js.NUL) p.1 = false) puts ->
  keysIn tag puts = [].
Proof.
  induction 1 as [|p puts Hp _ IH]; [reflexivity|].
  unfold keysIn in *. cbn [map List.filter]. rewrite Hp. exact IH.
Qed.

(** On every snapshot the records that the pipeline submits lie in the
    name spaces I, A and a: none is a bookmark record (B, b, T, K) and none
    is a history record (H, h). *)
Lemma kickoffConversions_namespaces url_parse (db : snapshot)
  (batches : list (list put)) (tag : string) :
  kickoffConversions url_parse db = Js.Ok batches ->
  tag ∈ ["B"; "b"; "T"; "K"; "H"; "h"] ->
  keysIn tag (concat batches) = [].
Proof.
  unfold kickoffConversions. intros H Htag.
  destruct (slurpAll db) as [ctx|e] eqn:Hctx; simpl in H; [|discriminate].
  destruct (transformPlaceRecords url_parse ctx _) as [[bs ctx']|e] eqn:Hrun;
    simpl in H; [|discriminate].
  injection H as <-.
  apply transformPlaceRecords_namespaces in Hrun;
    [|exact (slurpAll_keeps_no_visit _ _ Hctx)].
  apply keysIn_none. apply Forall_concat.
  eapply Forall_impl; [exact Hrun|]. intros b Hb.
  eapply Forall_impl; [exact Hb|]. intros p Hp.
  exact (other_namespace tag p Htag Hp).
Qed.

(** ** Visits (C2) *)

(** No visit object survives slurpHistoryVisits. *)
Lemma slurpHistoryVisits_keeps_no_visit (ctx : context) (rows : list visitRow) :
  (slurpHistoryVisits ctx rows).(visitsByPlaceId) = ∅.
Proof. reflexivity. Qed.

(** C2: on the scenario of the specification the pipeline submits one batch
    that holds the site-metadata record and nothing else: no history-by-time
    and no history-by-site record.  The two visit objects are made, the
    second with the key of the first as its prevKey, and are stored in no
    map, so the place transform finds no visit for the place. *)
Theorem C2_scenario_writes_no_history_record :
  forall url_parse : string -> Js.parsedUrl,
    kickoffConversions url_parse Example.visitsDb = Js.Ok [ [ Example.infoRecord ] ]
    /\ (slurpHistoryVisits_scan Example.visitsDb.(moz_historyvisits)).(made)
       = [ Example.firstVisit; Example.secondVisit ]
    /\ (exists ctx, slurpAll Example.visitsDb = Js.Ok ctx
                    /\ ctx.(visitsByPlaceId) = ∅).
Proof.
  intros url_parse. split; [|split].
  - rewrite (kickoffConversions_parse_irrelevant url_parse Example.parse)
      by reflexivity.
    vm_compute. reflexivity.
  - vm_compute. reflexivity.
  - eexists. split; [vm_compute; reflexivity|]. reflexivity.
Qed.

(** ** Bookmarks in the pipeline (C1) *)

(** The row callback of slurpBookmarks stores nothing in
    [bookmarksByPlaceId]. *)
Lemma slurpBookmarks_scan_links_nothing (ctx : context) (rows : list bookmarkRow) :
  (slurpBookmarks_scan ctx rows).(scan_bookmarksByPlaceId) = ∅.
Proof.
  unfold slurpBookmarks_scan.
  set (st0 := {| flatBookmarks := []; bookmarksById := ∅;
                 scan_bookmarksByPlaceId := ∅ |}).
  assert (H0 : st0.(scan_bookmarksByPlaceId) = ∅) by reflexivity.
  revert H0. generalize st0. clear st0.
  induction rows as [|row rows IH]; intros st Hst; simpl; [exact Hst|].
  apply IH. simpl. rewrite Hst, lookup_empty. reflexivity.
Qed.

(** After slurpBookmarks no bookmark is linked to any place. *)
Lemma slurpBookmarks_links_nothing (ctx ctx' : context) (rows : list bookmarkRow) :
  slurpBookmarks ctx rows = Js.Ok ctx' ->
  ctx'.(bookmarksByPlaceId) = ∅.
Proof.
  intros H. open_slurpBookmarks H. simpl.
  apply slurpBookmarks_scan_links_nothing.
Qed.

(** C1: a menu folder holds bookmark 10 of the place.  The pipeline
    submits one batch with the site-metadata record alone: no 'B' and no
    'b' record.  writeBookmarks is no step of the promise chain; and were
    it run on the context the pipeline ends with, the record of bookmark 10
    would carry no url and no tags, because no bookmark was linked to the
    place when the place pass looked for them. *)
Theorem C1_pipeline_writes_no_bookmark_record :
  forall url_parse : string -> Js.parsedUrl,
    kickoffConversions url_parse Example.bookmarksDb
    = Js.Ok [ [ Example.infoRecord ] ]
    /\ keysIn "B" [ Example.infoRecord ] = []
    /\ keysIn "b" [ Example.infoRecord ] = []
    /\ exists ctx batches ctx',
         slurpAll Example.bookmarksDb = Js.Ok ctx
         /\ ctx.(bookmarksByPlaceId) = ∅
         /\ transformPlaceRecords url_parse ctx Example.bookmarksDb.(moz_places)
            = Js.Ok (batches, ctx')
         /\ (url <$> ctx'.(heap) !! 3%nat) = Some None
         /\ (tags <$> ctx'.(heap) !! 3%nat) = Some None
         /\ keysIn "b" (concat (writeBookmarks 3 ctx').1)
            = [ "b" +:+ Js.NUL +:+ "undefined" +:+ Js.NUL +:+ "2";
                "b" +:+ Js.NUL +:+ "undefined" +:+ Js.NUL +:+ "10" ].
Proof.
  intros url_parse. split; [|split; [|split]].
  - rewrite (kickoffConversions_parse_irrelevant url_parse Example.parse)
      by reflexivity.
    vm_compute. reflexivity.
  - reflexivity.
  - reflexivity.
  - destruct (slurpAll Example.bookmarksDb) as [ctx|e] eqn:Hctx;
      [|vm_compute in Hctx; discriminate].
    assert (Hin : ctx.(inputHistoryByPlaceId) = ∅).
    { unfold slurpAll in Hctx. apply slurpBookmarks_inputHistory in Hctx.
      rewrite Hctx. reflexivity. }
    exists ctx.
    rewrite (transformPlaceRecords_parse_irrelevant url_parse Example.parse _ _ Hin).
    unfold slurpAll in Hctx.
    pose proof (slurpBookmarks_links_nothing _ _ _ Hctx) as Hlinks.
    vm_compute in Hctx. injection Hctx as <-.
    eexists. eexists. split; [reflexivity|]. split; [reflexivity|].
    split; [vm_compute; reflexivity|].
    split; [reflexivity|]. split; reflexivity.
Qed.

(** ** Tags (C6) *)

(** What the callback records for a child of the Tags root: the title of
    the parent, under the place id of the child. *)
Lemma linkChild_records_parent_title (tagRoot : Z) (byId : gmap Z nat)
  (tagsBy tagsBy' : gmap (option Z) (list (option string)))
  (objs objs' : list hierInfo) (ref : nat) (child : hierInfo) :
  objs !! ref = Some child ->
  child.(parentId) = Some tagRoot ->
  linkChild (Some tagRoot) byId (tagsBy, objs) ref = Js.Ok (tagsBy', objs') ->
  exists (p : nat) (parentObj : hierInfo),
    byId !! tagRoot = Some p
    /\ objs !! p = Some parentObj
    /\ tagsBy' = <[child.(placeId) :=
                     default [] (tagsBy !! child.(placeId)) ++ [parentObj.(title)]]>
                   tagsBy
    /\ objs' = objs.
Proof.
  intros Href Hparent. unfold linkChild. rewrite Href, Hparent. simpl.
  rewrite Z.eqb_refl.
  destruct (byId !! tagRoot) as [p|] eqn:Hp; simpl; [|discriminate].
  destruct (objs !! p) as [parentObj|] eqn:Hobj; [|discriminate].
  intros H. injection H as <- <-. exists p, parentObj. auto.
Qed.

(** C6: bookmark 5 is a child of the Tags root, is titled "work" and is
    linked to place 7.  The tag recorded for place 7 is "tags", the title
    that the root-linking loop gave to the Tags root, and not the title of
    the bookmark. *)
Theorem C6_recorded_tag_is_title_of_tags_root :
  exists ctx : context,
    slurpAll Example.bookmarksDb = Js.Ok ctx
    /\ (title <$> ctx.(heap) !! 2%nat) = Some (Some "work")
    /\ (parentId <$> ctx.(heap) !! 2%nat) = Some (Js.objGet ctx.(bookmarkRoots) "tags")
    /\ (placeId <$> ctx.(heap) !! 2%nat) = Some (Some 7)
    /\ ctx.(tagsByPlaceId) !! Some 7 = Some [ Some "tags" ]
    /\ ctx.(tagsByPlaceId) !! Some 7 <> Some [ Some "work" ].
Proof.
  eexists. split; [vm_compute; reflexivity|].
  repeat split; try reflexivity. vm_compute. discriminate.
Qed.

(** ** Batches (C8) *)

Lemma countRow_below_limit (st : transformState) (batch' : list put)
  (persisted' : gset string) (objs' : list hierInfo) :
  st.(batchCount) < BATCH_LIMIT ->
  (countRow st batch' persisted' objs').(submitted) = st.(submitted)
  /\ (countRow st batch' persisted' objs').(batchCount) = st.(batchCount) + 1
  /\ (countRow st batch' persisted' objs').(batch) = batch'.
Proof.
  intros Hlt. unfold countRow.
  replace (BATCH_LIMIT <=? st.(batchCount)) with false
    by (symmetry; apply Z.leb_gt; exact Hlt).
  simpl. auto.
Qed.

(** As long as no more than 1000 rows were handled since the pending batch
    was begun, nothing is submitted: the test looks at the counter before
    the current row is counted. *)
Lemma scan_submits_nothing_within_limit url_parse (ctx : context)
  (rows : list placeRow) :
  forall st st' : transformState,
    Js.foldM (transformPlaceRecords_row url_parse ctx) st rows = Js.Ok st' ->
    st.(batchCount) + Z.of_nat (length rows) <= BATCH_LIMIT ->
    st'.(submitted) = st.(submitted)
    /\ st'.(batchCount) = st.(batchCount) + Z.of_nat (length rows).
Proof.
  induction rows as [|row rows IH]; intros st st' Hrun Hlen; simpl in Hrun.
  - injection Hrun as <-. simpl. split; [reflexivity|lia].
  - unfold transformPlaceRecords_row at 1 in Hrun.
    destruct (rowPuts url_parse ctx _ _ row) as [[puts objs']|e];
      simpl in Hrun; [|discriminate].
    simpl length in Hlen.
    destruct (countRow_below_limit st (st.(batch) ++ puts)
                ({[ Js.strOfNull row.(rev_host) ]}
                   ∪ st.(faviconPersistedForReverseHost)) objs')
      as (Hsub & Hcount & _); [lia|].
    apply IH in Hrun; [|rewrite Hcount; lia].
    rewrite Hsub, Hcount in Hrun. destruct Hrun as [-> ->].
    split; [reflexivity|simpl length; lia].
Qed.

(** The row that finds the counter at 1000 is the 1001st of its batch, and
    it is the one that submits. *)
Lemma countRow_at_limit (st : transformState) (batch' : list put)
  (persisted' : gset string) (objs' : list hierInfo) :
  st.(batchCount) = BATCH_LIMIT ->
  (countRow st batch' persisted' objs').(submitted) = st.(submitted) ++ [batch']
  /\ (countRow st batch' persisted' objs').(batchCount) = 0
  /\ (countRow st batch' persisted' objs').(batch) = [].
Proof.
  intros Heq. unfold countRow. rewrite Heq. simpl. auto.
Qed.

Lemma scan_submits_on_row_1001 url_parse (ctx : context)
  (rows : list placeRow) (row : placeRow) (st st' : transformState) :
  Js.foldM (transformPlaceRecords_row url_parse ctx) (transformStart ctx) rows
  = Js.Ok st ->
  length rows = 1000%nat ->
  transformPlaceRecords_row url_parse ctx st row = Js.Ok st' ->
  st.(submitted) = []
  /\ exists puts : list put,
       st'.(submitted) = [ st.(batch) ++ puts ]
       /\ st'.(batch) = [] /\ st'.(batchCount) = 0.
Proof.
  intros Hscan Hlen Hrow.
  destruct (scan_submits_nothing_within_limit _ _ _ _ _ Hscan) as [Hsub Hcount].
  { simpl. rewrite Hlen. unfold BATCH_LIMIT. lia. }
  simpl in Hsub, Hcount. rewrite Hlen in Hcount.
  split; [exact Hsub|].
  unfold transformPlaceRecords_row in Hrow.
  destruct (rowPuts url_parse ctx _ _ row) as [[puts objs']|e];
    simpl in Hrow; [|discriminate].
  injection Hrow as <-. exists puts.
  destruct (countRow_at_limit st (st.(batch) ++ puts)
              ({[ Js.strOfNull row.(rev_host) ]}
                 ∪ st.(faviconPersistedForReverseHost)) objs')
    as (H1 & H2 & H3); [unfold BATCH_LIMIT; lia|].
  rewrite H1, H2, H3, Hsub. auto.
Qed.

(** C8: each of the places below puts one record, so the size of a batch
    is the number of rows it holds.  A scan of exactly 1000 places submits
    nothing before the scan completes (one batch of 1000 rows in all); the
    first submission during a scan happens on the 1001st row and carries
    1001 rows; the batch submitted on completion holds what is left. *)
Theorem C8_batch_is_submitted_on_row_1001 :
  forall url_parse : string -> Js.parsedUrl,
    batchSizes (transformPlaceRecords url_parse emptyContext (Example.places 1000))
    = Some [ 1000%nat ]
    /\ batchSizes (transformPlaceRecords url_parse emptyContext (Example.places 1001))
       = Some [ 1001%nat; 0%nat ]
    /\ batchSizes (transformPlaceRecords url_parse emptyContext (Example.places 2003))
       = Some [ 1001%nat; 1001%nat; 1%nat ].
Proof.
  intros url_parse.
  rewrite !(transformPlaceRecords_parse_irrelevant url_parse Example.parse)
    by reflexivity.
  vm_compute. repeat split.
Qed.

(** ** Children of the Tags root stay out of the tree (C9) *)

Lemma parentOf_alter (f : hierInfo -> hierInfo) (objs : list hierInfo) (p ref : nat) :
  (forall h, (f h).(parentId) = h.(parentId)) ->
  parentOf (alter f p objs) ref = parentOf objs ref.
Proof.
  intros Hf. unfold parentOf.
  destruct (decide (p = ref)) as [->|Hne].
  - rewrite list_lookup_alter_eq. destruct (objs !! ref) as [h|]; simpl; [|reflexivity].
    rewrite Hf. reflexivity.
  - rewrite list_lookup_alter_ne by exact Hne. reflexivity.
Qed.

Lemma linkChild_keeps_kids_outside (TAG_ROOT_ID : option Z) (byId : gmap Z nat)
  (tagsBy tagsBy' : gmap (option Z) (list (option string)))
  (objs objs' : list hierInfo) (ref : nat) :
  linkChild TAG_ROOT_ID byId (tagsBy, objs) ref = Js.Ok (tagsBy', objs') ->
  kidsOutsideTags TAG_ROOT_ID objs ->
  kidsOutsideTags TAG_ROOT_ID objs'.
Proof.
  unfold linkChild. intros Hstep Hinv.
  destruct (objs !! ref) as [hierInfo|] eqn:Href; [|discriminate].
  destruct (Js.strictEqId hierInfo.(parentId) TAG_ROOT_ID) eqn:Htag.
  - destruct (_ ≫= _) as [parentObj|]; [|discriminate].
    injection Hstep as _ <-. exact Hinv.
  - destruct (hierInfo.(parentId) ≫= _) as [p|]; injection Hstep as _ <-;
      [|exact Hinv].
    intros j h r Hj Hr.
    rewrite parentOf_alter by reflexivity.
    destruct (decide (p = j)) as [->|Hne].
    + rewrite list_lookup_alter_eq in Hj.
      destruct (objs !! j) as [hp|] eqn:Hp; [|discriminate].
      injection Hj as <-. simpl in Hr.
      apply elem_of_app in Hr as [Hr|Hr].
      * exact (Hinv j hp r Hp Hr).
      * apply list_elem_of_singleton in Hr as ->.
        exists hierInfo.(parentId). unfold parentOf. rewrite Href. auto.
    + rewrite list_lookup_alter_ne in Hj by exact Hne.
      exact (Hinv j h r Hj Hr).
Qed.

Lemma linkChild_fold_keeps_kids_outside (TAG_ROOT_ID : option Z)
  (byId : gmap Z nat) (refs : list nat)
  (st st' : gmap (option Z) (list (option string)) * list hierInfo) :
  Js.foldM (linkChild TAG_ROOT_ID byId) st refs = Js.Ok st' ->
  kidsOutsideTags TAG_ROOT_ID st.2 ->
  kidsOutsideTags TAG_ROOT_ID st'.2.
Proof.
  apply (foldM_invariant (linkChild TAG_ROOT_ID byId)
           (fun s => kidsOutsideTags TAG_ROOT_ID s.2)).
  intros [tagsBy objs] ref [tagsBy' objs'] _ Hstep. simpl.
  exact (linkChild_keeps_kids_outside _ _ _ _ _ _ _ Hstep).
Qed.

(** The objects have no kids when the children are about to be linked. *)
Lemma slurpBookmarks_scan_no_kids (ctx : context) (rows : list bookmarkRow) :
  Forall (fun h => h.(kids) = None) (slurpBookmarks_scan ctx rows).(flatBookmarks).
Proof.
  unfold slurpBookmarks_scan.
  set (st0 := {| flatBookmarks := []; bookmarksById := ∅;
                 scan_bookmarksByPlaceId := ∅ |}).
  assert (H0 : Forall (fun h => h.(kids) = None) st0.(flatBookmarks))
    by constructor.
  revert H0. generalize st0. clear st0.
  induction rows as [|row rows IH]; intros st Hst; simpl; [exact Hst|].
  apply IH. simpl. apply Forall_app. split; [exact Hst|].
  constructor; [reflexivity|constructor].
Qed.

Lemma linkRoot_fold_no_kids (byId : gmap Z nat) (roots : list (string * Z))
  (st st' : list (string * nat) * list hierInfo) :
  Js.foldM (linkRoot byId) st roots = Js.Ok st' ->
  Forall (fun h => h.(kids) = None) st.2 ->
  Forall (fun h => h.(kids) = None) st'.2.
Proof.
  apply (foldM_invariant (linkRoot byId)
           (fun s => Forall (fun h => h.(kids) = None) s.2)).
  intros [hierarchy objs] [rootName rootId] [hierarchy' objs'] _ Hstep Hinv.
  simpl in *. destruct (byId !! rootId) as [rootBookmark|]; [|discriminate].
  injection Hstep as _ <-.
  apply Forall_alter; [exact Hinv|]. intros h _ Hh. exact Hh.
Qed.

Lemma no_kids_outside (TAG_ROOT_ID : option Z) (objs : list hierInfo) :
  Forall (fun h => h.(kids) = None) objs ->
  kidsOutsideTags TAG_ROOT_ID objs.
Proof.
  intros Hall j h r Hj Hr.
  rewrite Forall_lookup in Hall. rewrite (Hall j h Hj) in Hr.
  simpl in Hr. apply elem_of_nil in Hr. contradiction.
Qed.

(** The tree that slurpBookmarks leaves. *)
Lemma slurpBookmarks_kids_outside (ctx ctx' : context) (rows : list bookmarkRow) :
  slurpBookmarks ctx rows = Js.Ok ctx' ->
  kidsOutsideTags (Js.objGet ctx.(bookmarkRoots) "tags") ctx'.(heap).
Proof.
  intros H. open_slurpBookmarks H. simpl.
  apply (linkChild_fold_keeps_kids_outside _ _ _ _ _ Hkids). simpl.
  apply no_kids_outside.
  apply (linkRoot_fold_no_kids _ _ _ _ Hroots). simpl.
  apply slurpBookmarks_scan_no_kids.
Qed.

Lemma putsOfCalls_app (objs : list hierInfo) (c1 c2 : list (Z * nat)) :
  putsOfCalls objs (c1 ++ c2) = putsOfCalls objs c1 ++ putsOfCalls objs c2.
Proof. unfold putsOfCalls. apply flat_map_app. Qed.

(** The puts of a traversal are the puts of its calls. *)
Lemma traverseBookmark_calls (objs : list hierInfo) :
  forall (fuel : nat) (depth : Z) (ref : nat),
    traverseBookmark fuel objs depth ref
    = rmap (putsOfCalls objs) (traverseCalls fuel objs depth ref).
Proof.
  induction fuel as [|fuel IH]; intros depth ref; simpl; [reflexivity|].
  destruct (objs !! ref) as [bookmark|] eqn:Href; [|reflexivity].
  assert (Hstart : bookmarkPuts depth bookmark = putsOfCalls objs [(depth, ref)]).
  { unfold putsOfCalls. simpl. rewrite Href, app_nil_r. reflexivity. }
  revert Hstart.
  generalize (bookmarkPuts depth bookmark) as acc.
  generalize [(depth, ref)] as calls.
  induction (default [] bookmark.(kids)) as [|kid l IHl]; intros calls acc ->; simpl;
    [reflexivity|].
  rewrite IH.
  destruct (traverseCalls fuel objs (depth + 1) kid) as [c|e]; simpl; [|reflexivity].
  apply IHl. rewrite putsOfCalls_app. reflexivity.
Qed.

Lemma writeBookmarks_batch_calls (fuel : nat) (ctx : context) :
  writeBookmarks_batch fuel ctx
  = rmap (putsOfCalls ctx.(heap)) (writeBookmarks_calls fuel ctx).
Proof.
  unfold writeBookmarks_batch, writeBookmarks_calls.
  assert (Hstart : @nil put = putsOfCalls ctx.(heap) []) by reflexivity.
  revert Hstart.
  generalize (@nil put) as acc. generalize (@nil (Z * nat)) as calls.
  induction ctx.(bookmarkHierarchy) as [|[rootName rootBookmark] l IHl];
    intros calls acc ->; simpl; [reflexivity|].
  destruct (String.eqb rootName "tags"); simpl; [apply IHl; reflexivity|].
  rewrite traverseBookmark_calls.
  destruct (traverseCalls fuel ctx.(heap) 0 rootBookmark) as [c|e]; simpl;
    [|reflexivity].
  apply IHl. rewrite putsOfCalls_app. reflexivity.
Qed.

(** A traversal calls traverseBookmark on the object it starts from and on
    kids of objects, and on nothing else. *)
Lemma traverseCalls_reached (objs : list hierInfo) :
  forall (fuel : nat) (depth : Z) (ref : nat) (calls : list (Z * nat)),
    traverseCalls fuel objs depth ref = Js.Ok calls ->
    Forall (fun c => reachedFrom objs (fun r => r = ref) c.2) calls.
Proof.
  induction fuel as [|fuel IH]; intros depth ref calls Hrun; simpl in Hrun;
    [discriminate|].
  destruct (objs !! ref) as [bookmark|] eqn:Href; [|discriminate].
  refine (foldM_invariant _
            (fun cs => Forall (fun c => reachedFrom objs (fun r => r = ref) c.2) cs)
            _ _ _ _ Hrun _).
  - intros cs kid cs' Hkid Hstep Hcs.
    destruct (traverseCalls fuel objs (depth + 1) kid) as [l|e] eqn:Hl;
      simpl in Hstep; [|discriminate].
    injection Hstep as <-. apply Forall_app. split; [exact Hcs|].
    apply IH in Hl. eapply Forall_impl; [exact Hl|].
    intros [d r] [->|Hr]; right; [|exact Hr].
    exists ref, bookmark. auto.
  - constructor; [|constructor]. left. reflexivity.
Qed.

Lemma writeBookmarks_calls_reached (fuel : nat) (ctx : context)
  (calls : list (Z * nat)) :
  writeBookmarks_calls fuel ctx = Js.Ok calls ->
  Forall (fun c => reachedFrom ctx.(heap)
                     (fun r => isTraversalRoot ctx.(bookmarkHierarchy) r = true) c.2)
    calls.
Proof.
  unfold writeBookmarks_calls. intros Hrun.
  refine (foldM_invariant _
            (fun cs => Forall (fun c => reachedFrom ctx.(heap)
                         (fun r => isTraversalRoot ctx.(bookmarkHierarchy) r = true) c.2)
                         cs) _ _ _ _ Hrun _); [|constructor].
  intros cs [rootName rootBookmark] cs' Hin Hstep Hcs.
  destruct (String.eqb rootName "tags") eqn:Hname.
  - injection Hstep as <-. exact Hcs.
  - destruct (traverseCalls fuel ctx.(heap) 0 rootBookmark) as [l|e] eqn:Hl;
      simpl in Hstep; [|discriminate].
    injection Hstep as <-. apply Forall_app. split; [exact Hcs|].
    apply traverseCalls_reached in Hl. eapply Forall_impl; [exact Hl|].
    intros [d r] [->|Hr]; [left|right; exact Hr].
    unfold isTraversalRoot. apply existsb_exists.
    exists (rootName, rootBookmark). split; [apply list_elem_of_In; exact Hin|].
    rewrite Hname, Nat.eqb_refl. reflexivity.
Qed.

(** In the data model of the specification a root folder has no parent;
    then no child of the Tags root is a root of the traversal. *)
Lemma parentless_roots_are_no_tag_children (hierarchy : list (string * nat))
  (objs : list hierInfo) (ref : nat) (bookmark : hierInfo) (tagRoot : Z) :
  (forall (rootName : string) (r : nat) (h : hierInfo),
      (rootName, r) ∈ hierarchy -> objs !! r = Some h -> h.(parentId) = None) ->
  objs !! ref = Some bookmark ->
  bookmark.(parentId) = Some tagRoot ->
  isTraversalRoot hierarchy ref = false.
Proof.
  intros Hroots Href Hparent. unfold isTraversalRoot.
  destruct (existsb _ hierarchy) eqn:Hex; [|reflexivity].
  apply existsb_exists in Hex as ([rootName r] & Hin & Hr).
  apply andb_true_iff in Hr as [_ Hr]. apply Nat.eqb_eq in Hr. subst r.
  apply list_elem_of_In in Hin.
  rewrite (Hroots rootName ref bookmark Hin Href) in Hparent. discriminate.
Qed.

(** C9: let a bookmark have the Tags root as its parent (a tag is then
    recorded for its place), and let it not be itself one of the roots that
    writeBookmarks starts from.  In the tree that slurpBookmarks leaves, its
    object is among the kids of no object; and in every run of the traversal
    of writeBookmarks the batch is made of the puts of the calls of
    traverseBookmark, none of which is a call on that object: no 'B' record
    is put for it. *)
Theorem C9_tag_bookmark_is_no_structural_child :
  forall (ctx ctx' : context) (rows : list bookmarkRow)
         (ref : nat) (bookmark : hierInfo),
    slurpBookmarks ctx rows = Js.Ok ctx' ->
    ctx'.(heap) !! ref = Some bookmark ->
    Js.strictEqId bookmark.(parentId) (Js.objGet ctx.(bookmarkRoots) "tags") = true ->
    isTraversalRoot ctx'.(bookmarkHierarchy) ref = false ->
    (forall (j : nat) (parentObj : hierInfo),
        ctx'.(heap) !! j = Some parentObj ->
        ref ∉ default [] parentObj.(kids))
    /\ (forall (fuel : nat) (batch : list put),
          writeBookmarks_batch fuel ctx' = Js.Ok batch ->
          exists calls : list (Z * nat),
            writeBookmarks_calls fuel ctx' = Js.Ok calls
            /\ batch = putsOfCalls ctx'.(heap) calls
            /\ ref ∉ map snd calls).
Proof.
  intros ctx ctx' rows ref bookmark Hslurp Href Htag Hroot.
  pose proof (slurpBookmarks_kids_outside _ _ _ Hslurp) as Hinv.
  assert (Hkid : forall (j : nat) (parentObj : hierInfo),
             ctx'.(heap) !! j = Some parentObj ->
             ref ∉ default [] parentObj.(kids)).
  { intros j parentObj Hj Hin.
    destruct (Hinv j parentObj ref Hj Hin) as (q & Hq & Hne).
    unfold parentOf in Hq. rewrite Href in Hq. injection Hq as <-.
    rewrite Htag in Hne. discriminate. }
  split; [exact Hkid|].
  intros fuel batch Hbatch.
  rewrite writeBookmarks_batch_calls in Hbatch.
  destruct (writeBookmarks_calls fuel ctx') as [calls|e] eqn:Hcalls;
    simpl in Hbatch; [|discriminate].
  injection Hbatch as <-.
  exists calls. split; [reflexivity|]. split; [reflexivity|].
  intros Hin. apply list_elem_of_fmap in Hin as ([d r] & Hr & Hin).
  simpl in Hr. subst r.
  apply writeBookmarks_calls_reached in Hcalls.
  rewrite Forall_forall in Hcalls. specialize (Hcalls _ Hin).
  destruct Hcalls as [Hstart|(j & h & Hj & Hr)]; simpl in *.
  - rewrite Hroot in Hstart. discriminate.
  - exact (Hkid j h Hj Hr).
Qed.

(** C9 on the example: the child "work" of the Tags root, object 2. *)
Lemma C9_tag_bookmark_witness :
  slurpBookmarks Example.rootsContext Example.bookmarksDb.(moz_bookmarks)
  = Js.Ok Example.treeContext
  /\ Example.treeContext.(heap) !! 2%nat = Some Example.workFolder
  /\ Js.strictEqId Example.workFolder.(parentId)
       (Js.objGet Example.rootsContext.(bookmarkRoots) "tags") = true
  /\ isTraversalRoot Example.treeContext.(bookmarkHierarchy) 2%nat = false
  /\ (forall (j : nat) (parentObj : hierInfo),
         Example.treeContext.(heap) !! j = Some parentObj ->
         2%nat ∉ default [] parentObj.(kids))
  /\ (forall (fuel : nat) (batch : list put),
         writeBookmarks_batch fuel Example.treeContext = Js.Ok batch ->
         exists calls : list (Z * nat),
           writeBookmarks_calls fuel Example.treeContext = Js.Ok calls
           /\ batch = putsOfCalls Example.treeContext.(heap) calls
           /\ 2%nat ∉ map snd calls).
Proof.
  assert (H1 : slurpBookmarks Example.rootsContext Example.bookmarksDb.(moz_bookmarks)
               = Js.Ok Example.treeContext) by (vm_compute; reflexivity).
  assert (H2 : Example.treeContext.(heap) !! 2%nat = Some Example.workFolder)
    by (vm_compute; reflexivity).
  assert (H3 : Js.strictEqId Example.workFolder.(parentId)
                 (Js.objGet Example.rootsContext.(bookmarkRoots) "tags") = true)
    by (vm_compute; reflexivity).
  assert (H4 : isTraversalRoot Example.treeContext.(bookmarkHierarchy) 2%nat = false)
    by (vm_compute; reflexivity).
  split; [exact H1|]. split; [exact H2|]. split; [exact H3|]. split; [exact H4|].
  exact (C9_tag_bookmark_is_no_structural_child
           Example.rootsContext Example.treeContext
           Example.bookmarksDb.(moz_bookmarks) 2%nat Example.workFolder
           H1 H2 H3 H4).
Defined.

(** C9, as stated, fails for a bookmark under the Tags root that is itself
    the folder of another root.  With the roots "tags" of folder 4 and
    "menu" of folder 5, and bookmark 5 of place 7 under folder 4, the tag is
    recorded for place 7, and writeBookmarks, which starts from the folder
    of every root but "tags", calls traverseBookmark on bookmark 5 at depth
    0 and puts the 'B' record of depth 0, parent 4 and id 5. *)
Lemma C9_root_under_tags_gets_a_B_record :
  slurpBookmarks Example2.rootUnderTagsContext Example2.rootUnderTagsRows
  = Js.Ok Example2.rootUnderTagsTree
  /\ (exists bookmark : hierInfo,
        Example2.rootUnderTagsTree.(heap) !! 1%nat = Some bookmark
        /\ bookmark.(id) = 5
        /\ Js.strictEqId bookmark.(parentId)
             (Js.objGet Example2.rootUnderTagsContext.(bookmarkRoots) "tags") = true)
  /\ Example2.rootUnderTagsTree.(tagsByPlaceId) !! Some 7 = Some [Some "tags"]
  /\ writeBookmarks_calls 2 Example2.rootUnderTagsTree = Js.Ok [(0, 1%nat)]
  /\ (exists batch : list put,
        writeBookmarks_batch 2 Example2.rootUnderTagsTree = Js.Ok batch
        /\ keysIn "B" batch
           = [ "B" +:+ Js.NUL +:+ "0" +:+ Js.NUL +:+ "4" +:+ Js.NUL +:+ "5" ])
  /\ ~ (forall (ctx ctx' : context) (rows : list bookmarkRow)
               (ref : nat) (bookmark : hierInfo),
          slurpBookmarks ctx rows = Js.Ok ctx' ->
          ctx'.(heap) !! ref = Some bookmark ->
          Js.strictEqId bookmark.(parentId) (Js.objGet ctx.(bookmarkRoots) "tags")
          = true ->
          (forall (j : nat) (parentObj : hierInfo),
              ctx'.(heap) !! j = Some parentObj ->
              ref ∉ default [] parentObj.(kids))
          /\ (forall (fuel : nat) (batch : list put),
                writeBookmarks_batch fuel ctx' = Js.Ok batch ->
                exists calls : list (Z * nat),
                  writeBookmarks_calls fuel ctx' = Js.Ok calls
                  /\ batch = putsOfCalls ctx'.(heap) calls
                  /\ ref ∉ map snd calls)).
Proof.
  assert (Hslurp : slurpBookmarks Example2.rootUnderTagsContext
                     Example2.rootUnderTagsRows
                   = Js.Ok Example2.rootUnderTagsTree) by (vm_compute; reflexivity).
  assert (Hcalls : writeBookmarks_calls 2 Example2.rootUnderTagsTree
                   = Js.Ok [(0, 1%nat)]) by (vm_compute; reflexivity).
  split; [exact Hslurp|].
  split; [eexists; split; [vm_compute; reflexivity|split; reflexivity]|].
  split; [vm_compute; reflexivity|].
  split; [exact Hcalls|].
  split; [eexists; split; vm_compute; reflexivity|].
  intros Hclaim.
  destruct (Hclaim Example2.rootUnderTagsContext Example2.rootUnderTagsTree
              Example2.rootUnderTagsRows 1%nat
              (set_title (makeHierInfo Example2.rootUnderTagsContext
                            (Example.bookmark 5 (Some 7) (Some 4) "work"))
                 (Some "menu"))
              Hslurp ltac:(vm_compute; reflexivity) ltac:(vm_compute; reflexivity))
    as [_ Htraversal].
  destruct (writeBookmarks_batch 2 Example2.rootUnderTagsTree) as [batch|e] eqn:Hbatch;
    [|vm_compute in Hbatch; discriminate].
  destruct (Htraversal 2%nat batch Hbatch) as (calls & Hc & _ & Hnot).
  rewrite Hcalls in Hc. injection Hc as <-.
  apply Hnot. apply list_elem_of_here.
Qed.

(** * Further properties of the converter *)

#[local] Set Warnings "-clear-no-such-hyp".

(** ** Tables read into maps keyed by an id *)

Lemma find_app_first {A : Type} (p : A -> bool) (l1 l2 : list A) :
  find p (l1 ++ l2)
  = match find p l1 with
    | Some x => Some x
    | None => find p l2
    end.
Proof.
  induction l1 as [|x l1 IH]; simpl; [reflexivity|].
  destruct (p x); [reflexivity|exact IH].
Qed.

(** A scan that stores each row under its id leaves, under every id, what
    the last row with this id holds. *)
Lemma fold_insert_lookup {R V : Type} (kf : R -> Z) (vf : R -> V) (rows : list R) :
  forall (m0 : gmap Z V) (k : Z),
    fold_left (fun m row => <[kf row := vf row]> m) rows m0 !! k
    = match find (fun row => kf row =? k) (rev rows) with
      | Some row => Some (vf row)
      | None => m0 !! k
      end.
Proof.
  induction rows as [|row rows IH]; intros m0 k; simpl; [reflexivity|].
  rewrite IH, find_app_first.
  destruct (find _ (rev rows)); [reflexivity|]. simpl.
  destruct (kf row =? k) eqn:Hk.
  - apply Z.eqb_eq in Hk. subst k. apply lookup_insert_eq.
  - apply Z.eqb_neq in Hk. apply lookup_insert_ne. exact Hk.
Qed.

(** X1: slurpKeywords, slurpFavicons and slurpAnnotationAttribs each leave a
    map that holds, under every id, the value of the last row of the table
    with this id, and nothing under an id that no row has. *)
Theorem X1_id_maps_hold_the_last_row :
  forall (ctx : context) (keywords : list keywordRow) (favicons : list faviconRow)
         (attribs : list annoAttribRow) (k : Z),
    (slurpKeywords ctx keywords).(keywordsById) !! k
    = kw_name <$> find (fun row => row.(kw_id) =? k) (rev keywords)
    /\ (slurpFavicons ctx favicons).(faviconsById) !! k
       = fav_value <$> find (fun row => row.(fav_id) =? k) (rev favicons)
    /\ (slurpAnnotationAttribs ctx attribs).(annoAttribsById) !! k
       = attr_name <$> find (fun row => row.(attr_id) =? k) (rev attribs).
Proof.
  intros ctx keywords favicons attribs k.
  unfold slurpKeywords, slurpFavicons, slurpAnnotationAttribs. simpl.
  rewrite !fold_insert_lookup, !lookup_empty.
  repeat split; destruct (find _ _); reflexivity.
Qed.

(** ** Objects used as dictionaries *)

Lemma objGet_objSet {V : Type} (o : list (string * V)) (k k' : string) (v : V) :
  Js.objGet (Js.objSet o k v) k'
  = if String.eqb k k' then Some v else Js.objGet o k'.
Proof.
  induction o as [|[k0 v0] o IH]; simpl.
  - reflexivity.
  - destruct (String.eqb k0 k) eqn:Hk0; simpl.
    + apply String.eqb_eq in Hk0. subst k0. destruct (String.eqb k k'); reflexivity.
    + rewrite IH. destruct (String.eqb k k') eqn:Hk; [|reflexivity].
      apply String.eqb_eq in Hk. subst k'. rewrite Hk0. reflexivity.
Qed.

Lemma objSet_keys {V : Type} (o : list (string * V)) (k : string) (v : V) :
  map fst (Js.objSet o k v)
  = if Js.hasOwnProperty o k then map fst o else map fst o ++ [k].
Proof.
  unfold Js.hasOwnProperty.
  induction o as [|[k0 v0] o IH]; simpl; [reflexivity|].
  destruct (String.eqb k0 k) eqn:Hk0; simpl.
  - apply String.eqb_eq in Hk0. subst k0. reflexivity.
  - rewrite IH. destruct (Js.objGet o k); reflexivity.
Qed.

Lemma objGet_None_keys {V : Type} (o : list (string * V)) (k : string) :
  Js.objGet o k = None <-> k ∉ map fst o.
Proof.
  induction o as [|[k0 v0] o IH]; simpl.
  - split; [intros _; apply not_elem_of_nil|reflexivity].
  - rewrite not_elem_of_cons. destruct (String.eqb k0 k) eqn:Hk0.
    + apply String.eqb_eq in Hk0. subst k0. split; [discriminate|].
      intros [Hne _]. contradiction.
    + apply String.eqb_neq in Hk0. rewrite IH. split; [auto|tauto].
Qed.

Lemma objSet_NoDup {V : Type} (o : list (string * V)) (k : string) (v : V) :
  NoDup (map fst o) -> NoDup (map fst (Js.objSet o k v)).
Proof.
  intros Hnd. rewrite objSet_keys. unfold Js.hasOwnProperty.
  destruct (Js.objGet o k) eqn:Hk; [exact Hnd|].
  apply objGet_None_keys in Hk.
  apply NoDup_app. split; [exact Hnd|]. split.
  - intros x Hx Hin. apply list_elem_of_singleton in Hin. subst x. contradiction.
  - apply NoDup_singleton.
Qed.

Lemma fold_objSet_lookup {R V : Type} (kf : R -> string) (vf : R -> V)
  (rows : list R) :
  forall (o0 : list (string * V)) (k : string),
    Js.objGet (fold_left (fun o row => Js.objSet o (kf row) (vf row)) rows o0) k
    = match find (fun row => String.eqb (kf row) k) (rev rows) with
      | Some row => Some (vf row)
      | None => Js.objGet o0 k
      end.
Proof.
  induction rows as [|row rows IH]; intros o0 k; simpl; [reflexivity|].
  rewrite IH, find_app_first.
  destruct (find _ (rev rows)); [reflexivity|]. simpl.
  rewrite objGet_objSet. destruct (String.eqb (kf row) k); reflexivity.
Qed.

Lemma fold_objSet_NoDup {R V : Type} (kf : R -> string) (vf : R -> V)
  (rows : list R) :
  forall o0 : list (string * V),
    NoDup (map fst o0) ->
    NoDup (map fst (fold_left (fun o row => Js.objSet o (kf row) (vf row)) rows o0)).
Proof.
  induction rows as [|row rows IH]; intros o0 Hnd; simpl; [exact Hnd|].
  apply IH. apply objSet_NoDup. exact Hnd.
Qed.

(** X2: when no row of the roots table is named [__proto__], the roots
    object that slurpBookmarkRoots leaves has, as its own properties, every
    root name bound to the folder id of the last row with this name, and no
    other name; and it has each name once (so the for-in loops over it meet
    every root once).  (A row named [__proto__] would leave no property:
    the assignment of a number to this name does nothing.) *)
Theorem X2_bookmark_roots_bind_each_name_once :
  forall (ctx : context) (rows : list rootRow) (name : string),
    Forall (fun row => row.(root_name) <> "__proto__") rows ->
    Js.objGet (slurpBookmarkRoots ctx rows).(bookmarkRoots) name
    = folder_id <$> find (fun row => String.eqb row.(root_name) name) (rev rows)
    /\ NoDup (map fst (slurpBookmarkRoots ctx rows).(bookmarkRoots)).
Proof.
  intros ctx rows name _. unfold slurpBookmarkRoots. simpl. split.
  - rewrite fold_objSet_lookup. destruct (find _ _); reflexivity.
  - apply fold_objSet_NoDup. apply NoDup_nil_2.
Qed.

(** X2 on the roots of the example, for the root "menu" of folder 2. *)
Lemma X2_bookmark_roots_witness :
  Forall (fun row => row.(root_name) <> "__proto__")
    Example.bookmarksDb.(moz_bookmarks_roots)
  /\ Js.objGet
       (slurpBookmarkRoots emptyContext Example.bookmarksDb.(moz_bookmarks_roots))
         .(bookmarkRoots) "menu" = Some 2
  /\ NoDup (map fst
              (slurpBookmarkRoots emptyContext
                 Example.bookmarksDb.(moz_bookmarks_roots)).(bookmarkRoots)).
Proof.
  assert (H : Forall (fun row => row.(root_name) <> "__proto__")
                Example.bookmarksDb.(moz_bookmarks_roots)).
  { repeat constructor; discriminate. }
  split; [exact H|].
  exact (X2_bookmark_roots_bind_each_name_once emptyContext
           Example.bookmarksDb.(moz_bookmarks_roots) "menu" H).
Defined.

(** ** Tables read into maps of dictionaries *)

Lemma fold_left_ext {A B : Type} (f g : A -> B -> A) (l : list B) :
  (forall a b, f a b = g a b) ->
  forall a, fold_left f l a = fold_left g l a.
Proof.
  intros Hfg. induction l as [|b l IH]; intros a; simpl; [reflexivity|].
  rewrite Hfg. apply IH.
Qed.

(** A scan that files each row, by name, in the dictionary of its owner. *)
Lemma fold_group_lookup {R V : Type} (pk : R -> Z) (nk : R -> string)
  (vf : R -> V) (rows : list R) :
  forall (m0 : gmap Z (list (string * V))) (p : Z) (n : string),
    (fold_left
       (fun m row =>
          <[pk row := Js.objSet (default [] (m !! pk row)) (nk row) (vf row)]> m)
       rows m0 !! p) ≫= (fun o => Js.objGet o n)
    = match find (fun row => (pk row =? p) && String.eqb (nk row) n) (rev rows) with
      | Some row => Some (vf row)
      | None => (m0 !! p) ≫= (fun o => Js.objGet o n)
      end.
Proof.
  induction rows as [|row rows IH]; intros m0 p n; simpl; [reflexivity|].
  rewrite IH, find_app_first.
  destruct (find _ (rev rows)); [reflexivity|]. simpl.
  destruct (pk row =? p) eqn:Hp; simpl.
  - apply Z.eqb_eq in Hp. subst p. rewrite lookup_insert_eq. simpl.
    rewrite objGet_objSet.
    destruct (String.eqb (nk row) n); [reflexivity|].
    destruct (m0 !! pk row); reflexivity.
  - apply Z.eqb_neq in Hp. rewrite lookup_insert_ne by exact Hp. reflexivity.
Qed.

Lemma fold_group_dom {R V : Type} (pk : R -> Z) (nk : R -> string)
  (vf : R -> V) (rows : list R) :
  forall (m0 : gmap Z (list (string * V))) (p : Z),
    is_Some
      (fold_left
         (fun m row =>
            <[pk row := Js.objSet (default [] (m !! pk row)) (nk row) (vf row)]> m)
         rows m0 !! p)
    <-> is_Some (m0 !! p) \/ exists row, row ∈ rows /\ pk row = p.
Proof.
  induction rows as [|row rows IH]; intros m0 p; simpl.
  - split; [auto|]. intros [H|(row & Hin & _)]; [exact H|].
    apply elem_of_nil in Hin. contradiction.
  - rewrite IH. split.
    + intros [H|(r & Hin & Hr)].
      * destruct (decide (pk row = p)) as [Heq|Hne].
        -- right. exists row. split; [apply list_elem_of_here|exact Heq].
        -- rewrite lookup_insert_ne in H by exact Hne. left. exact H.
      * right. exists r. split; [apply list_elem_of_further; exact Hin|exact Hr].
    + intros [H|(r & Hin & Hr)].
      * left. destruct (decide (pk row = p)) as [<-|Hne].
        -- rewrite lookup_insert_eq. eauto.
        -- rewrite lookup_insert_ne by exact Hne. exact H.
      * apply elem_of_cons in Hin as [->|Hin].
        -- left. subst p. rewrite lookup_insert_eq. eauto.
        -- right. exists r. auto.
Qed.

Lemma slurpAnnotations_row_files (ctx : context)
  (byPlace : gmap Z (list (string * annoValue))) (row : annoRow) :
  slurpAnnotations_row ctx byPlace row
  = <[row.(owner_id) :=
        Js.objSet (default [] (byPlace !! row.(owner_id))) (annoName ctx row)
          row.(anno_value)]> byPlace.
Proof.
  unfold slurpAnnotations_row.
  destruct (byPlace !! row.(owner_id)); simpl; [reflexivity|].
  apply insert_insert_eq.
Qed.

(** X3: slurpAnnotations groups the annotations by place.  When no row
    has an annotation name [__proto__], a place has an annotation object
    exactly when some row annotates it, and the object has, as its own
    property under every annotation name, the columns of the last row of
    this place with this name.  (Under the name [__proto__] the assignment
    would set the prototype of the object and make no property.) *)
Theorem X3_place_annotations_are_grouped_by_place :
  forall (ctx : context) (rows : list annoRow) (p : Z) (n : string),
    Forall (fun row => annoName ctx row <> "__proto__") rows ->
    ((slurpAnnotations ctx rows).(annotationsByPlaceId) !! p)
      ≫= (fun annos => Js.objGet annos n)
    = anno_value
        <$> find (fun row => (row.(owner_id) =? p) && String.eqb (annoName ctx row) n)
              (rev rows)
    /\ (is_Some ((slurpAnnotations ctx rows).(annotationsByPlaceId) !! p)
        <-> exists row, row ∈ rows /\ row.(owner_id) = p).
Proof.
  intros ctx rows p n _. unfold slurpAnnotations. simpl.
  rewrite (fold_left_ext _ _ rows (slurpAnnotations_row_files ctx)).
  split.
  - rewrite fold_group_lookup, lookup_empty. destruct (find _ _); reflexivity.
  - rewrite fold_group_dom, lookup_empty. split; [|auto].
    intros [H|H]; [destruct H; discriminate|exact H].
Qed.

(** X3 on the annotation of place 5 of the example. *)
Lemma X3_place_annotations_witness :
  Forall (fun row => annoName (slurpAnnotationAttribs emptyContext Example.annoAttribs)
                       row <> "__proto__") [ Example.placeAnnoRow ]
  /\ (Example.annotatedContext.(annotationsByPlaceId) !! 5)
       ≫= (fun annos => Js.objGet annos "places/description")
     = Some (Example.anno "of place 5")
  /\ (is_Some (Example.annotatedContext.(annotationsByPlaceId) !! 5)
      <-> exists row, row ∈ [ Example.placeAnnoRow ] /\ row.(owner_id) = 5).
Proof.
  assert (H : Forall (fun row => annoName
                                   (slurpAnnotationAttribs emptyContext
                                      Example.annoAttribs) row <> "__proto__")
                [ Example.placeAnnoRow ]).
  { repeat constructor. vm_compute. discriminate. }
  split; [exact H|].
  exact (X3_place_annotations_are_grouped_by_place
           (slurpAnnotationAttribs emptyContext Example.annoAttribs)
           [ Example.placeAnnoRow ] 5 "places/description" H).
Defined.

Lemma slurpInputHistory_row_files (m : gmap Z (list (string * Js.jsval)))
  (row : inputHistoryRow) :
  slurpInputHistory_row m row
  = <[row.(ih_place_id) :=
        Js.objSet (default [] (m !! row.(ih_place_id))) row.(input)
          (Js.JObj [("useCount", row.(use_count))])]> m.
Proof.
  unfold slurpInputHistory_row.
  destruct (m !! row.(ih_place_id)); simpl; [reflexivity|].
  apply insert_insert_eq.
Qed.

(** X4: slurpInputHistory groups the typed inputs by place.  When no row
    has the typed string [__proto__], a place has an input dictionary
    exactly when some row is about it, and the dictionary has, as its own
    property under every typed string, the use count of the last row of this
    place with this string.  (Under the name [__proto__] the assignment
    would set the prototype of the dictionary and make no property.) *)
Theorem X4_input_history_is_grouped_by_place :
  forall (ctx : context) (rows : list inputHistoryRow) (p : Z) (typedStr : string),
    Forall (fun row => row.(input) <> "__proto__") rows ->
    ((slurpInputHistory ctx rows).(inputHistoryByPlaceId) !! p)
      ≫= (fun inputs => Js.objGet inputs typedStr)
    = (fun row => Js.JObj [("useCount", row.(use_count))])
        <$> find (fun row => (row.(ih_place_id) =? p) && String.eqb row.(input) typedStr)
              (rev rows)
    /\ (is_Some ((slurpInputHistory ctx rows).(inputHistoryByPlaceId) !! p)
        <-> exists row, row ∈ rows /\ row.(ih_place_id) = p).
Proof.
  intros ctx rows p typedStr _. unfold slurpInputHistory. simpl.
  rewrite (fold_left_ext _ _ rows slurpInputHistory_row_files).
  split.
  - rewrite (fold_group_lookup ih_place_id input
               (fun row => Js.JObj [("useCount", row.(use_count))])),
      lookup_empty.
    destruct (find _ _); reflexivity.
  - rewrite (fold_group_dom ih_place_id input
               (fun row => Js.JObj [("useCount", row.(use_count))])),
      lookup_empty.
    split; [|auto]. intros [H|H]; [destruct H; discriminate|exact H].
Qed.

(** X4 on the typed inputs of the example: "exa" was typed for place 7,
    last with use count 5. *)
Lemma X4_input_history_witness :
  Forall (fun row => row.(input) <> "__proto__") Example2.typedDb.(moz_inputhistory)
  /\ ((slurpInputHistory emptyContext Example2.typedDb.(moz_inputhistory))
        .(inputHistoryByPlaceId) !! 7)
       ≫= (fun inputs => Js.objGet inputs "exa")
     = Some (Js.JObj [("useCount", Js.JNum 5)])
  /\ (is_Some ((slurpInputHistory emptyContext Example2.typedDb.(moz_inputhistory))
                 .(inputHistoryByPlaceId) !! 7)
      <-> exists row, row ∈ Example2.typedDb.(moz_inputhistory)
                      /\ row.(ih_place_id) = 7).
Proof.
  assert (H : Forall (fun row => row.(input) <> "__proto__")
                Example2.typedDb.(moz_inputhistory)).
  { repeat constructor; discriminate. }
  split; [exact H|].
  exact (X4_input_history_is_grouped_by_place emptyContext
           Example2.typedDb.(moz_inputhistory) 7 "exa" H).
Defined.

(** ** Bookmark annotations, away from the annotated places *)

Lemma slurpBookmarkAnnotations_fold_miss (ctx : context) (rows : list annoRow)
  (byPlace : gmap Z (list (string * annoValue))) :
  Forall (fun row => byPlace !! row.(owner_id) = None) rows ->
  forall byBookmark,
    fold_left (slurpBookmarkAnnotations_row ctx) rows (byPlace, byBookmark)
    = (byPlace,
       fold_left
         (fun m row =>
            <[row.(owner_id) := [(annoName ctx row, row.(anno_value))]]> m)
         rows byBookmark).
Proof.
  induction 1 as [|row rows Hrow _ IH]; intros byBookmark; simpl; [reflexivity|].
  rewrite Hrow. apply IH.
Qed.

(** X5: when no annotated bookmark shares its id with an annotated place
    and no row has an annotation name [__proto__], the bookmark-annotation
    pass gives every annotated bookmark an object that has one annotation
    only, the one of its last row: each row begins a new object for its
    bookmark.  (Under the name [__proto__] the new object would get a
    prototype and no annotation.) *)
Theorem X5_only_the_last_annotation_of_a_bookmark_is_kept :
  forall (ctx : context) (rows : list annoRow) (i : Z),
    Forall (fun row => ctx.(annotationsByPlaceId) !! row.(owner_id) = None) rows ->
    Forall (fun row => annoName ctx row <> "__proto__") rows ->
    (slurpBookmarkAnnotations ctx rows).(annotationsByBookmarkId) !! i
    = (fun row => [(annoName ctx row, row.(anno_value))])
        <$> find (fun row => row.(owner_id) =? i) (rev rows).
Proof.
  intros ctx rows i Hrows _. unfold slurpBookmarkAnnotations.
  rewrite (slurpBookmarkAnnotations_fold_miss ctx rows _ Hrows). simpl.
  rewrite (fold_insert_lookup owner_id
             (fun row => [(annoName ctx row, row.(anno_value))])),
    lookup_empty.
  destruct (find _ _); reflexivity.
Qed.

(** X5 on two annotations of bookmark 8: the second alone is kept. *)
Lemma X5_last_annotation_witness :
  Forall (fun row => Example.annotatedContext.(annotationsByPlaceId) !! row.(owner_id)
                     = None) Example2.itemAnnoRows
  /\ Forall (fun row => annoName Example.annotatedContext row <> "__proto__")
       Example2.itemAnnoRows
  /\ (slurpBookmarkAnnotations Example.annotatedContext Example2.itemAnnoRows)
       .(annotationsByBookmarkId) !! 8
     = Some [ ("bookmarkProperties/description",
               Example.anno "second of bookmark 8") ].
Proof.
  assert (H : Forall (fun row => Example.annotatedContext.(annotationsByPlaceId)
                                   !! row.(owner_id) = None) Example2.itemAnnoRows).
  { repeat constructor. }
  assert (H' : Forall (fun row => annoName Example.annotatedContext row <> "__proto__")
                 Example2.itemAnnoRows).
  { repeat constructor; vm_compute; discriminate. }
  split; [exact H|]. split; [exact H'|].
  exact (X5_only_the_last_annotation_of_a_bookmark_is_kept
           Example.annotatedContext Example2.itemAnnoRows 8 H H').
Defined.

(** ** The scan of the bookmark table *)

Lemma foldM_app {A S : Type} (step : S -> A -> Js.result S) (l1 l2 : list A) :
  forall st : S,
    Js.foldM step st (l1 ++ l2)
    = Js.bind (Js.foldM step st l1) (fun st' => Js.foldM step st' l2).
Proof.
  induction l1 as [|x l1 IH]; intros st; simpl; [reflexivity|].
  destruct (step st x) as [st1|e]; simpl; [apply IH|reflexivity].
Qed.

Lemma slurpBookmarks_scan_snoc (ctx : context) (rows : list bookmarkRow)
  (row : bookmarkRow) :
  slurpBookmarks_scan ctx (rows ++ [row])
  = slurpBookmarks_row ctx (slurpBookmarks_scan ctx rows) row.
Proof. unfold slurpBookmarks_scan. rewrite fold_left_app. reflexivity. Qed.

(** The objects come one per row, in the order of the table. *)
Lemma slurpBookmarks_scan_flat (ctx : context) (rows : list bookmarkRow) :
  (slurpBookmarks_scan ctx rows).(flatBookmarks) = map (makeHierInfo ctx) rows.
Proof.
  induction rows as [|row rows IH] using rev_ind; [reflexivity|].
  rewrite slurpBookmarks_scan_snoc, map_app. simpl. rewrite IH. reflexivity.
Qed.

(** An id is bound in [bookmarksById] to the index of a row with this id. *)
Lemma slurpBookmarks_scan_byId_sound (ctx : context) (rows : list bookmarkRow)
  (k : Z) (i : nat) :
  (slurpBookmarks_scan ctx rows).(bookmarksById) !! k = Some i ->
  exists row, rows !! i = Some row /\ row.(bm_id) = k.
Proof.
  revert i. induction rows as [|row rows IH] using rev_ind; intros i.
  - simpl. rewrite lookup_empty. discriminate.
  - rewrite slurpBookmarks_scan_snoc. simpl.
    rewrite slurpBookmarks_scan_flat, length_map.
    destruct (decide (row.(bm_id) = k)) as [<-|Hne].
    + rewrite lookup_insert_eq. intros H. injection H as <-.
      exists row. split; [|reflexivity].
      rewrite lookup_app_r by lia. rewrite Nat.sub_diag. reflexivity.
    + rewrite lookup_insert_ne by exact Hne. intros H.
      destruct (IH i H) as (r & Hr & Hk). exists r. split; [|exact Hk].
      rewrite lookup_app_l; [exact Hr|]. apply lookup_lt_Some in Hr. exact Hr.
Qed.

(** Every id of the table is bound. *)
Lemma slurpBookmarks_scan_byId_complete (ctx : context) (rows : list bookmarkRow)
  (row : bookmarkRow) :
  row ∈ rows ->
  is_Some ((slurpBookmarks_scan ctx rows).(bookmarksById) !! row.(bm_id)).
Proof.
  induction rows as [|r rows IH] using rev_ind; intros Hin.
  - apply elem_of_nil in Hin. contradiction.
  - rewrite slurpBookmarks_scan_snoc. simpl.
    destruct (decide (r.(bm_id) = row.(bm_id))) as [Heq|Hne].
    + rewrite Heq, lookup_insert_eq. eauto.
    + rewrite lookup_insert_ne by exact Hne. apply IH.
      apply elem_of_app in Hin as [Hin|Hin]; [exact Hin|].
      apply list_elem_of_singleton in Hin. subst r. contradiction.
Qed.

(** When the ids are the key of the table, each is bound to its row. *)
Lemma slurpBookmarks_scan_byId_key (ctx : context) (rows : list bookmarkRow)
  (i : nat) (row : bookmarkRow) :
  NoDup (map bm_id rows) ->
  rows !! i = Some row ->
  (slurpBookmarks_scan ctx rows).(bookmarksById) !! row.(bm_id) = Some i.
Proof.
  intros Hnd Hrow.
  destruct (slurpBookmarks_scan_byId_complete ctx rows row) as [j Hj].
  { apply list_elem_of_lookup. eauto. }
  rewrite Hj. f_equal.
  destruct (slurpBookmarks_scan_byId_sound ctx rows _ _ Hj) as (r & Hr & Hk).
  apply (NoDup_lookup (map bm_id rows) j i row.(bm_id)); [exact Hnd| |].
  - rewrite list_lookup_fmap, Hr. simpl. rewrite Hk. reflexivity.
  - rewrite list_lookup_fmap, Hrow. reflexivity.
Qed.

(** ** When slurpBookmarks returns *)

Lemma hasRow_true (rows : list bookmarkRow) (k : Z) :
  hasRow rows k = true <-> exists row, row ∈ rows /\ row.(bm_id) = k.
Proof.
  unfold hasRow. rewrite existsb_exists. split.
  - intros (row & Hin & Hk). exists row. split; [apply list_elem_of_In; exact Hin|].
    apply Z.eqb_eq. exact Hk.
  - intros (row & Hin & Hk). exists row. split; [apply list_elem_of_In; exact Hin|].
    apply Z.eqb_eq. exact Hk.
Qed.

Lemma scan_byId_hasRow (ctx : context) (rows : list bookmarkRow) (k : Z) :
  is_Some ((slurpBookmarks_scan ctx rows).(bookmarksById) !! k)
  <-> hasRow rows k = true.
Proof.
  rewrite hasRow_true. split.
  - intros [i Hi].
    destruct (slurpBookmarks_scan_byId_sound ctx rows k i Hi) as (row & Hrow & Hk).
    exists row. split; [|exact Hk]. apply list_elem_of_lookup. eauto.
  - intros (row & Hin & <-). apply slurpBookmarks_scan_byId_complete. exact Hin.
Qed.

Lemma skeleton_alter (f : hierInfo -> hierInfo) (objs : list hierInfo) (i : nat) :
  (forall h, (f h).(id) = h.(id) /\ (f h).(parentId) = h.(parentId)) ->
  skeleton (alter f i objs) = skeleton objs.
Proof.
  intros Hf. unfold skeleton. revert i.
  induction objs as [|h objs IH]; intros [|i]; simpl; try reflexivity.
  - destruct (Hf h) as [-> ->]. reflexivity.
  - f_equal. apply IH.
Qed.

Lemma skeleton_length (objs objs' : list hierInfo) :
  skeleton objs' = skeleton objs -> length objs' = length objs.
Proof.
  unfold skeleton. intros H. apply (f_equal (@length _)) in H.
  rewrite !length_map in H. exact H.
Qed.

Lemma skeleton_lookup (objs : list hierInfo) (i : nat) :
  skeleton objs !! i = (fun h => (h.(id), h.(parentId))) <$> objs !! i.
Proof. unfold skeleton. apply list_lookup_fmap. Qed.

(** A root whose folder has no row makes the root-linking loop throw. *)
Lemma linkRoot_fold_missing (byId : gmap Z nat) (roots : list (string * Z)) :
  Exists (fun root => byId !! root.2 = None) roots ->
  forall st, Js.foldM (linkRoot byId) st roots = Js.Throw Js.TypeError.
Proof.
  induction 1 as [[rootName rootId] roots Hmiss|[rootName rootId] roots _ IH];
    intros [hierarchy objs]; simpl in *.
  - rewrite Hmiss. reflexivity.
  - destruct (byId !! rootId); simpl; [apply IH|reflexivity].
Qed.

(** When every root has its row, the root-linking loop returns and only
    titles have changed. *)
Lemma linkRoot_fold_returns (byId : gmap Z nat) (roots : list (string * Z)) :
  Forall (fun root => is_Some (byId !! root.2)) roots ->
  forall st, exists st',
    Js.foldM (linkRoot byId) st roots = Js.Ok st'
    /\ skeleton st'.2 = skeleton st.2.
Proof.
  induction 1 as [|[rootName rootId] roots [p Hp] _ IH];
    intros [hierarchy objs]; simpl in *.
  - eauto.
  - rewrite Hp. simpl.
    destruct (IH (Js.objSet hierarchy rootName p,
                  alter (fun h => set_title h (Some rootName)) p objs))
      as (st' & Hrun & Hsk).
    exists st'. split; [exact Hrun|]. rewrite Hsk. simpl.
    apply skeleton_alter. intros h. split; reflexivity.
Qed.

(** When the ids bound are indices of the arena and the Tags root, if
    there is one, is bound, linking the children returns and changes only
    the kids. *)
Lemma linkChild_fold_returns (TAG_ROOT_ID : option Z) (byId : gmap Z nat)
  (n : nat) (refs : list nat) :
  (forall k p, byId !! k = Some p -> (p < n)%nat) ->
  (forall t, TAG_ROOT_ID = Some t -> is_Some (byId !! t)) ->
  Forall (fun ref => (ref < n)%nat) refs ->
  forall st, length st.2 = n ->
    exists st',
      Js.foldM (linkChild TAG_ROOT_ID byId) st refs = Js.Ok st'
      /\ skeleton st'.2 = skeleton st.2.
Proof.
  intros Hidx Htag. induction 1 as [|ref refs Href _ IH];
    intros [tagsBy objs] Hlen; simpl in *.
  - eauto.
  - destruct (lookup_lt_is_Some_2 objs ref ltac:(lia)) as [h Hh].
    rewrite Hh.
    destruct (Js.strictEqId h.(parentId) TAG_ROOT_ID) eqn:Heq.
    + destruct h.(parentId) as [par|] eqn:Hpar; [|discriminate].
      destruct TAG_ROOT_ID as [t|] eqn:Ht; [|discriminate].
      simpl in Heq. apply Z.eqb_eq in Heq. subst par. simpl.
      destruct (Htag t eq_refl) as [p Hp]. rewrite Hp. simpl.
      destruct (lookup_lt_is_Some_2 objs p) as [parentObj Hobj];
        [rewrite Hlen; exact (Hidx _ _ Hp)|].
      rewrite Hobj. simpl. apply IH. exact Hlen.
    + destruct (h.(parentId) ≫= _) as [p|]; simpl.
      * destruct (IH (tagsBy,
                      alter (fun h0 => set_kids h0 (Some (default [] h0.(kids) ++ [ref])))
                        p objs)) as (st' & Hrun & Hsk).
        { simpl. rewrite length_alter. exact Hlen. }
        exists st'. split; [exact Hrun|]. rewrite Hsk. simpl.
        apply skeleton_alter. intros h0. split; reflexivity.
      * apply IH. exact Hlen.
Qed.

Lemma objGet_Some_elem {V : Type} (o : list (string * V)) (k : string) (v : V) :
  Js.objGet o k = Some v -> (k, v) ∈ o.
Proof.
  induction o as [|[k0 v0] o IH]; simpl; [discriminate|].
  destruct (String.eqb k0 k) eqn:Hk.
  - apply String.eqb_eq in Hk. subst k0. intros H. injection H as <-.
    apply list_elem_of_here.
  - intros H. apply list_elem_of_further. apply IH. exact H.
Qed.

(** X6: slurpBookmarks returns whenever every root of the roots table has
    a row in the bookmark table.  The context it leaves has one object per
    row, in the order of the table, each with the id and the parent id of
    its row. *)
Theorem X6_slurpBookmarks_returns_when_every_root_has_a_row :
  forall (ctx : context) (rows : list bookmarkRow),
    Forall (fun root => hasRow rows root.2 = true) ctx.(bookmarkRoots) ->
    exists ctx',
      slurpBookmarks ctx rows = Js.Ok ctx'
      /\ skeleton ctx'.(heap) = map (fun row => (row.(bm_id), row.(parent))) rows.
Proof.
  intros ctx rows Hroots.
  unfold slurpBookmarks, slurpBookmarks_complete.
  set (scan := slurpBookmarks_scan ctx rows).
  assert (Hflat : skeleton scan.(flatBookmarks)
                  = map (fun row => (row.(bm_id), row.(parent))) rows).
  { subst scan. rewrite slurpBookmarks_scan_flat. unfold skeleton.
    rewrite map_map. reflexivity. }
  assert (Hbound : Forall (fun root => is_Some (scan.(bookmarksById) !! root.2))
                     ctx.(bookmarkRoots)).
  { eapply Forall_impl; [exact Hroots|]. intros root Hroot.
    apply scan_byId_hasRow. exact Hroot. }
  destruct (linkRoot_fold_returns _ _ Hbound ([], scan.(flatBookmarks)))
    as ([hierarchy objs] & Hrun & Hsk).
  rewrite Hrun. simpl in *.
  destruct (linkChild_fold_returns (Js.objGet ctx.(bookmarkRoots) "tags")
              scan.(bookmarksById) (length objs) (seq 0 (length objs)))
    with (st := (∅ : gmap (option Z) (list (option string)), objs))
    as ([tagsBy objs'] & Hrun' & Hsk').
  - intros k p Hp.
    destruct (slurpBookmarks_scan_byId_sound ctx rows k p Hp) as (row & Hrow & _).
    apply lookup_lt_Some in Hrow.
    rewrite (skeleton_length _ _ Hsk). subst scan.
    rewrite slurpBookmarks_scan_flat, length_map. exact Hrow.
  - intros t Ht. apply objGet_Some_elem in Ht.
    rewrite Forall_forall in Hbound. exact (Hbound _ Ht).
  - apply Forall_forall. intros ref Href. apply elem_of_seq in Href. lia.
  - reflexivity.
  - rewrite Hrun'. simpl. eexists. split; [reflexivity|]. simpl in *.
    rewrite Hsk', Hsk. exact Hflat.
Qed.

(** X6 on the example: both roots have their folder. *)
Lemma X6_slurpBookmarks_returns_witness :
  Forall (fun root => hasRow Example.bookmarksDb.(moz_bookmarks) root.2 = true)
    Example.rootsContext.(bookmarkRoots)
  /\ exists ctx',
       slurpBookmarks Example.rootsContext Example.bookmarksDb.(moz_bookmarks)
       = Js.Ok ctx'
       /\ skeleton ctx'.(heap)
          = map (fun row => (row.(bm_id), row.(parent)))
              Example.bookmarksDb.(moz_bookmarks).
Proof.
  assert (H : Forall (fun root => hasRow Example.bookmarksDb.(moz_bookmarks) root.2
                                  = true) Example.rootsContext.(bookmarkRoots)).
  { repeat constructor. }
  split; [exact H|].
  exact (X6_slurpBookmarks_returns_when_every_root_has_a_row
           Example.rootsContext Example.bookmarksDb.(moz_bookmarks) H).
Defined.

(** X7: slurpBookmarks throws a TypeError as soon as some root of the roots
    table has no row in the bookmark table: the root-linking loop sets the
    title of an object that is not there. *)
Theorem X7_slurpBookmarks_throws_on_a_root_without_row :
  forall (ctx : context) (rows : list bookmarkRow),
    Exists (fun root => hasRow rows root.2 = false) ctx.(bookmarkRoots) ->
    slurpBookmarks ctx rows = Js.Throw Js.TypeError.
Proof.
  intros ctx rows Hroots.
  unfold slurpBookmarks, slurpBookmarks_complete.
  rewrite linkRoot_fold_missing; [reflexivity|].
  eapply Exists_impl; [exact Hroots|]. intros root Hroot. simpl.
  destruct (_ !! root.2) eqn:Hk; [|reflexivity].
  assert (Hs : is_Some ((slurpBookmarks_scan ctx rows).(bookmarksById) !! root.2))
    by eauto.
  apply scan_byId_hasRow in Hs. simpl in Hroot. congruence.
Qed.

(** X7 on the roots of the example and an empty bookmark table. *)
Lemma X7_slurpBookmarks_throws_witness :
  Exists (fun root => hasRow [] root.2 = false) Example.rootsContext.(bookmarkRoots)
  /\ slurpBookmarks Example.rootsContext [] = Js.Throw Js.TypeError.
Proof.
  assert (H : Exists (fun root => hasRow [] root.2 = false)
                Example.rootsContext.(bookmarkRoots)).
  { apply Exists_cons_hd. reflexivity. }
  split; [exact H|].
  exact (X7_slurpBookmarks_throws_on_a_root_without_row Example.rootsContext [] H).
Defined.

(** ** The kids of a folder *)

Lemma targetOf_skeleton (TAG_ROOT_ID : option Z) (byId : gmap Z nat)
  (objs objs' : list hierInfo) (i : nat) :
  skeleton objs' = skeleton objs ->
  targetOf TAG_ROOT_ID byId objs' i = targetOf TAG_ROOT_ID byId objs i.
Proof.
  intros Hsk. apply (f_equal (fun l => l !! i)) in Hsk.
  rewrite !skeleton_lookup in Hsk. unfold targetOf.
  destruct (objs' !! i) as [h'|], (objs !! i) as [h|]; simpl in *;
    try discriminate; [|reflexivity].
  injection Hsk as _ ->. reflexivity.
Qed.

(** One call of the child-linking callback: the object is appended to the
    kids of its target, and nothing else changes among the kids. *)
Lemma linkChild_step_kids (TAG_ROOT_ID : option Z) (byId : gmap Z nat)
  (tagsBy tagsBy' : gmap (option Z) (list (option string)))
  (objs objs' : list hierInfo) (ref p : nat) :
  linkChild TAG_ROOT_ID byId (tagsBy, objs) ref = Js.Ok (tagsBy', objs') ->
  (p < length objs)%nat ->
  skeleton objs' = skeleton objs
  /\ kidsList objs' p
     = kidsList objs p
       ++ (if bool_decide (targetOf TAG_ROOT_ID byId objs ref = Some p)
           then [ref] else [])
  /\ ((forall q obj, objs !! q = Some obj -> obj.(kids) <> Some []) ->
      forall q obj, objs' !! q = Some obj -> obj.(kids) <> Some []).
Proof.
  unfold linkChild, targetOf. intros Hstep Hp.
  destruct (objs !! ref) as [h|] eqn:Href; [|discriminate]. simpl.
  destruct (Js.strictEqId h.(parentId) TAG_ROOT_ID) eqn:Htag.
  - destruct (_ ≫= _) as [parentObj|]; [|discriminate].
    injection Hstep as _ <-.
    rewrite bool_decide_eq_false_2 by discriminate.
    rewrite app_nil_r. auto.
  - destruct (h.(parentId) ≫= _) as [p0|] eqn:Hp0.
    + injection Hstep as _ <-. split; [|split].
      * apply skeleton_alter. intros h0. split; reflexivity.
      * unfold kidsList. case_bool_decide as Hdec.
        -- injection Hdec as ->. rewrite list_lookup_alter_eq.
           destruct (lookup_lt_is_Some_2 objs p Hp) as [obj Hobj].
           rewrite Hobj. simpl. destruct obj.(kids); reflexivity.
        -- rewrite list_lookup_alter_ne by congruence.
           rewrite app_nil_r. reflexivity.
      * intros Hinv q obj Hq.
        destruct (decide (p0 = q)) as [->|Hne].
        -- rewrite list_lookup_alter_eq in Hq.
           destruct (objs !! q) as [obj0|]; [|discriminate].
           injection Hq as <-. simpl. intros H. injection H as H.
           destruct (default [] obj0.(kids)); discriminate.
        -- rewrite list_lookup_alter_ne in Hq by exact Hne.
           exact (Hinv q obj Hq).
    + injection Hstep as _ <-.
      rewrite bool_decide_eq_false_2 by discriminate.
      rewrite app_nil_r. auto.
Qed.

Lemma linkChild_fold_kids (TAG_ROOT_ID : option Z) (byId : gmap Z nat) (p : nat) :
  forall (k a : nat) (st st' : gmap (option Z) (list (option string)) * list hierInfo),
    Js.foldM (linkChild TAG_ROOT_ID byId) st (seq a k) = Js.Ok st' ->
    (p < length st.2)%nat ->
    skeleton st'.2 = skeleton st.2
    /\ kidsList st'.2 p
       = kidsList st.2 p
         ++ List.filter
              (fun i => bool_decide (targetOf TAG_ROOT_ID byId st.2 i = Some p))
              (seq a k)
    /\ ((forall q obj, st.2 !! q = Some obj -> obj.(kids) <> Some []) ->
        forall q obj, st'.2 !! q = Some obj -> obj.(kids) <> Some []).
Proof.
  induction k as [|k IH]; intros a [tagsBy objs] st' Hrun Hp;
    cbn [seq Js.foldM] in Hrun.
  - injection Hrun as <-. simpl. rewrite app_nil_r. auto.
  - destruct (linkChild TAG_ROOT_ID byId (tagsBy, objs) a)
      as [[tagsBy1 objs1]|e] eqn:Hstep; simpl in Hrun; [|discriminate].
    destruct (linkChild_step_kids TAG_ROOT_ID byId tagsBy tagsBy1 objs objs1 a p
                Hstep Hp) as (Hsk1 & Hk1 & Hinv1).
    simpl in Hp.
    destruct (IH (S a) (tagsBy1, objs1) st' Hrun) as (Hsk & Hk & Hinv).
    { simpl. rewrite (skeleton_length _ _ Hsk1). exact Hp. }
    simpl in *. split; [congruence|]. split.
    + rewrite Hk, Hk1, <- app_assoc. f_equal.
      rewrite (List.filter_ext
                 (fun i => bool_decide (targetOf TAG_ROOT_ID byId objs1 i = Some p))
                 (fun i => bool_decide (targetOf TAG_ROOT_ID byId objs i = Some p)))
        by (intros i; rewrite (targetOf_skeleton _ _ _ _ i Hsk1); reflexivity).
      cbn [seq List.filter]. case_bool_decide; reflexivity.
    + intros H0. apply Hinv. apply Hinv1. exact H0.
Qed.

Lemma filter_seq_children (TAG_ROOT_ID : option Z) (pid : Z) (g : nat -> bool)
  (rows : list bookmarkRow) :
  forall a : nat,
    (forall j row, rows !! j = Some row -> g (a + j)%nat = isChildOf TAG_ROOT_ID pid row) ->
    List.filter g (seq a (length rows)) = childrenFrom a TAG_ROOT_ID pid rows.
Proof.
  induction rows as [|row rows IH]; intros a Hg; simpl; [reflexivity|].
  rewrite <- (Hg 0%nat row eq_refl), Nat.add_0_r.
  rewrite (IH (S a)).
  - destruct (g a); reflexivity.
  - intros j r Hj. rewrite <- (Hg (S j) r Hj). f_equal. lia.
Qed.

(** X8: when the ids are the key of the bookmark table, the kids of the
    object of a row are, in the order of the table, the rows whose parent id
    is the id of this row, except for the Tags root, which gets no kids;
    and an object without such rows has no kids array at all (null).  In
    particular a row whose parent id is the id of no row is among the kids
    of no object. *)
Theorem X8_kids_are_the_children_in_table_order :
  forall (ctx ctx' : context) (rows : list bookmarkRow)
         (p : nat) (prow : bookmarkRow) (obj : hierInfo),
    NoDup (map bm_id rows) ->
    slurpBookmarks ctx rows = Js.Ok ctx' ->
    rows !! p = Some prow ->
    ctx'.(heap) !! p = Some obj ->
    obj.(kids)
    = match childrenOf (Js.objGet ctx.(bookmarkRoots) "tags") prow.(bm_id) rows with
      | [] => None
      | l => Some l
      end.
Proof.
  intros ctx ctx' rows p prow obj Hnd Hslurp Hprow Hobj.
  open_slurpBookmarks Hslurp. simpl in Hobj.
  set (TAG := Js.objGet ctx.(bookmarkRoots) "tags") in *.
  set (byId := (slurpBookmarks_scan ctx rows).(bookmarksById)) in *.
  assert (Hnokids : Forall (fun h => h.(kids) = None) objs).
  { apply (linkRoot_fold_no_kids _ _ _ _ Hroots). simpl.
    apply slurpBookmarks_scan_no_kids. }
  assert (Hsk0 : skeleton objs = map (fun row => (row.(bm_id), row.(parent))) rows).
  { assert (Hb : Forall (fun root => is_Some (byId !! root.2)) ctx.(bookmarkRoots)).
    { apply Forall_forall. intros [rootName rootId] Hin. simpl.
      destruct (byId !! rootId) eqn:Hk; [eauto|].
      rewrite linkRoot_fold_missing in Hroots; [discriminate|].
      apply Exists_exists. exists (rootName, rootId).
      split; [exact Hin|exact Hk]. }
    destruct (linkRoot_fold_returns _ _ Hb
                ([], (slurpBookmarks_scan ctx rows).(flatBookmarks)))
      as (st1 & Hrun1 & Hsk1).
    rewrite Hroots in Hrun1. injection Hrun1 as <-. simpl in Hsk1.
    rewrite Hsk1, slurpBookmarks_scan_flat. unfold skeleton.
    rewrite map_map. reflexivity. }
  rewrite Forall_lookup in Hnokids.
  assert (Hlen : length objs = length rows).
  { apply (f_equal (@length _)) in Hsk0. unfold skeleton in Hsk0.
    rewrite !length_map in Hsk0. exact Hsk0. }
  assert (Hp : (p < length objs)%nat).
  { rewrite Hlen. apply lookup_lt_Some in Hprow. exact Hprow. }
  destruct (linkChild_fold_kids TAG byId p _ _ _ _ Hkids Hp) as (_ & Hk & Hinv).
  simpl in Hk, Hinv.
  assert (Hlist : kidsList objs' p = childrenOf TAG prow.(bm_id) rows).
  { rewrite Hk. unfold kidsList at 1.
    destruct (objs !! p) as [h0|] eqn:Hh0; simpl.
    - rewrite (Hnokids p h0 Hh0). simpl.
      rewrite Hlen. apply filter_seq_children. intros j row Hj. simpl.
      unfold targetOf, isChildOf.
      assert (Hsj := f_equal (fun l => l !! j) Hsk0). simpl in Hsj.
      rewrite skeleton_lookup, list_lookup_fmap, Hj in Hsj.
      destruct (objs !! j) as [hj|]; [|discriminate]. simpl in Hsj.
      injection Hsj as _ Hpar. simpl. rewrite Hpar.
      destruct row.(parent) as [q|] eqn:Hq; simpl.
      + change (match TAG with Some y => q =? y | None => false end)
          with (Js.strictEqId (Some q) TAG).
        destruct (Js.strictEqId (Some q) TAG) eqn:Htag; cbn [negb].
        * rewrite andb_false_r. apply bool_decide_eq_false_2. discriminate.
        * rewrite andb_true_r. destruct (q =? prow.(bm_id)) eqn:Heq.
          -- apply Z.eqb_eq in Heq. subst q. apply bool_decide_eq_true_2.
             subst byId. rewrite (slurpBookmarks_scan_byId_key ctx rows p prow Hnd Hprow).
             reflexivity.
          -- apply Z.eqb_neq in Heq. apply bool_decide_eq_false_2. intros Hb.
             subst byId.
             destruct (slurpBookmarks_scan_byId_sound ctx rows q p Hb)
               as (r & Hr & Hrid).
             rewrite Hprow in Hr. injection Hr as <-. congruence.
      + reflexivity.
    - apply lookup_ge_None in Hh0. lia. }
  unfold kidsList in Hlist. rewrite Hobj in Hlist. simpl in Hlist.
  assert (Hne : obj.(kids) <> Some []).
  { apply (Hinv (fun q o Hq => ltac:(rewrite (Hnokids q o Hq); discriminate))
             p obj Hobj). }
  destruct obj.(kids) as [[|k ks]|]; simpl in Hlist; rewrite <- Hlist;
    [contradiction|reflexivity|reflexivity].
Qed.

(** X8 on the example: the menu folder has bookmark 10 as its only kid;
    the child of the Tags root is not among them. *)
Lemma X8_kids_witness :
  NoDup (map bm_id Example.bookmarksDb.(moz_bookmarks))
  /\ slurpBookmarks Example.rootsContext Example.bookmarksDb.(moz_bookmarks)
     = Js.Ok Example.treeContext
  /\ Example.bookmarksDb.(moz_bookmarks) !! 0%nat = Some Example2.menuRow
  /\ Example.treeContext.(heap) !! 0%nat = Some Example2.menuFolder
  /\ Example2.menuFolder.(kids) = Some [3%nat].
Proof.
  assert (H1 : NoDup (map bm_id Example.bookmarksDb.(moz_bookmarks))).
  { apply (bool_decide_unpack _). vm_compute. exact I. }
  assert (H2 : slurpBookmarks Example.rootsContext Example.bookmarksDb.(moz_bookmarks)
               = Js.Ok Example.treeContext) by (vm_compute; reflexivity).
  assert (H3 : Example.bookmarksDb.(moz_bookmarks) !! 0%nat = Some Example2.menuRow)
    by reflexivity.
  assert (H4 : Example.treeContext.(heap) !! 0%nat = Some Example2.menuFolder)
    by (vm_compute; reflexivity).
  split; [exact H1|]. split; [exact H2|]. split; [exact H3|]. split; [exact H4|].
  exact (X8_kids_are_the_children_in_table_order
           Example.rootsContext Example.treeContext
           Example.bookmarksDb.(moz_bookmarks) 0%nat Example2.menuRow
           Example2.menuFolder H1 H2 H3 H4).
Defined.

(** ** The roots of the hierarchy *)

Lemma scan_byId_injective (ctx : context) (rows : list bookmarkRow)
  (k1 k2 : Z) (p : nat) :
  (slurpBookmarks_scan ctx rows).(bookmarksById) !! k1 = Some p ->
  (slurpBookmarks_scan ctx rows).(bookmarksById) !! k2 = Some p ->
  k1 = k2.
Proof.
  intros H1 H2.
  destruct (slurpBookmarks_scan_byId_sound ctx rows k1 p H1) as (r1 & Hr1 & <-).
  destruct (slurpBookmarks_scan_byId_sound ctx rows k2 p H2) as (r2 & Hr2 & <-).
  congruence.
Qed.

(** The root-linking loop leaves alone the names it does not meet and the
    titles of the objects that are the folder of no root it meets. *)
Lemma linkRoot_fold_frame (byId : gmap Z nat) (roots : list (string * Z)) :
  forall (st st' : list (string * nat) * list hierInfo),
    Js.foldM (linkRoot byId) st roots = Js.Ok st' ->
    (forall name, name ∉ map fst roots -> Js.objGet st'.1 name = Js.objGet st.1 name)
    /\ (forall p, (forall root, root ∈ roots -> byId !! root.2 <> Some p) ->
          title <$> st'.2 !! p = title <$> st.2 !! p).
Proof.
  induction roots as [|[rootName rootId] roots IH]; intros [hier objs] st' Hrun;
    simpl in Hrun.
  - injection Hrun as <-. auto.
  - destruct (byId !! rootId) as [p0|] eqn:Hp0; simpl in Hrun; [|discriminate].
    destruct (IH _ _ Hrun) as [Hnames Htitles]. simpl in *. split.
    + intros name Hname. apply not_elem_of_cons in Hname as [Hne Hname].
      rewrite (Hnames name Hname), objGet_objSet.
      destruct (String.eqb rootName name) eqn:Heq; [|reflexivity].
      apply String.eqb_eq in Heq. congruence.
    + intros p Hp. rewrite Htitles.
      * rewrite list_lookup_alter_ne; [reflexivity|].
        intros ->. apply (Hp (rootName, rootId)); [apply list_elem_of_here|exact Hp0].
      * intros root Hroot. apply Hp. apply list_elem_of_further. exact Hroot.
Qed.

Lemma linkRoot_fold_binds (byId : gmap Z nat) (roots : list (string * Z))
  (rootName : string) (rootId : Z) :
  NoDup (map fst roots) ->
  NoDup (map snd roots) ->
  (forall k1 k2 p, byId !! k1 = Some p -> byId !! k2 = Some p -> k1 = k2) ->
  (rootName, rootId) ∈ roots ->
  forall (st st' : list (string * nat) * list hierInfo),
    Js.foldM (linkRoot byId) st roots = Js.Ok st' ->
    exists p,
      byId !! rootId = Some p
      /\ Js.objGet st'.1 rootName = Some p
      /\ title <$> st'.2 !! p = (fun _ => Some rootName) <$> st.2 !! p.
Proof.
  intros Hnames Hids Hinj.
  induction roots as [|[n0 r0] roots IH]; intros Hin [hier objs] st' Hrun.
  - apply elem_of_nil in Hin. contradiction.
  - simpl in Hrun, Hnames, Hids.
    apply NoDup_cons in Hnames as [Hn0 Hnames].
    apply NoDup_cons in Hids as [Hr0 Hids].
    destruct (byId !! r0) as [p0|] eqn:Hp0; simpl in Hrun; [|discriminate].
    apply elem_of_cons in Hin as [Heq|Hin].
    + injection Heq as -> ->.
      destruct (linkRoot_fold_frame _ _ _ _ Hrun) as [Hfn Hft]. simpl in *.
      exists p0. split; [exact Hp0|]. split.
      * rewrite (Hfn n0 Hn0), objGet_objSet, String.eqb_refl. reflexivity.
      * rewrite Hft.
        -- rewrite list_lookup_alter_eq. destruct (objs !! p0); reflexivity.
        -- intros [n r] Hroot Hp. simpl in Hp.
           apply Hr0. rewrite (Hinj r0 r p0 Hp0 Hp).
           apply list_elem_of_fmap. exists (n, r). auto.
    + destruct (IH Hnames Hids Hin _ _ Hrun) as (p & Hp & Hbound & Htitle).
      exists p. split; [exact Hp|]. split; [exact Hbound|].
      rewrite Htitle. simpl.
      rewrite list_lookup_alter_ne; [reflexivity|].
      intros ->. apply Hr0. rewrite (Hinj r0 rootId p Hp0 Hp).
      apply list_elem_of_fmap. exists (rootName, rootId). auto.
Qed.

(** Linking the children changes no title. *)
Lemma linkChild_fold_titles (TAG_ROOT_ID : option Z) (byId : gmap Z nat)
  (refs : list nat) (p : nat) :
  forall (st st' : gmap (option Z) (list (option string)) * list hierInfo),
    Js.foldM (linkChild TAG_ROOT_ID byId) st refs = Js.Ok st' ->
    title <$> st'.2 !! p = title <$> st.2 !! p.
Proof.
  intros st st' Hrun.
  refine (foldM_invariant _ (fun s => title <$> s.2 !! p = title <$> st.2 !! p)
            _ _ _ _ Hrun eq_refl).
  intros [tagsBy objs] ref [tagsBy' objs'] _ Hstep Hinv. simpl in *.
  rewrite <- Hinv. unfold linkChild in Hstep.
  destruct (objs !! ref) as [h|]; [|discriminate].
  destruct (Js.strictEqId h.(parentId) TAG_ROOT_ID).
  - destruct (_ ≫= _); [|discriminate]. injection Hstep as _ <-. reflexivity.
  - destruct (h.(parentId) ≫= _) as [p0|]; injection Hstep as _ <-; [|reflexivity].
    destruct (decide (p0 = p)) as [->|Hne].
    + rewrite list_lookup_alter_eq. destruct (objs !! p); reflexivity.
    + rewrite list_lookup_alter_ne by exact Hne. reflexivity.
Qed.

(** X9: let every root name and every root folder id occur once in the
    roots object.  When slurpBookmarks returns, each root name is bound in
    the hierarchy to the object of a row that has the folder id of the
    root, and the title of this object is the root name, whatever the title
    of the row was. *)
Theorem X9_roots_are_bound_and_titled_by_their_name :
  forall (ctx ctx' : context) (rows : list bookmarkRow)
         (rootName : string) (rootId : Z),
    NoDup (map fst ctx.(bookmarkRoots)) ->
    NoDup (map snd ctx.(bookmarkRoots)) ->
    slurpBookmarks ctx rows = Js.Ok ctx' ->
    (rootName, rootId) ∈ ctx.(bookmarkRoots) ->
    exists (p : nat) (row : bookmarkRow) (obj : hierInfo),
      Js.objGet ctx'.(bookmarkHierarchy) rootName = Some p
      /\ rows !! p = Some row
      /\ row.(bm_id) = rootId
      /\ ctx'.(heap) !! p = Some obj
      /\ obj.(title) = Some rootName.
Proof.
  intros ctx ctx' rows rootName rootId Hnames Hids Hslurp Hin.
  open_slurpBookmarks Hslurp. simpl.
  destruct (linkRoot_fold_binds _ _ rootName rootId Hnames Hids
              (scan_byId_injective ctx rows) Hin _ _ Hroots)
    as (p & Hp & Hbound & Htitle).
  simpl in Hbound, Htitle.
  destruct (slurpBookmarks_scan_byId_sound ctx rows rootId p Hp) as (row & Hrow & Hid).
  pose proof (linkChild_fold_titles _ _ _ p _ _ Hkids) as Hkeep. simpl in Hkeep.
  rewrite Htitle, slurpBookmarks_scan_flat, list_lookup_fmap, Hrow in Hkeep.
  simpl in Hkeep.
  destruct (objs' !! p) as [obj|] eqn:Hobj; [|discriminate].
  injection Hkeep as Hkeep.
  exists p, row, obj. auto.
Qed.

(** X9 on the example, for the root "menu" of folder 2. *)
Lemma X9_roots_witness :
  NoDup (map fst Example.rootsContext.(bookmarkRoots))
  /\ NoDup (map snd Example.rootsContext.(bookmarkRoots))
  /\ slurpBookmarks Example.rootsContext Example.bookmarksDb.(moz_bookmarks)
     = Js.Ok Example.treeContext
  /\ ("menu", 2) ∈ Example.rootsContext.(bookmarkRoots)
  /\ exists (p : nat) (row : bookmarkRow) (obj : hierInfo),
       Js.objGet Example.treeContext.(bookmarkHierarchy) "menu" = Some p
       /\ Example.bookmarksDb.(moz_bookmarks) !! p = Some row
       /\ row.(bm_id) = 2
       /\ Example.treeContext.(heap) !! p = Some obj
       /\ obj.(title) = Some "menu".
Proof.
  assert (H1 : NoDup (map fst Example.rootsContext.(bookmarkRoots))).
  { apply (bool_decide_unpack _). vm_compute. exact I. }
  assert (H2 : NoDup (map snd Example.rootsContext.(bookmarkRoots))).
  { apply (bool_decide_unpack _). vm_compute. exact I. }
  assert (H3 : slurpBookmarks Example.rootsContext Example.bookmarksDb.(moz_bookmarks)
               = Js.Ok Example.treeContext) by (vm_compute; reflexivity).
  assert (H4 : ("menu", 2) ∈ Example.rootsContext.(bookmarkRoots)).
  { apply list_elem_of_here. }
  split; [exact H1|]. split; [exact H2|]. split; [exact H3|]. split; [exact H4|].
  exact (X9_roots_are_bound_and_titled_by_their_name
           Example.rootsContext Example.treeContext
           Example.bookmarksDb.(moz_bookmarks) "menu" 2 H1 H2 H3 H4).
Defined.

(** ** The traversal of writeBookmarks *)

(** A loop that appends what each element yields returns exactly when
    every element yields something, and then returns it all in order. *)
Lemma foldM_collect {A B : Type} (f : A -> Js.result (list B)) (l : list A) :
  forall (acc r : list B),
    Js.foldM (fun acc x => Js.bind (f x) (fun out => Js.Ok (acc ++ out))) acc l
    = Js.Ok r
    <-> exists outs, Forall2 (fun x out => f x = Js.Ok out) l outs
                     /\ r = acc ++ concat outs.
Proof.
  induction l as [|x l IH]; intros acc r; simpl.
  - split.
    + intros H. injection H as <-. exists []. split; [constructor|].
      simpl. rewrite app_nil_r. reflexivity.
    + intros (outs & Hall & ->). inversion Hall. simpl. rewrite app_nil_r.
      reflexivity.
  - destruct (f x) as [out|e] eqn:Hx; simpl.
    + rewrite IH. split.
      * intros (outs & Hall & ->). exists (out :: outs).
        split; [constructor; assumption|]. simpl. rewrite app_assoc. reflexivity.
      * intros (outs & Hall & ->). inversion Hall as [|? out' ? outs' Hout Hall']; subst.
        rewrite Hx in Hout. injection Hout as <-.
        exists outs'. split; [exact Hall'|]. simpl. rewrite app_assoc. reflexivity.
    + split; [discriminate|].
      intros (outs & Hall & _). inversion Hall as [|? out' ? outs' Hout Hall']; subst.
      rewrite Hx in Hout. discriminate.
Qed.

Lemma traverseBookmark_step (fuel : nat) (objs : list hierInfo) (depth : Z)
  (ref : nat) :
  traverseBookmark (S fuel) objs depth ref
  = match objs !! ref with
    | None => Js.Throw Js.TypeError
    | Some bookmark =>
        Js.foldM
          (fun acc kid =>
             Js.bind (traverseBookmark fuel objs (depth + 1) kid)
               (fun l => Js.Ok (acc ++ l)))
          (bookmarkPuts depth bookmark)
          (default [] bookmark.(kids))
    end.
Proof. reflexivity. Qed.

Lemma traverseCalls_step (fuel : nat) (objs : list hierInfo) (depth : Z)
  (ref : nat) :
  traverseCalls (S fuel) objs depth ref
  = match objs !! ref with
    | None => Js.Throw Js.TypeError
    | Some bookmark =>
        Js.foldM
          (fun acc kid =>
             Js.bind (traverseCalls fuel objs (depth + 1) kid)
               (fun l => Js.Ok (acc ++ l)))
          [(depth, ref)]
          (default [] bookmark.(kids))
    end.
Proof. reflexivity. Qed.

(** X11: cycles are not detected.  If from an object one can go down
    through kids for ever (every object of some set that holds it has a kid
    in the set), traverseBookmark returns within no bound. *)
Theorem X11_traverseBookmark_never_returns_on_a_cycle :
  forall (objs : list hierInfo) (cyclic : nat -> Prop) (ref : nat),
    (forall r, cyclic r ->
       exists b k, objs !! r = Some b /\ k ∈ default [] b.(kids) /\ cyclic k) ->
    cyclic ref ->
    forall (fuel : nat) (depth : Z) (puts : list put),
      traverseBookmark fuel objs depth ref <> Js.Ok puts.
Proof.
  intros objs cyclic ref Hcyc Href fuel. revert ref Href.
  induction fuel as [|fuel IH]; intros ref Href depth puts Hrun; [discriminate|].
  rewrite traverseBookmark_step in Hrun.
  destruct (Hcyc ref Href) as (b & k & Hb & Hk & Hck).
  rewrite Hb in Hrun.
  apply foldM_collect in Hrun as (outs & Hall & _).
  apply list_elem_of_lookup in Hk as [i Hi].
  destruct (Forall2_lookup_l _ _ _ _ _ Hall Hi) as (out & _ & Hout).
  exact (IH k Hck _ _ Hout).
Qed.

(** X11 on a menu folder that is its own parent: slurpBookmarks makes it
    its own kid. *)
Lemma X11_cycle_witness :
  (forall r, r = 0%nat ->
     exists b k, Example2.loopContext.(heap) !! r = Some b
                 /\ k ∈ default [] b.(kids) /\ k = 0%nat)
  /\ forall (fuel : nat) (depth : Z) (puts : list put),
       traverseBookmark fuel Example2.loopContext.(heap) depth 0%nat <> Js.Ok puts.
Proof.
  assert (H : forall r, r = 0%nat ->
                exists b k, Example2.loopContext.(heap) !! r = Some b
                            /\ k ∈ default [] b.(kids) /\ k = 0%nat).
  { intros r ->. eexists. exists 0%nat. split; [vm_compute; reflexivity|].
    split; [apply list_elem_of_here|reflexivity]. }
  split; [exact H|].
  exact (X11_traverseBookmark_never_returns_on_a_cycle
           Example2.loopContext.(heap) (fun r => r = 0%nat) 0%nat H eq_refl).
Defined.

Lemma elem_of_concat {A : Type} (x : A) (ls : list (list A)) :
  x ∈ concat ls <-> exists l, x ∈ l /\ l ∈ ls.
Proof.
  induction ls as [|l0 ls IH]; simpl.
  - split; [intros H; apply elem_of_nil in H; contradiction|].
    intros (l & _ & H). apply elem_of_nil in H. contradiction.
  - rewrite elem_of_app, IH. split.
    + intros [H|(l & Hx & Hl)].
      * exists l0. split; [exact H|apply list_elem_of_here].
      * exists l. split; [exact Hx|apply list_elem_of_further; exact Hl].
    + intros (l & Hx & Hl). apply elem_of_cons in Hl as [->|Hl]; [left; exact Hx|].
      right. exists l. auto.
Qed.

Lemma traverseCalls_head (fuel : nat) (objs : list hierInfo) (depth : Z)
  (ref : nat) (calls : list (Z * nat)) :
  traverseCalls fuel objs depth ref = Js.Ok calls ->
  (depth, ref) ∈ calls.
Proof.
  destruct fuel as [|fuel]; [discriminate|].
  rewrite traverseCalls_step. destruct (objs !! ref); [|discriminate].
  intros H. apply foldM_collect in H as (outs & _ & ->).
  apply list_elem_of_here.
Qed.

Lemma reachesAt_from_kid (objs : list hierInfo) (start : nat) (d0 : Z)
  (b : hierInfo) (k : nat) (d : Z) (r : nat) :
  objs !! start = Some b ->
  k ∈ default [] b.(kids) ->
  reachesAt objs k (d0 + 1) d r ->
  reachesAt objs start d0 d r.
Proof.
  intros Hb Hk. induction 1 as [|d j bj r Hreach IH Hj Hr].
  - apply (reach_kid objs start d0 d0 start b k); [constructor|exact Hb|exact Hk].
  - apply (reach_kid objs start d0 d j bj r); assumption.
Qed.

(** Every call of a traversal is on an object reached from its start, at
    the depth it is reached at. *)
Lemma traverseCalls_sound (objs : list hierInfo) :
  forall (fuel : nat) (depth : Z) (ref : nat) (calls : list (Z * nat)),
    traverseCalls fuel objs depth ref = Js.Ok calls ->
    forall d r, (d, r) ∈ calls -> reachesAt objs ref depth d r.
Proof.
  induction fuel as [|fuel IH]; intros depth ref calls Hrun d r Hin;
    [discriminate|].
  rewrite traverseCalls_step in Hrun.
  destruct (objs !! ref) as [b|] eqn:Hb; [|discriminate].
  apply foldM_collect in Hrun as (outs & Hall & ->).
  apply elem_of_cons in Hin as [Heq|Hin].
  - injection Heq as -> ->. constructor.
  - apply elem_of_concat in Hin as (out & Hin & Hout).
    apply list_elem_of_lookup in Hout as [i Hi].
    destruct (Forall2_lookup_r _ _ _ _ _ Hall Hi) as (kid & Hkid & Hrun).
    apply (reachesAt_from_kid objs ref depth b kid); [exact Hb| |].
    + apply list_elem_of_lookup. eauto.
    + exact (IH _ _ _ Hrun d r Hin).
Qed.

(** The calls of a traversal are closed under going down to a kid. *)
Lemma traverseCalls_closed (objs : list hierInfo) :
  forall (fuel : nat) (depth : Z) (ref : nat) (calls : list (Z * nat)),
    traverseCalls fuel objs depth ref = Js.Ok calls ->
    forall d j b r,
      (d, j) ∈ calls -> objs !! j = Some b -> r ∈ default [] b.(kids) ->
      (d + 1, r) ∈ calls.
Proof.
  induction fuel as [|fuel IH]; intros depth ref calls Hrun d j bj r Hin Hj Hr;
    [discriminate|].
  rewrite traverseCalls_step in Hrun.
  destruct (objs !! ref) as [b|] eqn:Hb; [|discriminate].
  apply foldM_collect in Hrun as (outs & Hall & ->).
  apply list_elem_of_further.
  apply elem_of_cons in Hin as [Heq|Hin].
  - injection Heq as -> ->. rewrite Hb in Hj. injection Hj as <-.
    apply list_elem_of_lookup in Hr as [i Hi].
    destruct (Forall2_lookup_l _ _ _ _ _ Hall Hi) as (out & Hout & Hrun).
    apply elem_of_concat. exists out. split.
    + exact (traverseCalls_head _ _ _ _ _ Hrun).
    + apply list_elem_of_lookup. eauto.
  - apply elem_of_concat in Hin as (out & Hin & Hout).
    apply elem_of_concat. exists out. split; [|exact Hout].
    apply list_elem_of_lookup in Hout as [i Hi].
    destruct (Forall2_lookup_r _ _ _ _ _ Hall Hi) as (kid & Hkid & Hrun).
    exact (IH _ _ _ Hrun d j bj r Hin Hj Hr).
Qed.

(** X12: when traverseBookmark returns, its puts are the puts of its calls,
    and it was called once for every way down from the start: on the
    objects reached through kids, each at the depth it is reached at, and
    on nothing else.  So the depth in the key of a 'B' record is the
    distance of the bookmark from the root it was reached from. *)
Theorem X12_traverseBookmark_calls_are_the_objects_reached :
  forall (fuel : nat) (objs : list hierInfo) (depth : Z) (ref : nat)
         (puts : list put),
    traverseBookmark fuel objs depth ref = Js.Ok puts ->
    exists calls : list (Z * nat),
      traverseCalls fuel objs depth ref = Js.Ok calls
      /\ puts = putsOfCalls objs calls
      /\ forall d r, (d, r) ∈ calls <-> reachesAt objs ref depth d r.
Proof.
  intros fuel objs depth ref puts Hrun.
  rewrite traverseBookmark_calls in Hrun.
  destruct (traverseCalls fuel objs depth ref) as [calls|e] eqn:Hcalls;
    simpl in Hrun; [|discriminate].
  injection Hrun as <-. exists calls. split; [reflexivity|]. split; [reflexivity|].
  intros d r. split.
  - apply (traverseCalls_sound objs fuel depth ref calls Hcalls).
  - induction 1 as [|d j b r Hreach IH Hj Hr].
    + exact (traverseCalls_head _ _ _ _ _ Hcalls).
    + exact (traverseCalls_closed objs fuel depth ref calls Hcalls d j b r IH Hj Hr).
Qed.

(** X12 on the menu folder of the example: two calls, the folder at
    depth 0 and its bookmark at depth 1. *)
Lemma X12_calls_witness :
  traverseBookmark 2 Example.treeContext.(heap) 0 0%nat
  = Js.Ok (putsOfCalls Example.treeContext.(heap) [(0, 0%nat); (1, 3%nat)])
  /\ exists calls : list (Z * nat),
       traverseCalls 2 Example.treeContext.(heap) 0 0%nat = Js.Ok calls
       /\ putsOfCalls Example.treeContext.(heap) [(0, 0%nat); (1, 3%nat)]
          = putsOfCalls Example.treeContext.(heap) calls
       /\ forall d r, (d, r) ∈ calls
                      <-> reachesAt Example.treeContext.(heap) 0%nat 0 d r.
Proof.
  assert (H : traverseBookmark 2 Example.treeContext.(heap) 0 0%nat
              = Js.Ok (putsOfCalls Example.treeContext.(heap)
                         [(0, 0%nat); (1, 3%nat)]))
    by (vm_compute; reflexivity).
  split; [exact H|].
  exact (X12_traverseBookmark_calls_are_the_objects_reached
           2 Example.treeContext.(heap) 0 0%nat _ H).
Defined.

(** ** The batches of the place scan *)

Lemma countRow_batchesHold (st : transformState) (puts new : list put)
  (persisted : gset string) (objs objs' : list hierInfo) (host : string) :
  batchesHold st (puts, persisted, objs) ->
  batchesHold (countRow st (st.(batch) ++ new)
                 ({[ host ]} ∪ st.(faviconPersistedForReverseHost)) objs')
    (puts ++ new, {[ host ]} ∪ persisted, objs').
Proof.
  intros (Hputs & Hper & Hobjs). simpl in *. unfold countRow, batchesHold.
  destruct (BATCH_LIMIT <=? st.(batchCount)); simpl.
  - rewrite concat_app. simpl. rewrite !app_nil_r, app_assoc, Hputs, Hper. auto.
  - rewrite app_assoc, Hputs, Hper. auto.
Qed.

(** The batched scan and the scan without batches go the same way. *)
Lemma scan_simulates_unbatched url_parse (ctx : context) (rows : list placeRow) :
  forall st u,
    batchesHold st u ->
    match Js.foldM (transformPlaceRecords_row url_parse ctx) st rows,
          Js.foldM (unbatched_row url_parse ctx) u rows with
    | Js.Ok st', Js.Ok u' => batchesHold st' u'
    | Js.Throw e, Js.Throw e' => e = e'
    | _, _ => False
    end.
Proof.
  induction rows as [|row rows IH]; intros st [[puts persisted] objs] Hold; simpl.
  - exact Hold.
  - unfold transformPlaceRecords_row at 1.
    destruct Hold as (Hputs & Hper & Hobjs). simpl in Hper, Hobjs.
    subst persisted objs.
    destruct (rowPuts url_parse ctx _ _ row) as [[new objs']|e];
      simpl; [|reflexivity].
    apply IH.
    apply (countRow_batchesHold st puts new _ st.(objects) objs' (hostOf row)).
    split; [exact Hputs|]. split; reflexivity.
Qed.

Lemma transformPlaceRecords_unbatched :
  forall (url_parse : string -> Js.parsedUrl) (ctx : context) (rows : list placeRow),
    rmap (fun r : list (list put) * context => concat r.1)
      (transformPlaceRecords url_parse ctx rows)
    = unbatched url_parse ctx rows.
Proof.
  intros url_parse ctx rows. unfold transformPlaceRecords, unbatched.
  pose proof (scan_simulates_unbatched url_parse ctx rows (transformStart ctx)
                ([], ∅, ctx.(heap))) as Hsim.
  destruct (Js.foldM (transformPlaceRecords_row url_parse ctx) _ rows) as [st'|e],
           (Js.foldM (unbatched_row url_parse ctx) _ rows) as [u'|e'];
    simpl in *.
  - destruct Hsim as (Hputs & _); [repeat split|].
    rewrite concat_app. simpl. rewrite app_nil_r. f_equal. exact Hputs.
  - exfalso. apply Hsim. repeat split.
  - exfalso. apply Hsim. repeat split.
  - f_equal. apply Hsim. repeat split.
Qed.

(** X13: cutting the puts of the place scan into batches loses nothing and
    reorders nothing: when transformPlaceRecords returns, the batches it
    submitted, put end to end, are the puts of the rows one after the other;
    and it throws exactly when some row callback throws, with the same
    exception. *)
Theorem X13_batches_hold_the_puts_of_the_rows_in_order :
  forall (url_parse : string -> Js.parsedUrl) (ctx : context) (rows : list placeRow),
    match transformPlaceRecords url_parse ctx rows with
    | Js.Ok (batches, _) => unbatched url_parse ctx rows = Js.Ok (concat batches)
    | Js.Throw e => unbatched url_parse ctx rows = Js.Throw e
    end.
Proof.
  intros url_parse ctx rows.
  pose proof (transformPlaceRecords_unbatched url_parse ctx rows) as H.
  destruct (transformPlaceRecords url_parse ctx rows) as [[batches ctx']|e];
    simpl in H; symmetry; exact H.
Qed.

Lemma transformPlaceRecords_Ok_unbatched url_parse (ctx ctx' : context)
  (rows : list placeRow) (batches : list (list put)) :
  transformPlaceRecords url_parse ctx rows = Js.Ok (batches, ctx') ->
  unbatched url_parse ctx rows = Js.Ok (concat batches).
Proof.
  intros H. rewrite <- transformPlaceRecords_unbatched, H. reflexivity.
Qed.

(** The counter of the pending batch stays within 0..1000, and every
    submission accounts for 1001 rows. *)
Lemma scan_counter url_parse (ctx : context) (rows : list placeRow) :
  forall st st' : transformState,
    Js.foldM (transformPlaceRecords_row url_parse ctx) st rows = Js.Ok st' ->
    0 <= st.(batchCount) <= 1000 ->
    0 <= st'.(batchCount) <= 1000
    /\ st'.(batchCount) + 1001 * Z.of_nat (length st'.(submitted))
       = st.(batchCount) + 1001 * Z.of_nat (length st.(submitted))
         + Z.of_nat (length rows).
Proof.
  induction rows as [|row rows IH]; intros st st' Hrun Hc; simpl in Hrun.
  - injection Hrun as <-. simpl. lia.
  - unfold transformPlaceRecords_row at 1 in Hrun.
    destruct (rowPuts url_parse ctx _ _ row) as [[new objs']|e];
      simpl in Hrun; [|discriminate].
    apply IH in Hrun.
    + destruct Hrun as [Hb Heq]. split; [exact Hb|]. rewrite Heq.
      unfold countRow, BATCH_LIMIT. simpl length.
      destruct (1000 <=? st.(batchCount)) eqn:Hlim; simpl.
      * apply Z.leb_le in Hlim. rewrite length_app. simpl. lia.
      * lia.
    + unfold countRow, BATCH_LIMIT.
      destruct (1000 <=? st.(batchCount)) eqn:Hlim; simpl; [lia|].
      apply Z.leb_gt in Hlim. lia.
Qed.

(** X14: when transformPlaceRecords returns on n place rows, it has
    submitted n / 1001 batches during the scan and one more on completion:
    a batch is submitted on every 1001st row, whatever the rows hold. *)
Theorem X14_number_of_batches :
  forall (url_parse : string -> Js.parsedUrl) (ctx ctx' : context)
         (rows : list placeRow) (batches : list (list put)),
    transformPlaceRecords url_parse ctx rows = Js.Ok (batches, ctx') ->
    length batches = S (length rows / 1001).
Proof.
  intros url_parse ctx ctx' rows batches. unfold transformPlaceRecords.
  destruct (Js.foldM _ _ rows) as [st|e] eqn:Hscan; cbn [Js.bind];
    [|discriminate].
  intros H. injection H as <- _.
  destruct (scan_counter _ _ _ _ _ Hscan) as [Hb Heq]; [simpl; lia|].
  simpl in Heq. cbn [transformComplete submitted]. rewrite length_app.
  cbn [length]. rewrite Nat.add_1_r. f_equal.
  apply (Nat.div_unique _ _ _ (Z.to_nat st.(batchCount))); lia.
Qed.

(** X14 on five places: one batch, submitted on completion. *)
Lemma X14_batches_witness :
  transformPlaceRecords Example.parse emptyContext (Example.places 5)
  = Js.Ok ((Example2.transformed (Example.places 5)).1,
           (Example2.transformed (Example.places 5)).2)
  /\ length (Example2.transformed (Example.places 5)).1
     = S (length (Example.places 5) / 1001).
Proof.
  assert (H : transformPlaceRecords Example.parse emptyContext (Example.places 5)
              = Js.Ok ((Example2.transformed (Example.places 5)).1,
                       (Example2.transformed (Example.places 5)).2))
    by (vm_compute; reflexivity).
  split; [exact H|].
  exact (X14_number_of_batches Example.parse emptyContext _ (Example.places 5) _ H).
Defined.

(** ** What a place row puts *)

(** When the row callback returns, its puts are the site-metadata record,
    the records of the visits and the records of the typed inputs, in this
    order; no term was extracted, so no entry comes from the title, the
    host name or the tags. *)
Lemma rowPuts_shape url_parse (ctx : context) (persisted : gset string)
  (objs objs' : list hierInfo) (row : placeRow) (new : list put) :
  rowPuts url_parse ctx persisted objs row = Js.Ok (new, objs') ->
  new = (infoKey row, infoValue ctx row (bool_decide (hostOf row ∉ persisted)))
        :: flat_map (visitPuts row)
             (default [] (ctx.(visitsByPlaceId) !! row.(place_id)))
        ++ flat_map
             (inputPuts url_parse row
                (default [] (ctx.(inputHistoryByPlaceId) !! row.(place_id))))
             (default [] (ctx.(inputHistoryByPlaceId) !! row.(place_id))).
Proof.
  unfold rowPuts. rewrite extractTermsForPlace_result.
  destruct (omap _ _); [|discriminate].
  destruct (forallb _ _); [|discriminate].
  simpl. intros H. injection H as <- _. reflexivity.
Qed.

Lemma unbatched_fold_grows url_parse (ctx : context) (rows : list placeRow) :
  forall st st',
    Js.foldM (unbatched_row url_parse ctx) st rows = Js.Ok st' ->
    (exists more, st'.1.1 = st.1.1 ++ more)
    /\ st'.1.2 = list_to_set (hostOf <$> rows) ∪ st.1.2.
Proof.
  induction rows as [|row rows IH]; intros [[puts persisted] objs] st' Hrun;
    simpl in Hrun.
  - injection Hrun as <-. simpl. split; [exists []; rewrite app_nil_r; reflexivity|].
    set_solver.
  - destruct (rowPuts url_parse ctx persisted objs row) as [[new objs']|e];
      simpl in Hrun; [|discriminate].
    destruct (IH _ _ Hrun) as [[more Hmore] Hper]. simpl in *. split.
    + exists (new ++ more). rewrite Hmore, app_assoc. reflexivity.
    + rewrite Hper. set_solver.
Qed.

(** The puts of a row of the scan are among the puts of the scan, and they
    were made with the reversed hosts of the rows before it on record. *)
Lemma unbatched_row_of_scan url_parse (ctx : context)
  (before after : list placeRow) (row : placeRow) (puts : list put) :
  unbatched url_parse ctx (before ++ row :: after) = Js.Ok puts ->
  exists objs objs' new,
    rowPuts url_parse ctx (list_to_set (hostOf <$> before)) objs row
    = Js.Ok (new, objs')
    /\ forall p, p ∈ new -> p ∈ puts.
Proof.
  unfold unbatched. rewrite foldM_app.
  destruct (Js.foldM _ _ before) as [[[puts1 per1] objs1]|e] eqn:Hbefore;
    simpl; [|discriminate].
  destruct (unbatched_fold_grows _ _ _ _ _ Hbefore) as [_ Hper]. simpl in Hper.
  destruct (rowPuts url_parse ctx per1 objs1 row) as [[new objs']|e] eqn:Hrow;
    simpl; [|discriminate].
  destruct (Js.foldM _ _ after) as [[[puts2 per2] objs2]|e] eqn:Hafter;
    simpl; [|discriminate].
  intros H. injection H as <-.
  destruct (unbatched_fold_grows _ _ _ _ _ Hafter) as [[more Hmore] _].
  simpl in Hmore.
  exists objs1, objs', new. split.
  - rewrite <- Hrow. f_equal. rewrite Hper. set_solver.
  - intros p Hp. rewrite Hmore. set_solver.
Qed.

(** X15: the favicon goes to the first place of each reversed host.  Let
    the reversed host of a place be the name of no member of
    Object.prototype.  When transformPlaceRecords returns, the site-metadata
    record of the place is among the records submitted, and its favicon
    field is what the favicon table holds under the favicon id of the place
    (undefined when there is nothing) if no row before it has the same
    reversed host, and null otherwise.  (Under the name of a member of
    Object.prototype the look-up finds the member from the start, and the
    favicon stays null.) *)
Theorem X15_favicon_goes_to_the_first_place_of_a_host :
  forall (url_parse : string -> Js.parsedUrl) (ctx ctx' : context)
         (before after : list placeRow) (row : placeRow)
         (batches : list (list put)),
    hostOf row ∉ objectPrototypeNames ->
    transformPlaceRecords url_parse ctx (before ++ row :: after)
    = Js.Ok (batches, ctx') ->
    (infoKey row,
     infoValue ctx row (bool_decide (hostOf row ∉ hostOf <$> before)))
    ∈ concat batches.
Proof.
  intros url_parse ctx ctx' before after row batches _ Hrun.
  apply transformPlaceRecords_Ok_unbatched in Hrun.
  destruct (unbatched_row_of_scan _ _ _ _ _ _ Hrun) as (objs & objs' & new & Hrow & Hin).
  apply Hin. rewrite (rowPuts_shape _ _ _ _ _ _ _ Hrow).
  replace (bool_decide (hostOf row ∉ hostOf <$> before))
    with (bool_decide (hostOf row ∉ (list_to_set (hostOf <$> before) : gset string))).
  - apply list_elem_of_here.
  - apply bool_decide_ext. rewrite elem_of_list_to_set. reflexivity.
Qed.

(** X15 on two places of one host: the second gets a null favicon. *)
Lemma X15_favicon_witness :
  (hostOf (Example.numberedPlace 2) ∉ objectPrototypeNames)
  /\ transformPlaceRecords Example.parse emptyContext
       ([Example.numberedPlace 1] ++ Example.numberedPlace 2 :: [])
     = Js.Ok ((Example2.transformed (Example.places 2)).1,
              (Example2.transformed (Example.places 2)).2)
  /\ (infoKey (Example.numberedPlace 2),
      infoValue emptyContext (Example.numberedPlace 2)
        (bool_decide (hostOf (Example.numberedPlace 2)
                      ∉ hostOf <$> [Example.numberedPlace 1])))
     ∈ concat (Example2.transformed (Example.places 2)).1.
Proof.
  assert (H0 : hostOf (Example.numberedPlace 2) ∉ objectPrototypeNames).
  { apply (bool_decide_unpack _). vm_compute. exact I. }
  assert (H : transformPlaceRecords Example.parse emptyContext
                ([Example.numberedPlace 1] ++ Example.numberedPlace 2 :: [])
              = Js.Ok ((Example2.transformed (Example.places 2)).1,
                       (Example2.transformed (Example.places 2)).2))
    by (vm_compute; reflexivity).
  split; [exact H0|]. split; [exact H|].
  exact (X15_favicon_goes_to_the_first_place_of_a_host Example.parse emptyContext _
           [Example.numberedPlace 1] [] (Example.numberedPlace 2) _ H0 H).
Defined.

(** ** The site-metadata records of the pipeline *)

Lemma keysIn_app (tag : string) (p1 p2 : list put) :
  keysIn tag (p1 ++ p2) = keysIn tag p1 ++ keysIn tag p2.
Proof. unfold keysIn. rewrite map_app, List.filter_app. reflexivity. Qed.

Lemma keysIn_I_visits (row : placeRow) (visits : list visitInfo) :
  keysIn "I" (flat_map (visitPuts row) visits) = [].
Proof.
  apply keysIn_none. apply Forall_flat_map. apply Forall_forall. intros visit _.
  repeat constructor; apply prefix_first_ne; discriminate.
Qed.

Lemma keysIn_I_inputs url_parse (row : placeRow) (inputs l : list (string * Js.jsval)) :
  keysIn "I" (flat_map (inputPuts url_parse row inputs) l) = [].
Proof.
  apply keysIn_none. apply Forall_flat_map. apply Forall_forall.
  intros [typedStr countObj] _. unfold inputPuts.
  apply Forall_app. split.
  - repeat constructor; apply prefix_first_ne; discriminate.
  - destruct (2 <=? String.length typedStr)%nat; [|constructor].
    destruct (Js.hasOwnProperty inputs _); [constructor|].
    repeat constructor; apply prefix_first_ne; discriminate.
Qed.

Lemma keysIn_I_rowPuts url_parse (ctx : context) (persisted : gset string)
  (objs objs' : list hierInfo) (row : placeRow) (new : list put) :
  rowPuts url_parse ctx persisted objs row = Js.Ok (new, objs') ->
  keysIn "I" new = [infoKey row].
Proof.
  intros H. rewrite (rowPuts_shape _ _ _ _ _ _ _ H).
  change (keysIn "I" ([(infoKey row,
                        infoValue ctx row (bool_decide (hostOf row ∉ persisted)))]
                      ++ (flat_map (visitPuts row)
                            (default [] (ctx.(visitsByPlaceId) !! row.(place_id)))
                          ++ flat_map
                               (inputPuts url_parse row
                                  (default [] (ctx.(inputHistoryByPlaceId)
                                               !! row.(place_id))))
                               (default [] (ctx.(inputHistoryByPlaceId)
                                            !! row.(place_id)))))
          = [infoKey row]).
  rewrite !keysIn_app, keysIn_I_visits, keysIn_I_inputs, !app_nil_r.
  unfold keysIn, infoKey. simpl. rewrite prefix_empty. reflexivity.
Qed.

Lemma unbatched_fold_info_keys url_parse (ctx : context) (rows : list placeRow) :
  forall st st',
    Js.foldM (unbatched_row url_parse ctx) st rows = Js.Ok st' ->
    keysIn "I" st'.1.1 = keysIn "I" st.1.1 ++ map infoKey rows.
Proof.
  induction rows as [|row rows IH]; intros [[puts persisted] objs] st' Hrun;
    simpl in Hrun.
  - injection Hrun as <-. simpl. rewrite app_nil_r. reflexivity.
  - destruct (rowPuts url_parse ctx persisted objs row) as [[new objs']|e] eqn:Hrow;
      simpl in Hrun; [|discriminate].
    rewrite (IH _ _ Hrun). simpl.
    rewrite keysIn_app, (keysIn_I_rowPuts _ _ _ _ _ _ _ Hrow), <- app_assoc.
    reflexivity.
Qed.

(** X16: when the pipeline returns, its output holds one site-metadata
    record for each place, keyed by the reversed host and the url of the
    place, and these records come in the order of the places. *)
Theorem X16_one_site_metadata_record_per_place :
  forall (url_parse : string -> Js.parsedUrl) (db : snapshot)
         (batches : list (list put)),
    kickoffConversions url_parse db = Js.Ok batches ->
    keysIn "I" (concat batches) = map infoKey db.(moz_places).
Proof.
  intros url_parse db batches. unfold kickoffConversions.
  destruct (slurpAll db) as [ctx|e]; simpl; [|discriminate].
  destruct (transformPlaceRecords url_parse ctx _) as [[bs ctx']|e] eqn:Hrun;
    simpl; [|discriminate].
  intros H. injection H as <-.
  apply transformPlaceRecords_Ok_unbatched in Hrun. unfold unbatched in Hrun.
  destruct (Js.foldM _ _ db.(moz_places)) as [st'|e] eqn:Hscan;
    simpl in Hrun; [|discriminate].
  injection Hrun as <-.
  rewrite (unbatched_fold_info_keys _ _ _ _ _ Hscan). reflexivity.
Qed.

(** X16 on the scenario of the specification. *)
Lemma X16_site_metadata_witness :
  kickoffConversions Example.parse Example.visitsDb = Js.Ok [ [ Example.infoRecord ] ]
  /\ keysIn "I" (concat [ [ Example.infoRecord ] ])
     = map infoKey Example.visitsDb.(moz_places).
Proof.
  assert (H : kickoffConversions Example.parse Example.visitsDb
              = Js.Ok [ [ Example.infoRecord ] ]) by (vm_compute; reflexivity).
  split; [exact H|].
  exact (X16_one_site_metadata_record_per_place Example.parse Example.visitsDb _ H).
Defined.

(** ** When the pipeline returns *)

(** The root-linking loop gives no object a null title. *)
Lemma linkRoot_fold_keeps_titled (byId : gmap Z nat) (roots : list (string * Z))
  (p : nat) :
  forall (st st' : list (string * nat) * list hierInfo),
    Js.foldM (linkRoot byId) st roots = Js.Ok st' ->
    (forall obj, st.2 !! p = Some obj -> is_Some obj.(title)) ->
    forall obj, st'.2 !! p = Some obj -> is_Some obj.(title).
Proof.
  intros st st' Hrun.
  refine (foldM_invariant _
            (fun s => forall obj, s.2 !! p = Some obj -> is_Some obj.(title))
            _ _ _ _ Hrun).
  intros [hier objs] [rootName rootId] [hier' objs1] _ Hstep Hinv obj Hobj.
  simpl in *.
  destruct (byId !! rootId) as [p0|]; [|discriminate].
  injection Hstep as _ <-.
  destruct (decide (p0 = p)) as [->|Hne].
  - rewrite list_lookup_alter_eq in Hobj.
    destruct (objs !! p) as [h|]; [|discriminate].
    injection Hobj as <-. simpl. eauto.
  - rewrite list_lookup_alter_ne in Hobj by exact Hne. exact (Hinv obj Hobj).
Qed.

(** After the root-linking loop the folder of every root has a title. *)
Lemma linkRoot_fold_titled (byId : gmap Z nat) (roots : list (string * Z))
  (root : string * Z) (p : nat) :
  root ∈ roots -> byId !! root.2 = Some p ->
  forall (st st' : list (string * nat) * list hierInfo),
    Js.foldM (linkRoot byId) st roots = Js.Ok st' ->
    forall obj, st'.2 !! p = Some obj -> is_Some obj.(title).
Proof.
  intros Hin Hp. induction roots as [|[n0 r0] roots IH]; intros [hier objs] st' Hrun.
  - apply elem_of_nil in Hin. contradiction.
  - simpl in Hrun.
    destruct (byId !! r0) as [p0|] eqn:Hp0; simpl in Hrun; [|discriminate].
    apply elem_of_cons in Hin as [->|Hin].
    + simpl in Hp. assert (p0 = p) as -> by congruence.
      apply (linkRoot_fold_keeps_titled _ _ p _ _ Hrun). simpl.
      intros obj Hobj. rewrite list_lookup_alter_eq in Hobj.
      destruct (objs !! p) as [h|]; [|discriminate].
      injection Hobj as <-. simpl. eauto.
    + exact (IH Hin _ _ Hrun).
Qed.

(** When the Tags root has a title, every tag recorded by the
    child-linking loop is a string. *)
Lemma linkChild_fold_tags (TAG_ROOT_ID : option Z) (byId : gmap Z nat)
  (refs : list nat) :
  forall (st st' : gmap (option Z) (list (option string)) * list hierInfo),
    Js.foldM (linkChild TAG_ROOT_ID byId) st refs = Js.Ok st' ->
    (forall t p obj, TAG_ROOT_ID = Some t -> byId !! t = Some p ->
                     st.2 !! p = Some obj -> is_Some obj.(title)) ->
    (forall pl tags, st.1 !! pl = Some tags -> Forall is_Some tags) ->
    forall pl tags, st'.1 !! pl = Some tags -> Forall is_Some tags.
Proof.
  intros st st' Hrun Htitled Htags.
  refine (proj2 (foldM_invariant _
            (fun s =>
               (forall t p obj, TAG_ROOT_ID = Some t -> byId !! t = Some p ->
                                s.2 !! p = Some obj -> is_Some obj.(title))
               /\ (forall pl tags, s.1 !! pl = Some tags -> Forall is_Some tags))
            _ _ _ _ Hrun (conj Htitled Htags))).
  clear. intros [tagsBy objs] ref [tagsBy' objs'] _ Hstep [Ht Hg]. simpl in *.
  destruct (objs !! ref) as [h|]; [|discriminate].
  destruct (Js.strictEqId h.(parentId) TAG_ROOT_ID) eqn:Heq.
  - destruct h.(parentId) as [par|]; [|discriminate].
    destruct TAG_ROOT_ID as [t|]; [|discriminate].
    simpl in Heq. apply Z.eqb_eq in Heq. subst par. simpl in Hstep.
    destruct (byId !! t) as [p|] eqn:Hp; simpl in Hstep; [|discriminate].
    destruct (objs !! p) as [parentObj|] eqn:Hobj; [|discriminate].
    injection Hstep as <- <-. split; [exact Ht|].
    intros pl tags Hl.
    destruct (decide (h.(placeId) = pl)) as [Hpl|Hne].
    + subst pl. rewrite lookup_insert_eq in Hl. injection Hl as <-.
      apply Forall_app. split.
      * destruct (tagsBy !! h.(placeId)) as [l|] eqn:Hl; simpl; [|constructor].
        exact (Hg _ l Hl).
      * constructor; [|constructor]. exact (Ht t p parentObj eq_refl Hp Hobj).
    + rewrite lookup_insert_ne in Hl by exact Hne. exact (Hg pl tags Hl).
  - destruct (h.(parentId) ≫= _) as [p0|]; injection Hstep as <- <-;
      [|split; assumption].
    split; [|exact Hg]. intros t p obj HT Hp Hobj.
    destruct (decide (p0 = p)) as [->|Hne].
    + rewrite list_lookup_alter_eq in Hobj.
      destruct (objs !! p) as [h0|] eqn:Hh0; [|discriminate].
      injection Hobj as <-. simpl. exact (Ht t p h0 HT Hp Hh0).
    + rewrite list_lookup_alter_ne in Hobj by exact Hne.
      exact (Ht t p obj HT Hp Hobj).
Qed.

(** Every tag that slurpBookmarks records is a string: it is the title of
    the folder of the root "tags", which the root-linking loop has set. *)
Lemma slurpBookmarks_tags_are_strings (ctx ctx' : context) (rows : list bookmarkRow) :
  slurpBookmarks ctx rows = Js.Ok ctx' ->
  forall pl tags, ctx'.(tagsByPlaceId) !! pl = Some tags -> Forall is_Some tags.
Proof.
  intros H. open_slurpBookmarks H. simpl.
  refine (linkChild_fold_tags _ _ _ _ _ Hkids _ _).
  - simpl. intros t p obj Ht Hp Hobj. apply objGet_Some_elem in Ht.
    exact (linkRoot_fold_titled _ _ ("tags", t) p Ht Hp _ _ Hroots obj Hobj).
  - simpl. intros pl tags Hl. rewrite lookup_empty in Hl. discriminate.
Qed.

(** X17: the slurps return exactly when the folder of every bookmark root
    is a row of the bookmark table; otherwise slurpBookmarks throws a
    TypeError.  (No root is named [__proto__].)  And in the context they
    leave, extractTermsForPlace throws for no place, whatever its url and
    title are: no bookmark is linked to a place, and every tag recorded is a
    string, the title that the root-linking loop gave to the folder of the
    root "tags". *)
Theorem X17_slurps_return_exactly_when_every_root_has_a_row :
  forall db : snapshot,
    Forall (fun row => row.(root_name) <> "__proto__") db.(moz_bookmarks_roots) ->
    let roots :=
      (slurpBookmarkRoots emptyContext db.(moz_bookmarks_roots)).(bookmarkRoots) in
    if forallb (fun root => hasRow db.(moz_bookmarks) root.2) roots
    then exists ctx,
           slurpAll db = Js.Ok ctx
           /\ forall (url : Js.parsedUrl) (place : placeRow),
                extractTermsForPlace url place.(place_title)
                  (omap (fun ref => ctx.(heap) !! ref)
                     (default [] (ctx.(bookmarksByPlaceId) !! Some place.(place_id))))
                  (default [] (ctx.(tagsByPlaceId) !! Some place.(place_id)))
                = Js.Ok []
    else slurpAll db = Js.Throw Js.TypeError.
Proof.
  intros db _ roots.
  destruct (forallb _ roots) eqn:Hall.
  - assert (Hroots : Forall (fun root => hasRow db.(moz_bookmarks) root.2 = true) roots).
    { apply Forall_forall. intros root Hin. rewrite forallb_forall in Hall.
      apply Hall. apply list_elem_of_In. exact Hin. }
    unfold slurpAll.
    set (ctx := slurpBookmarkRoots _ _).
    assert (Hctx : ctx.(bookmarkRoots) = roots) by reflexivity.
    clearbody ctx roots. rewrite <- Hctx in Hroots. clear Hctx Hall roots.
    assert (Hslurp : exists ctx', slurpBookmarks ctx db.(moz_bookmarks) = Js.Ok ctx').
    { unfold slurpBookmarks, slurpBookmarks_complete.
      set (scan := slurpBookmarks_scan ctx db.(moz_bookmarks)).
      assert (Hbound : Forall (fun root => is_Some (scan.(bookmarksById) !! root.2))
                         ctx.(bookmarkRoots)).
      { eapply Forall_impl; [exact Hroots|]. intros root Hroot.
        apply scan_byId_hasRow. exact Hroot. }
      destruct (linkRoot_fold_returns _ _ Hbound ([], scan.(flatBookmarks)))
        as ([hierarchy objs] & Hrun & Hsk).
      rewrite Hrun. simpl in *.
      destruct (linkChild_fold_returns (Js.objGet ctx.(bookmarkRoots) "tags")
                  scan.(bookmarksById) (length objs) (seq 0 (length objs)))
        with (st := (∅ : gmap (option Z) (list (option string)), objs))
        as ([tagsBy objs'] & Hrun' & _).
      - intros k p Hp.
        destruct (slurpBookmarks_scan_byId_sound ctx db.(moz_bookmarks) k p Hp)
          as (row & Hrow & _).
        apply lookup_lt_Some in Hrow.
        rewrite (skeleton_length _ _ Hsk). subst scan.
        rewrite slurpBookmarks_scan_flat, length_map. exact Hrow.
      - intros t Ht. apply objGet_Some_elem in Ht.
        rewrite Forall_forall in Hbound. exact (Hbound _ Ht).
      - apply Forall_forall. intros ref Href. apply elem_of_seq in Href. lia.
      - reflexivity.
      - rewrite Hrun'. simpl. eauto. }
    destruct Hslurp as [ctx' Hslurp]. exists ctx'. split; [exact Hslurp|].
    intros url place.
    rewrite (slurpBookmarks_links_nothing _ _ _ Hslurp), lookup_empty. simpl.
    rewrite extractTermsForPlace_result.
    replace (forallb _ _) with true; [reflexivity|].
    symmetry. apply forallb_forall. intros tag Hin.
    apply bool_decide_eq_true.
    destruct (ctx'.(tagsByPlaceId) !! Some place.(place_id)) as [tags|] eqn:Hl;
      simpl in Hin; [|contradiction].
    pose proof (slurpBookmarks_tags_are_strings _ _ _ Hslurp _ _ Hl) as Htags.
    rewrite Forall_forall in Htags.
    apply Htags. apply list_elem_of_In. exact Hin.
  - assert (Hmiss : Exists (fun root => hasRow db.(moz_bookmarks) root.2 = false) roots).
    { apply Exists_exists.
      apply not_true_iff_false in Hall.
      destruct (existsb (fun root => negb (hasRow db.(moz_bookmarks) root.2)) roots)
        eqn:Hex.
      - apply existsb_exists in Hex as (root & Hin & Hneg).
        exists root. split; [apply list_elem_of_In; exact Hin|].
        apply negb_true_iff in Hneg. exact Hneg.
      - exfalso. apply Hall. apply forallb_forall. intros root Hin.
        destruct (hasRow db.(moz_bookmarks) root.2) eqn:Hhas; [reflexivity|].
        assert (existsb (fun root => negb (hasRow db.(moz_bookmarks) root.2)) roots
                = true); [|congruence].
        apply existsb_exists. exists root. split; [exact Hin|].
        rewrite Hhas. reflexivity. }
    unfold slurpAll.
    set (ctx := slurpBookmarkRoots _ _).
    assert (Hctx : ctx.(bookmarkRoots) = roots) by reflexivity.
    clearbody ctx roots. rewrite <- Hctx in Hmiss. clear Hctx Hall roots.
    unfold slurpBookmarks, slurpBookmarks_complete.
    rewrite linkRoot_fold_missing; [reflexivity|].
    eapply Exists_impl; [exact Hmiss|]. intros root Hroot. simpl.
    destruct (_ !! root.2) eqn:Hk; [|reflexivity].
    assert (Hs : is_Some ((slurpBookmarks_scan ctx db.(moz_bookmarks)).(bookmarksById)
                          !! root.2)) by eauto.
    apply scan_byId_hasRow in Hs. simpl in Hroot. congruence.
Qed.

(** X17 on the bookmarks of the example, where both roots have their
    folder, and the tag "tags" is recorded for place 7. *)
Lemma X17_slurps_witness :
  Forall (fun row => row.(root_name) <> "__proto__")
    Example.bookmarksDb.(moz_bookmarks_roots)
  /\ exists ctx,
       slurpAll Example.bookmarksDb = Js.Ok ctx
       /\ forall (url : Js.parsedUrl) (place : placeRow),
            extractTermsForPlace url place.(place_title)
              (omap (fun ref => ctx.(heap) !! ref)
                 (default [] (ctx.(bookmarksByPlaceId) !! Some place.(place_id))))
              (default [] (ctx.(tagsByPlaceId) !! Some place.(place_id)))
            = Js.Ok [].
Proof.
  assert (H : Forall (fun row => row.(root_name) <> "__proto__")
                Example.bookmarksDb.(moz_bookmarks_roots)).
  { repeat constructor; discriminate. }
  split; [exact H|].
  exact (X17_slurps_return_exactly_when_every_root_has_a_row Example.bookmarksDb H).
Defined.

(** ** The typed inputs in the output *)

(** The input dictionaries that reach the place pass are those of
    slurpInputHistory. *)
Lemma slurpAll_inputs (db : snapshot) (ctx : context) (p : Z) (typedStr : string) :
  slurpAll db = Js.Ok ctx ->
  (ctx.(inputHistoryByPlaceId) !! p) ≫= (fun inputs => Js.objGet inputs typedStr)
  = (fun row => Js.JObj [("useCount", row.(use_count))])
      <$> find (fun row => (row.(ih_place_id) =? p) && String.eqb row.(input) typedStr)
            (rev db.(moz_inputhistory)).
Proof.
  unfold slurpAll. intros H. apply slurpBookmarks_inputHistory in H.
  rewrite H. simpl.
  rewrite (fold_left_ext _ _ _ slurpInputHistory_row_files).
  rewrite (fold_group_lookup ih_place_id input
             (fun row => Js.JObj [("useCount", row.(use_count))])), lookup_empty.
  destruct (find _ _); reflexivity.
Qed.

(** Whatever the row callback puts for a place of the table is in the
    output of the pipeline. *)
Lemma kickoffConversions_row url_parse (db : snapshot) (batches : list (list put))
  (place : placeRow) :
  kickoffConversions url_parse db = Js.Ok batches ->
  place ∈ db.(moz_places) ->
  exists ctx,
    slurpAll db = Js.Ok ctx
    /\ forall entry p,
         entry ∈ default [] (ctx.(inputHistoryByPlaceId) !! place.(place_id)) ->
         p ∈ inputPuts url_parse place
               (default [] (ctx.(inputHistoryByPlaceId) !! place.(place_id))) entry ->
         p ∈ concat batches.
Proof.
  unfold kickoffConversions. intros H Hin.
  destruct (slurpAll db) as [ctx|e] eqn:Hctx; simpl in H; [|discriminate].
  destruct (transformPlaceRecords url_parse ctx _) as [[bs ctx']|e] eqn:Hrun;
    simpl in H; [|discriminate].
  injection H as <-.
  exists ctx. split; [reflexivity|]. intros entry p Hentry Hp.
  apply list_elem_of_split in Hin as (before & after & Hsplit).
  rewrite Hsplit in Hrun.
  apply transformPlaceRecords_Ok_unbatched in Hrun.
  destruct (unbatched_row_of_scan _ _ _ _ _ _ Hrun)
    as (objs & objs' & new & Hrow & Hnew).
  apply Hnew. rewrite (rowPuts_shape _ _ _ _ _ _ _ Hrow).
  apply list_elem_of_further. apply elem_of_app. right.
  apply list_elem_of_In. apply in_flat_map. exists entry.
  split; apply list_elem_of_In; assumption.
Qed.

(** X18: the typed inputs reach the output with their last use count.
    Let neither [__proto__] nor [hasOwnProperty] be among the strings typed
    for a place of the places table.  When the pipeline returns, for a
    string typed for this place the output holds the adaptive record of the
    string and the url, whose value is the use count of the last row of the
    input table for this place and string, and the autocomplete entry of
    the string itself; and when the string, of ASCII characters, has two
    characters or more and the string without its last character was not
    typed for the place, also the autocomplete entry of this shorter
    prefix. *)
Theorem X18_typed_inputs_are_written_with_their_last_use_count :
  forall (url_parse : string -> Js.parsedUrl) (db : snapshot)
         (batches : list (list put)) (place : placeRow)
         (typedStr : string) (ih : inputHistoryRow),
    kickoffConversions url_parse db = Js.Ok batches ->
    place ∈ db.(moz_places) ->
    Forall (fun row => row.(ih_place_id) = place.(place_id) ->
                       row.(input) <> "__proto__"
                       /\ row.(input) <> "hasOwnProperty")
      db.(moz_inputhistory) ->
    find (fun row => (row.(ih_place_id) =? place.(place_id))
                     && String.eqb row.(input) typedStr)
      (rev db.(moz_inputhistory)) = Some ih ->
    ("a" +:+ Js.NUL +:+ typedStr +:+ Js.NUL +:+ place.(place_url),
     Js.JObj [("useCount", ih.(use_count))]) ∈ concat batches
    /\ emitAwesome url_parse place typedStr typedStr ∈ concat batches
    /\ (isAscii typedStr = true ->
        (2 <= String.length typedStr)%nat ->
        find (fun row => (row.(ih_place_id) =? place.(place_id))
                         && String.eqb row.(input) (Js.dropLast typedStr))
          (rev db.(moz_inputhistory)) = None ->
        emitAwesome url_parse place (Js.dropLast typedStr) typedStr ∈ concat batches).
Proof.
  intros url_parse db batches place typedStr ih Hrun Hplace _ Hfind.
  destruct (kickoffConversions_row _ _ _ _ Hrun Hplace) as (ctx & Hctx & Hputs).
  pose proof (slurpAll_inputs db ctx place.(place_id) typedStr Hctx) as Hget.
  rewrite Hfind in Hget. simpl in Hget.
  pose proof (slurpAll_inputs db ctx place.(place_id) (Js.dropLast typedStr) Hctx)
    as Hshort.
  destruct (ctx.(inputHistoryByPlaceId) !! place.(place_id)) as [inputs|];
    simpl in *; [|discriminate].
  apply objGet_Some_elem in Hget.
  pose proof (fun p => Hputs _ p Hget) as Hput. clear Hputs.
  unfold inputPuts in Hput.
  split; [apply Hput; apply elem_of_app; left; apply list_elem_of_here|].
  split.
  - apply Hput. apply elem_of_app. left.
    apply list_elem_of_further, list_elem_of_here.
  - intros _ Hlen Hnone. rewrite Hnone in Hshort. simpl in Hshort.
    apply Hput. apply elem_of_app. right.
    replace (2 <=? String.length typedStr)%nat with true
      by (symmetry; apply Nat.leb_le; exact Hlen).
    unfold Js.hasOwnProperty. rewrite Hshort. apply list_elem_of_here.
Qed.

(** X18 on a place for which "exa" was typed, with use counts 2 and then
    5. *)
Lemma X18_typed_inputs_witness :
  kickoffConversions Example.parse Example2.typedDb
  = Js.Ok (Example2.converted Example2.typedDb)
  /\ Example.place 50000 ∈ Example2.typedDb.(moz_places)
  /\ Forall (fun row => row.(ih_place_id) = (Example.place 50000).(place_id) ->
                        row.(input) <> "__proto__"
                        /\ row.(input) <> "hasOwnProperty")
       Example2.typedDb.(moz_inputhistory)
  /\ find (fun row => (row.(ih_place_id) =? (Example.place 50000).(place_id))
                      && String.eqb row.(input) "exa")
       (rev Example2.typedDb.(moz_inputhistory))
     = Some (Example2.typedRow "exa" 5)
  /\ ("a" +:+ Js.NUL +:+ "exa" +:+ Js.NUL +:+ (Example.place 50000).(place_url),
      Js.JObj [("useCount", (Example2.typedRow "exa" 5).(use_count))])
     ∈ concat (Example2.converted Example2.typedDb)
  /\ emitAwesome Example.parse (Example.place 50000) "exa" "exa"
     ∈ concat (Example2.converted Example2.typedDb)
  /\ (isAscii "exa" = true ->
      (2 <= String.length "exa")%nat ->
      find (fun row => (row.(ih_place_id) =? (Example.place 50000).(place_id))
                       && String.eqb row.(input) (Js.dropLast "exa"))
        (rev Example2.typedDb.(moz_inputhistory)) = None ->
      emitAwesome Example.parse (Example.place 50000) (Js.dropLast "exa") "exa"
      ∈ concat (Example2.converted Example2.typedDb)).
Proof.
  assert (H1 : kickoffConversions Example.parse Example2.typedDb
               = Js.Ok (Example2.converted Example2.typedDb))
    by (vm_compute; reflexivity).
  assert (H2 : Example.place 50000 ∈ Example2.typedDb.(moz_places))
    by apply list_elem_of_here.
  assert (H3 : Forall (fun row => row.(ih_place_id) = (Example.place 50000).(place_id) ->
                                  row.(input) <> "__proto__"
                                  /\ row.(input) <> "hasOwnProperty")
                 Example2.typedDb.(moz_inputhistory)).
  { repeat constructor; discriminate. }
  assert (H4 : find (fun row => (row.(ih_place_id) =? (Example.place 50000).(place_id))
                                && String.eqb row.(input) "exa")
                 (rev Example2.typedDb.(moz_inputhistory))
               = Some (Example2.typedRow "exa" 5)) by reflexivity.
  split; [exact H1|]. split; [exact H2|]. split; [exact H3|]. split; [exact H4|].
  exact (X18_typed_inputs_are_written_with_their_last_use_count
           Example.parse Example2.typedDb _ (Example.place 50000) "exa"
           (Example2.typedRow "exa" 5) H1 H2 H3 H4).
Defined.

(** ** The descending codec within its contract *)

Lemma compare_flip (a b m : Z) : (m - a ?= m - b) = (b ?= a).
Proof.
  destruct (Z.compare_spec b a) as [H|H|H].
  - apply Z.compare_eq_iff. lia.
  - apply Z.compare_lt_iff. lia.
  - apply Z.compare_gt_iff. lia.
Qed.

(** X19: the contract of invertAndPadNumber, on the integers that the
    doubles of the source hold exactly.  Let [max] and the values be within
    Number.MAX_SAFE_INTEGER, and so the distances of the values to [max];
    for at most 31 digits and distances that are not negative and fit in
    [digits] decimal digits, the encoding has exactly [digits] characters
    and the encodings compare, as strings, in the reverse of the order of
    the values; so distinct values have distinct encodings. *)
Theorem X19_invertAndPadNumber_reverses_the_order :
  forall v1 v2 max digits : Z,
    1 <= digits <= 31 ->
    Z.abs max <= MAX_SAFE_INTEGER ->
    Z.abs v1 <= MAX_SAFE_INTEGER ->
    Z.abs v2 <= MAX_SAFE_INTEGER ->
    0 <= max - v1 < 10 ^ digits ->
    max - v1 <= MAX_SAFE_INTEGER ->
    0 <= max - v2 < 10 ^ digits ->
    max - v2 <= MAX_SAFE_INTEGER ->
    Z.of_nat (String.length (invertAndPadNumber v1 max digits)) = digits
    /\ String.compare (invertAndPadNumber v1 max digits)
         (invertAndPadNumber v2 max digits) = (v2 ?= v1).
Proof.
  intros v1 v2 max digits Hdigits _ _ _ H1 _ H2 _.
  rewrite !invertAndPadNumber_fixedDigits by assumption.
  split.
  - rewrite length_fixedDigits. simpl. lia.
  - rewrite compare_fixedDigits by (rewrite Z2Nat.id; lia).
    rewrite compare_flip. destruct (v2 ?= v1); reflexivity.
Qed.

(** X19 at the frecencies 900 and 20000. *)
Lemma X19_codec_witness :
  1 <= FRECENCY_DIGITS <= 31
  /\ Z.abs MAX_FRECENCY <= MAX_SAFE_INTEGER
  /\ Z.abs 900 <= MAX_SAFE_INTEGER
  /\ Z.abs 20000 <= MAX_SAFE_INTEGER
  /\ 0 <= MAX_FRECENCY - 900 < 10 ^ FRECENCY_DIGITS
  /\ MAX_FRECENCY - 900 <= MAX_SAFE_INTEGER
  /\ 0 <= MAX_FRECENCY - 20000 < 10 ^ FRECENCY_DIGITS
  /\ MAX_FRECENCY - 20000 <= MAX_SAFE_INTEGER
  /\ Z.of_nat (String.length (invertAndPadNumber 900 MAX_FRECENCY FRECENCY_DIGITS))
     = FRECENCY_DIGITS
  /\ String.compare (invertAndPadNumber 900 MAX_FRECENCY FRECENCY_DIGITS)
       (invertAndPadNumber 20000 MAX_FRECENCY FRECENCY_DIGITS) = (20000 ?= 900).
Proof.
  assert (H1 : 1 <= FRECENCY_DIGITS <= 31) by (vm_compute; split; discriminate).
  assert (Hm : Z.abs MAX_FRECENCY <= MAX_SAFE_INTEGER) by (vm_compute; discriminate).
  assert (Ha : Z.abs 900 <= MAX_SAFE_INTEGER) by (vm_compute; discriminate).
  assert (Hb : Z.abs 20000 <= MAX_SAFE_INTEGER) by (vm_compute; discriminate).
  assert (H2 : 0 <= MAX_FRECENCY - 900 < 10 ^ FRECENCY_DIGITS)
    by (vm_compute; split; [discriminate|reflexivity]).
  assert (H2' : MAX_FRECENCY - 900 <= MAX_SAFE_INTEGER) by (vm_compute; discriminate).
  assert (H3 : 0 <= MAX_FRECENCY - 20000 < 10 ^ FRECENCY_DIGITS)
    by (vm_compute; split; [discriminate|reflexivity]).
  assert (H3' : MAX_FRECENCY - 20000 <= MAX_SAFE_INTEGER) by (vm_compute; discriminate).
  split; [exact H1|]. split; [exact Hm|]. split; [exact Ha|]. split; [exact Hb|].
  split; [exact H2|]. split; [exact H2'|]. split; [exact H3|]. split; [exact H3'|].
  exact (X19_invertAndPadNumber_reverses_the_order 900 20000 MAX_FRECENCY
           FRECENCY_DIGITS H1 Hm Ha Hb H2 H2' H3 H3').
Defined.

(** ** The keys of the legal dates *)

(** A distance to [max] with [w] decimal digits, [w] not less than
    [digits], is written without padding. *)
Lemma invertAndPadNumber_unpadded (val max digits : Z) (w : nat) :
  (1 <= w)%nat -> digits <= Z.of_nat w ->
  10 ^ (Z.of_nat w - 1) <= max - val < 10 ^ Z.of_nat w ->
  invertAndPadNumber val max digits = fixedDigits w (max - val) "".
Proof.
  intros Hw Hdigits Hm. unfold invertAndPadNumber.
  assert (Hpos : 0 < 10 ^ (Z.of_nat w - 1)) by (apply Z.pow_pos_nonneg; lia).
  destruct (numToString_fixedDigits (max - val) ltac:(lia))
    as (k & Hk & Heq & Hlt & Hge).
  assert (k = w) as ->.
  { assert (H1 : 10 ^ (Z.of_nat w - 1) < 10 ^ Z.of_nat k) by lia.
    apply Z.pow_lt_mono_r_iff in H1; [|lia|lia].
    destruct Hge as [->|Hge]; [lia|].
    assert (H2 : 10 ^ (Z.of_nat k - 1) < 10 ^ Z.of_nat w) by lia.
    apply Z.pow_lt_mono_r_iff in H2; lia. }
  rewrite Heq, length_fixedDigits. simpl String.length.
  unfold Js.substring0.
  replace (Z.to_nat (digits - Z.of_nat (w + 0))) with 0%nat by lia.
  reflexivity.
Qed.

(** X20: the keys of the timestamps between the two legal dates.  Up to
    1871676800000 ms the key has 13 characters, one more than DATE_DIGITS,
    and after it 12; among the timestamps on one side of this bound the keys
    compare, as strings, in the reverse of the order of the timestamps. *)
Theorem X20_lexiformTimestamp_reverses_the_order_on_each_side :
  forall v1 v2 : Z,
    OLDEST_LEGAL_DATE <= v1 <= MOST_FUTURE_LEGAL_DATE ->
    OLDEST_LEGAL_DATE <= v2 <= MOST_FUTURE_LEGAL_DATE ->
    (v1 <=? 1871676800000) = (v2 <=? 1871676800000) ->
    Z.of_nat (String.length (lexiformTimestamp v1))
    = (if v1 <=? 1871676800000 then DATE_DIGITS + 1 else DATE_DIGITS)
    /\ String.compare (lexiformTimestamp v1) (lexiformTimestamp v2) = (v2 ?= v1).
Proof.
  intros v1 v2.
  assert (Hold : OLDEST_LEGAL_DATE = 946684800000) by (vm_compute; reflexivity).
  assert (Hnew : MOST_FUTURE_LEGAL_DATE = 1924992000000) by (vm_compute; reflexivity).
  assert (Hdig : DATE_DIGITS = 12) by (vm_compute; reflexivity).
  assert (H12 : 10 ^ 12 = 1000000000000) by reflexivity.
  assert (H13 : 10 ^ 13 = 10000000000000) by reflexivity.
  unfold lexiformTimestamp. rewrite Hold, Hnew, Hdig. clear Hold Hnew Hdig.
  intros H1 H2 Hside.
  destruct (v1 <=? 1871676800000) eqn:Hv1; symmetry in Hside.
  - apply Z.leb_le in Hv1, Hside.
    rewrite !(invertAndPadNumber_unpadded _ _ 12 13)
      by (try change (Z.of_nat 13 - 1) with 12; try change (Z.of_nat 13) with 13; lia).
    split; [rewrite length_fixedDigits; reflexivity|].
    rewrite compare_fixedDigits by (change (Z.of_nat 13) with 13; lia).
    replace (1924992000000 - (v1 - 946684800000)) with (2871676800000 - v1) by lia.
    replace (1924992000000 - (v2 - 946684800000)) with (2871676800000 - v2) by lia.
    rewrite compare_flip. destruct (v2 ?= v1); reflexivity.
  - apply Z.leb_gt in Hv1, Hside.
    rewrite !invertAndPadNumber_fixedDigits by lia.
    split; [rewrite length_fixedDigits; reflexivity|].
    rewrite compare_fixedDigits by (change (Z.of_nat (Z.to_nat 12)) with 12; lia).
    replace (1924992000000 - (v1 - 946684800000)) with (2871676800000 - v1) by lia.
    replace (1924992000000 - (v2 - 946684800000)) with (2871676800000 - v2) by lia.
    rewrite compare_flip. destruct (v2 ?= v1); reflexivity.
Qed.

(** X20 at the two visits of the scenario of the specification. *)
Lemma X20_timestamps_witness :
  OLDEST_LEGAL_DATE <= 1373000000000 <= MOST_FUTURE_LEGAL_DATE
  /\ OLDEST_LEGAL_DATE <= 1373000005000 <= MOST_FUTURE_LEGAL_DATE
  /\ (1373000000000 <=? 1871676800000) = (1373000005000 <=? 1871676800000)
  /\ Z.of_nat (String.length (lexiformTimestamp 1373000000000))
     = (if 1373000000000 <=? 1871676800000 then DATE_DIGITS + 1 else DATE_DIGITS)
  /\ String.compare (lexiformTimestamp 1373000000000)
       (lexiformTimestamp 1373000005000) = (1373000005000 ?= 1373000000000).
Proof.
  assert (H1 : OLDEST_LEGAL_DATE <= 1373000000000 <= MOST_FUTURE_LEGAL_DATE)
    by (vm_compute; split; discriminate).
  assert (H2 : OLDEST_LEGAL_DATE <= 1373000005000 <= MOST_FUTURE_LEGAL_DATE)
    by (vm_compute; split; discriminate).
  assert (H3 : (1373000000000 <=? 1871676800000)
               = (1373000005000 <=? 1871676800000)) by reflexivity.
  split; [exact H1|]. split; [exact H2|]. split; [exact H3|].
  exact (X20_lexiformTimestamp_reverses_the_order_on_each_side
           1373000000000 1373000005000 H1 H2 H3).
Defined.

(** ** The prefixes of a term above the threshold *)

Lemma substring0_substring0 (s : string) :
  forall n m : nat, (n <= m)%nat ->
    String.substring 0 n (String.substring 0 m s) = String.substring 0 n s.
Proof.
  induction s as [|c s IH]; intros [|n] [|m] Hnm; simpl in *;
    try reflexivity; try lia.
  rewrite IH by lia. reflexivity.
Qed.

Lemma substring0_all (s : string) : String.substring 0 (String.length s) s = s.
Proof. induction s as [|c s IH]; simpl; [reflexivity|]. rewrite IH. reflexivity. Qed.

Lemma prefixesFrom_substring (s : string) :
  forall n : nat, (n <= String.length s)%nat ->
    prefixesFrom n (String.substring 0 n s)
    = map (fun k => String.substring 0 k s) (rev (seq 1 n)).
Proof.
  induction n as [|n IH]; intros Hn; [reflexivity|].
  rewrite seq_S, rev_app_distr. cbn [prefixesFrom rev app map Nat.add].
  f_equal. rewrite <- IH by lia. f_equal.
  unfold Js.dropLast. rewrite length_substring0.
  replace (Nat.min (S n) (String.length s) - 1)%nat with n by lia.
  apply substring0_substring0. lia.
Qed.

(** X21: above the threshold of 10000 the loop over the prefixes of a term
    returns, and it emits one autocomplete entry for every prefix of the
    term that is not empty, from the term itself down to its first
    character. *)
Theorem X21_high_frecency_emits_every_prefix :
  forall (url_parse : string -> Js.parsedUrl) (row : placeRow) (term : string),
    10000 < row.(frecency) ->
    emitTerm url_parse row term
    = Js.Ok (map (fun n => emitAwesome url_parse row (String.substring 0 n term) term)
               (rev (seq 1 (String.length term)))).
Proof.
  intros url_parse row term Hf.
  rewrite (emitTerm_high_frecency _ _ _ Hf). f_equal.
  unfold prefixesDown.
  rewrite <- (substring0_all term) at 2.
  rewrite prefixesFrom_substring by lia.
  rewrite map_map. reflexivity.
Qed.

(** X21 on the place of the scenario and the term "example". *)
Lemma X21_prefixes_witness :
  10000 < (Example.place 50000).(frecency)
  /\ emitTerm Example.parse (Example.place 50000) "example"
     = Js.Ok (map (fun n => emitAwesome Example.parse (Example.place 50000)
                              (String.substring 0 n "example") "example")
                (rev (seq 1 (String.length "example")))).
Proof.
  assert (H : 10000 < (Example.place 50000).(frecency)) by reflexivity.
  split; [exact H|].
  exact (X21_high_frecency_emits_every_prefix Example.parse (Example.place 50000)
           "example" H).
Defined.

(** ** The name spaces of the output *)

(** X22: whatever the tables hold, every record the pipeline writes is a
    site-metadata record, an autocomplete entry or an adaptive record: its
    key begins with I, A or a and the separator.  No bookmark, tag, keyword
    or history record is written. *)
Theorem X22_pipeline_writes_to_three_name_spaces_only :
  forall (url_parse : string -> Js.parsedUrl) (db : snapshot)
         (batches : list (list put)),
    kickoffConversions url_parse db = Js.Ok batches ->
    Forall (fun p => inNamespaces ["I"; "A"; "a"] p = true) (concat batches)
    /\ forall tag, tag ∈ ["B"; "b"; "T"; "K"; "H"; "h"] ->
                   keysIn tag (concat batches) = [].
Proof.
  intros url_parse db batches H.
  assert (Hall : Forall (fun p => inNamespaces ["I"; "A"; "a"] p = true)
                   (concat batches)).
  { unfold kickoffConversions in H.
    destruct (slurpAll db) as [ctx|e] eqn:Hctx; simpl in H; [|discriminate].
    destruct (transformPlaceRecords url_parse ctx _) as [[bs ctx']|e] eqn:Hrun;
      simpl in H; [|discriminate].
    injection H as <-.
    apply Forall_concat.
    exact (transformPlaceRecords_namespaces _ _ _ _ _
             (slurpAll_keeps_no_visit _ _ Hctx) Hrun). }
  split; [exact Hall|].
  intros tag Htag. apply keysIn_none.
  eapply Forall_impl; [exact Hall|]. intros p Hp.
  exact (other_namespace tag p Htag Hp).
Qed.

(** X22 on the place with typed inputs and two visits. *)
Lemma X22_name_spaces_witness :
  kickoffConversions Example.parse Example2.typedDb
  = Js.Ok (Example2.converted Example2.typedDb)
  /\ Forall (fun p => inNamespaces ["I"; "A"; "a"] p = true)
       (concat (Example2.converted Example2.typedDb))
  /\ forall tag, tag ∈ ["B"; "b"; "T"; "K"; "H"; "h"] ->
                 keysIn tag (concat (Example2.converted Example2.typedDb)) = [].
Proof.
  assert (H : kickoffConversions Example.parse Example2.typedDb
              = Js.Ok (Example2.converted Example2.typedDb))
    by (vm_compute; reflexivity).
  split; [exact H|].
  exact (X22_pipeline_writes_to_three_name_spaces_only Example.parse
           Example2.typedDb _ H).
Defined.

(** ** writeBookmarks on a forest *)

Lemma objSet_elem {V : Type} (o : list (string * V)) (k : string) (v : V)
  (e : string * V) :
  e ∈ Js.objSet o k v -> e ∈ o \/ e = (k, v).
Proof.
  induction o as [|[k0 v0] o IH]; simpl.
  - intros H. apply list_elem_of_singleton in H. auto.
  - destruct (String.eqb k0 k).
    + intros H. apply elem_of_cons in H as [H|H]; [auto|].
      left. apply list_elem_of_further. exact H.
    + intros H. apply elem_of_cons in H as [H|H].
      * left. rewrite H. apply list_elem_of_here.
      * destruct (IH H) as [H'|H']; [|auto].
        left. apply list_elem_of_further. exact H'.
Qed.

(** The hierarchy binds root names to objects of rows only. *)
Lemma linkRoot_fold_range (byId : gmap Z nat) (roots : list (string * Z)) :
  forall (st st' : list (string * nat) * list hierInfo),
    Js.foldM (linkRoot byId) st roots = Js.Ok st' ->
    (forall e, e ∈ st.1 -> exists k, byId !! k = Some e.2) ->
    forall e, e ∈ st'.1 -> exists k, byId !! k = Some e.2.
Proof.
  intros st st' Hrun.
  refine (foldM_invariant _
            (fun s => forall e, e ∈ s.1 -> exists k, byId !! k = Some e.2)
            _ _ _ _ Hrun).
  intros [hier objs] [rootName rootId] [hier' objs1] _ Hstep Hinv e He.
  simpl in *.
  destruct (byId !! rootId) as [p0|] eqn:Hp0; [|discriminate].
  injection Hstep as <- _.
  apply objSet_elem in He as [He| ->]; [exact (Hinv e He)|].
  exists rootId. exact Hp0.
Qed.

Lemma linkRoot_fold_skeleton (byId : gmap Z nat) (roots : list (string * Z)) :
  forall (st st' : list (string * nat) * list hierInfo),
    Js.foldM (linkRoot byId) st roots = Js.Ok st' ->
    skeleton st'.2 = skeleton st.2.
Proof.
  intros st st' Hrun.
  refine (foldM_invariant _ (fun s => skeleton s.2 = skeleton st.2)
            _ _ _ _ Hrun eq_refl).
  intros [hier objs] [rootName rootId] [hier' objs1] _ Hstep Hinv. simpl in *.
  destruct (byId !! rootId) as [p0|]; [|discriminate].
  injection Hstep as _ <-. rewrite <- Hinv.
  apply skeleton_alter. intros h. split; reflexivity.
Qed.

Lemma linkChild_fold_skeleton (TAG_ROOT_ID : option Z) (byId : gmap Z nat)
  (refs : list nat) :
  forall (st st' : gmap (option Z) (list (option string)) * list hierInfo),
    Js.foldM (linkChild TAG_ROOT_ID byId) st refs = Js.Ok st' ->
    skeleton st'.2 = skeleton st.2.
Proof.
  intros st st' Hrun.
  refine (foldM_invariant _ (fun s => skeleton s.2 = skeleton st.2)
            _ _ _ _ Hrun eq_refl).
  intros [tagsBy objs] ref [tagsBy' objs1] _ Hstep Hinv. simpl in *.
  rewrite <- Hinv.
  destruct (objs !! ref) as [h|]; [|discriminate].
  destruct (Js.strictEqId h.(parentId) TAG_ROOT_ID).
  - destruct (_ ≫= _); [|discriminate]. injection Hstep as _ <-. reflexivity.
  - destruct (h.(parentId) ≫= _) as [p0|]; injection Hstep as _ <-; [|reflexivity].
    apply skeleton_alter. intros h0. split; reflexivity.
Qed.

(** When slurpBookmarks returns, there is one object per row, in the order
    of the table, each with the id and the parent id of its row. *)
Lemma slurpBookmarks_skeleton (ctx ctx' : context) (rows : list bookmarkRow) :
  slurpBookmarks ctx rows = Js.Ok ctx' ->
  skeleton ctx'.(heap) = map (fun row => (row.(bm_id), row.(parent))) rows.
Proof.
  intros H. open_slurpBookmarks H. simpl.
  pose proof (linkChild_fold_skeleton _ _ _ _ _ Hkids) as H1.
  pose proof (linkRoot_fold_skeleton _ _ _ _ Hroots) as H2.
  simpl in H1, H2. rewrite H1, H2.
  rewrite slurpBookmarks_scan_flat. unfold skeleton. rewrite map_map. reflexivity.
Qed.

(** Every kid of an object has, for parent id, an id bound to this
    object. *)
Lemma linkChild_fold_kids_parent (TAG_ROOT_ID : option Z) (byId : gmap Z nat)
  (refs : list nat) :
  forall (st st' : gmap (option Z) (list (option string)) * list hierInfo),
    Js.foldM (linkChild TAG_ROOT_ID byId) st refs = Js.Ok st' ->
    (forall j h r, st.2 !! j = Some h -> r ∈ default [] h.(kids) ->
       exists hr q, st.2 !! r = Some hr /\ hr.(parentId) = Some q
                    /\ byId !! q = Some j) ->
    forall j h r, st'.2 !! j = Some h -> r ∈ default [] h.(kids) ->
      exists hr q, st'.2 !! r = Some hr /\ hr.(parentId) = Some q
                   /\ byId !! q = Some j.
Proof.
  intros st st' Hrun.
  refine (foldM_invariant _
            (fun s => forall j h r, s.2 !! j = Some h -> r ∈ default [] h.(kids) ->
               exists hr q, s.2 !! r = Some hr /\ hr.(parentId) = Some q
                            /\ byId !! q = Some j)
            _ _ _ _ Hrun).
  clear. intros [tagsBy objs] ref [tagsBy' objs1] _ Hstep Hinv. simpl in *.
  destruct (objs !! ref) as [child|] eqn:Href; [|discriminate].
  destruct (Js.strictEqId child.(parentId) TAG_ROOT_ID).
  - destruct (_ ≫= _); [|discriminate]. injection Hstep as _ <-. exact Hinv.
  - destruct child.(parentId) as [q0|] eqn:Hq0; simpl in Hstep;
      [|injection Hstep as _ <-; exact Hinv].
    destruct (byId !! q0) as [p0|] eqn:Hp0; injection Hstep as _ <-;
      [|exact Hinv].
    set (f := fun h0 : hierInfo => set_kids h0 (Some (default [] h0.(kids) ++ [ref]))).
    assert (Hkeep : forall r hr, objs !! r = Some hr ->
              exists hr', alter f p0 objs !! r = Some hr'
                          /\ hr'.(parentId) = hr.(parentId)).
    { intros r hr Hr. destruct (decide (p0 = r)) as [->|Hne].
      - rewrite list_lookup_alter_eq, Hr. simpl. eauto.
      - rewrite list_lookup_alter_ne by exact Hne. eauto. }
    intros j h r Hj Hr.
    assert (Hold : forall h0, objs !! j = Some h0 -> r ∈ default [] h0.(kids) ->
              exists hr q, alter f p0 objs !! r = Some hr
                           /\ hr.(parentId) = Some q /\ byId !! q = Some j).
    { intros h0 Hh0 Hr0.
      destruct (Hinv j h0 r Hh0 Hr0) as (hr & q & Hhr & Hpar & Hq).
      destruct (Hkeep r hr Hhr) as (hr' & Hhr' & Hpar').
      exists hr', q. split; [exact Hhr'|]. split; [congruence|exact Hq]. }
    destruct (decide (p0 = j)) as [->|Hne].
    + rewrite list_lookup_alter_eq in Hj.
      destruct (objs !! j) as [hp|] eqn:Hp; [|discriminate].
      injection Hj as <-. simpl in Hr.
      apply elem_of_app in Hr as [Hr|Hr]; [exact (Hold hp eq_refl Hr)|].
      apply list_elem_of_singleton in Hr as ->.
      destruct (Hkeep ref child Href) as (hr' & Hhr' & Hpar').
      exists hr', q0. split; [exact Hhr'|]. split; [congruence|exact Hp0].
    + rewrite list_lookup_alter_ne in Hj by exact Hne. exact (Hold h Hj Hr).
Qed.

(** The kids of the object of a row are objects of rows whose parent id is
    the id of this row. *)
Lemma slurpBookmarks_kids_parent (ctx ctx' : context) (rows : list bookmarkRow)
  (j : nat) (h : hierInfo) (r : nat) :
  slurpBookmarks ctx rows = Js.Ok ctx' ->
  ctx'.(heap) !! j = Some h ->
  r ∈ default [] h.(kids) ->
  exists prow row,
    rows !! j = Some prow /\ rows !! r = Some row
    /\ row.(parent) = Some prow.(bm_id).
Proof.
  intros Hslurp Hj Hr.
  pose proof (slurpBookmarks_skeleton _ _ _ Hslurp) as Hsk.
  open_slurpBookmarks Hslurp. simpl in *.
  destruct (linkChild_fold_kids_parent _ _ _ _ _ Hkids) with (j := j) (h := h) (r := r)
    as (hr & q & Hhr & Hpar & Hq); [|exact Hj|exact Hr|].
  - simpl. intros j0 h0 r0 Hj0 Hr0.
    pose proof (linkRoot_fold_no_kids _ _ _ _ Hroots
                  (slurpBookmarks_scan_no_kids ctx rows)) as Hnone.
    rewrite Forall_lookup in Hnone. simpl in Hnone.
    rewrite (Hnone j0 h0 Hj0) in Hr0. apply elem_of_nil in Hr0. contradiction.
  - simpl in Hhr.
    destruct (slurpBookmarks_scan_byId_sound ctx rows q j Hq) as (prow & Hprow & Hid).
    assert (Hsr := f_equal (fun l => l !! r) Hsk). simpl in Hsr.
    rewrite skeleton_lookup, list_lookup_fmap, Hhr in Hsr. simpl in Hsr.
    destruct (rows !! r) as [row|] eqn:Hrow; [|discriminate].
    injection Hsr as _ Hpar'.
    exists prow, row. split; [exact Hprow|]. split; [reflexivity|].
    congruence.
Qed.

Lemma Forall_exists_Forall2 {A B : Type} (R : A -> B -> Prop) (l : list A) :
  Forall (fun x => exists y, R x y) l -> exists l', Forall2 R l l'.
Proof.
  induction 1 as [|x l [y Hy] _ [l' IH]].
  - exists []. constructor.
  - exists (y :: l'). constructor; assumption.
Qed.

(** On objects whose kids all lie lower for some measure, the traversal
    returns within the bound of the measure. *)
Lemma traverseBookmark_returns (objs : list hierInfo) (measure : nat -> nat) :
  (forall j h r, objs !! j = Some h -> r ∈ default [] h.(kids) ->
     is_Some (objs !! r) /\ (measure r < measure j)%nat) ->
  forall (fuel : nat) (depth : Z) (ref : nat),
    is_Some (objs !! ref) -> (measure ref < fuel)%nat ->
    exists puts, traverseBookmark fuel objs depth ref = Js.Ok puts.
Proof.
  intros Hkids. induction fuel as [|fuel IH]; intros depth ref [b Hb] Hm; [lia|].
  rewrite traverseBookmark_step, Hb.
  destruct (Forall_exists_Forall2
              (fun kid out => traverseBookmark fuel objs (depth + 1) kid = Js.Ok out)
              (default [] b.(kids))) as [outs Houts].
  - apply Forall_forall. intros kid Hkid.
    destruct (Hkids ref b kid Hb Hkid) as [Hsome Hlt].
    apply IH; [exact Hsome|lia].
  - eexists. apply foldM_collect. exists outs. split; [exact Houts|reflexivity].
Qed.

(** X23: writeBookmarks on a forest.  Let the bookmark rows have a height:
    a number for each id that is smaller for a row than for its parent id.
    On the context that slurpBookmarks leaves, within a bound above the
    heights, the traversals of all roots return: writeBookmarks submits one
    batch, and then throws a TypeError instead of returning its promise. *)
Theorem X23_writeBookmarks_submits_one_batch_on_a_forest :
  forall (ctx ctx' : context) (rows : list bookmarkRow)
         (height : Z -> nat) (fuel : nat),
    slurpBookmarks ctx rows = Js.Ok ctx' ->
    (forall row q, row ∈ rows -> row.(parent) = Some q ->
                   (height row.(bm_id) < height q)%nat) ->
    (forall row, row ∈ rows -> (height row.(bm_id) < fuel)%nat) ->
    exists batch,
      writeBookmarks fuel ctx' = ([batch], Js.Throw Js.TypeError).
Proof.
  intros ctx ctx' rows height fuel Hslurp Hheight Hfuel.
  set (measure := fun i : nat =>
                    match rows !! i with
                    | Some row => height row.(bm_id)
                    | None => 0%nat
                    end).
  pose proof (slurpBookmarks_skeleton _ _ _ Hslurp) as Hsk.
  assert (Hlen : length ctx'.(heap) = length rows).
  { apply (f_equal (@length _)) in Hsk. unfold skeleton in Hsk.
    rewrite !length_map in Hsk. exact Hsk. }
  assert (Hkids : forall j h r,
            ctx'.(heap) !! j = Some h -> r ∈ default [] h.(kids) ->
            is_Some (ctx'.(heap) !! r) /\ (measure r < measure j)%nat).
  { intros j h r Hj Hr.
    destruct (slurpBookmarks_kids_parent _ _ _ j h r Hslurp Hj Hr)
      as (prow & row & Hprow & Hrow & Hpar).
    split.
    - apply lookup_lt_is_Some_2. rewrite Hlen.
      apply lookup_lt_Some in Hrow. exact Hrow.
    - unfold measure. rewrite Hprow, Hrow.
      apply (Hheight row prow.(bm_id)); [|exact Hpar].
      apply list_elem_of_lookup. eauto. }
  assert (Hroot : forall e, e ∈ ctx'.(bookmarkHierarchy) ->
            is_Some (ctx'.(heap) !! e.2) /\ (measure e.2 < fuel)%nat).
  { intros e He.
    assert (Hb : exists k, (slurpBookmarks_scan ctx rows).(bookmarksById) !! k
                           = Some e.2).
    { clear Hsk Hlen Hkids. open_slurpBookmarks Hslurp. simpl in He.
      refine (linkRoot_fold_range _ _ _ _ Hroots _ e He).
      simpl. intros e0 He0. apply elem_of_nil in He0. contradiction. }
    destruct Hb as [k Hk].
    destruct (slurpBookmarks_scan_byId_sound ctx rows k e.2 Hk) as (row & Hrow & _).
    split.
    - apply lookup_lt_is_Some_2. rewrite Hlen.
      apply lookup_lt_Some in Hrow. exact Hrow.
    - unfold measure. rewrite Hrow. apply Hfuel.
      apply list_elem_of_lookup. eauto. }
  assert (Hbatch : forall acc, exists batch,
            Js.foldM
              (fun batch '(rootName, rootBookmark) =>
                 if String.eqb rootName "tags" then Js.Ok batch
                 else Js.bind (traverseBookmark fuel ctx'.(heap) 0 rootBookmark)
                        (fun l => Js.Ok (batch ++ l)))
              acc ctx'.(bookmarkHierarchy) = Js.Ok batch).
  { revert Hroot. generalize ctx'.(bookmarkHierarchy) as hier.
    induction hier as [|[rootName rootBookmark] hier IH]; intros Hroot acc; simpl;
      [eauto|].
    assert (Hrest : forall e, e ∈ hier ->
              is_Some (ctx'.(heap) !! e.2) /\ (measure e.2 < fuel)%nat).
    { intros e He. apply Hroot. apply list_elem_of_further. exact He. }
    destruct (String.eqb rootName "tags"); [exact (IH Hrest acc)|].
    destruct (Hroot (rootName, rootBookmark) (list_elem_of_here _ _)) as [Hsome Hlt].
    destruct (traverseBookmark_returns _ measure Hkids fuel 0 rootBookmark Hsome Hlt)
      as [puts ->].
    simpl. exact (IH Hrest (acc ++ puts)). }
  destruct (Hbatch []) as [batch Hb].
  exists batch. unfold writeBookmarks, writeBookmarks_batch. rewrite Hb. reflexivity.
Qed.

(** X23 on the bookmarks of the example: heights 1 for the two root
    folders, 0 for their children. *)
Lemma X23_forest_witness :
  slurpBookmarks Example.rootsContext Example.bookmarksDb.(moz_bookmarks)
  = Js.Ok Example.treeContext
  /\ (forall row q, row ∈ Example.bookmarksDb.(moz_bookmarks) ->
        row.(parent) = Some q ->
        (Example2.height row.(bm_id) < Example2.height q)%nat)
  /\ (forall row, row ∈ Example.bookmarksDb.(moz_bookmarks) ->
        (Example2.height row.(bm_id) < 3)%nat)
  /\ exists batch,
       writeBookmarks 3 Example.treeContext = ([batch], Js.Throw Js.TypeError).
Proof.
  assert (H1 : slurpBookmarks Example.rootsContext Example.bookmarksDb.(moz_bookmarks)
               = Js.Ok Example.treeContext) by (vm_compute; reflexivity).
  assert (H2 : forall row q, row ∈ Example.bookmarksDb.(moz_bookmarks) ->
                 row.(parent) = Some q ->
                 (Example2.height row.(bm_id) < Example2.height q)%nat).
  { intros row q Hin Hpar. simpl in Hin.
    repeat (apply elem_of_cons in Hin as [->|Hin]);
      try (injection Hpar as <-; vm_compute; lia).
    apply elem_of_nil in Hin. contradiction. }
  assert (H3 : forall row, row ∈ Example.bookmarksDb.(moz_bookmarks) ->
                 (Example2.height row.(bm_id) < 3)%nat).
  { intros row Hin. simpl in Hin.
    repeat (apply elem_of_cons in Hin as [->|Hin]); try (vm_compute; lia).
    apply elem_of_nil in Hin. contradiction. }
  split; [exact H1|]. split; [exact H2|]. split; [exact H3|].
  exact (X23_writeBookmarks_submits_one_batch_on_a_forest
           Example.rootsContext Example.treeContext
           Example.bookmarksDb.(moz_bookmarks) Example2.height 3 H1 H2 H3).
Defined.
